(** * ATE chat application: session store and search-history log

    A shallow embedding of the two SQLite-backed stores of the repository,
    [session_manager.py] (class [SessionManager]) and [search_history.py]
    (class [SearchHistoryManager]), together with the one caller that
    rewrites a session, [session_ui.save_current_session], the other
    callers of the two stores in [session_ui.py], [app.py] and
    [search_history_ui.py], and the choice of the ODBC driver in
    [database_connection.py].

    Conventions of the embedding.
    - A table is the list of its rows in insertion order, except
      [chat_sessions], whose [session_id] is the primary key: it is a finite
      map from the key to the rest of the row.
    - Text is a [string] of bytes, as SQLite stores it.  Operations of
      Python that count or change characters ([len], slicing, [lower],
      [upper], [strip]) agree with the model on ASCII text.
    - The clock is an argument: every operation that reads
      [datetime.now()] or relies on [CURRENT_TIMESTAMP] takes the reading,
      one reading for each call of an operation.
    - An operation runs to its end: the storage engine raises no error,
      except where an operation takes a flag that says otherwise.
    - SQLite is used as Python's [sqlite3] module opens it: foreign keys are
      declared in the schema but not enforced, because no connection ever
      issues [PRAGMA foreign_keys = ON]. *)

From Stdlib Require Import ZArith Ascii String List Bool Lia.
From Stdlib Require Import Sorting.Sorted Sorting.Permutation.
From Stdlib Require OrderedTypeEx.
From stdpp Require Import base option list strings gmap fin_maps.

Local Open Scope Z_scope.

(* ===================================================================== *)
(** * Part I: the embedding *)
(* ===================================================================== *)

(** ** Python strings *)
Module PyStr.

Definition is_upper (c : ascii) : bool :=
  let n := nat_of_ascii c in (65 <=? n)%nat && (n <=? 90)%nat.

Definition is_lower (c : ascii) : bool :=
  let n := nat_of_ascii c in (97 <=? n)%nat && (n <=? 122)%nat.

Definition lower_char (c : ascii) : ascii :=
  if is_upper c then ascii_of_nat (nat_of_ascii c + 32) else c.

Definition upper_char (c : ascii) : ascii :=
  if is_lower c then ascii_of_nat (nat_of_ascii c - 32) else c.

(** [str.lower()] and [str.upper()] *)
Fixpoint lower (s : string) : string :=
  match s with
  | EmptyString => EmptyString
  | String c s' => String (lower_char c) (lower s')
  end.

Fixpoint upper (s : string) : string :=
  match s with
  | EmptyString => EmptyString
  | String c s' => String (upper_char c) (upper s')
  end.

(** The ASCII characters for which [str.isspace()] holds: tab, line feed,
    vertical tab, form feed, carriage return, the four separators
    0x1c-0x1f, and space. *)
Definition is_space (c : ascii) : bool :=
  let n := nat_of_ascii c in
  ((9 <=? n)%nat && (n <=? 13)%nat) || ((28 <=? n)%nat && (n <=? 32)%nat).

Fixpoint lstrip (s : string) : string :=
  match s with
  | EmptyString => EmptyString
  | String c s' => if is_space c then lstrip s' else s
  end.

(** Drops trailing white space: a character stays when it is not white
    space or something after it stays. *)
Fixpoint rstrip (s : string) : string :=
  match s with
  | EmptyString => EmptyString
  | String c s' =>
      match rstrip s' with
      | EmptyString => if is_space c then EmptyString else String c EmptyString
      | r => String c r
      end
  end.

(** [str.strip()] *)
Definition strip (s : string) : string := rstrip (lstrip s).

(** [s.startswith(p)] *)
Fixpoint startswith (s p : string) : bool :=
  match p, s with
  | EmptyString, _ => true
  | String _ _, EmptyString => false
  | String a p', String b s' => Ascii.eqb a b && startswith s' p'
  end.

(** [s[:n]] and [s[n:]] for [n >= 0] *)
Fixpoint take (n : nat) (s : string) : string :=
  match n, s with
  | O, _ => EmptyString
  | S _, EmptyString => EmptyString
  | S n', String c s' => String c (take n' s')
  end.

Fixpoint drop (n : nat) (s : string) : string :=
  match n, s with
  | O, _ => s
  | S _, EmptyString => EmptyString
  | S n', String _ s' => drop n' s'
  end.

(** Truth value of a string: [bool(s)] *)
Definition truthy (s : string) : bool :=
  match s with EmptyString => false | _ => true end.

(** [sep.join(parts)] *)
Fixpoint join (sep : string) (parts : list string) : string :=
  match parts with
  | [] => EmptyString
  | [p] => p
  | p :: rest => String.append p (String.append sep (join sep rest))
  end.

(** Bytewise comparison, the order of SQLite's BINARY collation and of
    Python's [str] on ASCII text. *)
Definition ltb (a b : string) : bool :=
  match String.compare a b with Lt => true | _ => false end.

Definition leb (a b : string) : bool :=
  match String.compare a b with Gt => false | _ => true end.

(** The text is ASCII.  The embedding reads text as bytes; Python counts,
    slices and maps the case of characters, which is the same thing on
    ASCII text only (the upper case of one character can be two
    characters elsewhere). *)
Fixpoint ascii_text (s : string) : bool :=
  match s with
  | EmptyString => true
  | String c rest => (nat_of_ascii c <? 128)%nat && ascii_text rest
  end.

End PyStr.

(** ** Naive date-times ([datetime.datetime] without a time zone) *)
Module PyTime.

Record datetime := mkDatetime {
  year : Z; month : Z; day : Z;
  hour : Z; minute : Z; second : Z;
  microsecond : Z
}.

Definition digit (d : Z) : ascii := ascii_of_nat (48 + Z.to_nat (d mod 10)).

(** The [k] lowest decimal digits of [n], most significant first. *)
Fixpoint pad (k : nat) (n : Z) : string :=
  match k with
  | O => EmptyString
  | S k' => String.append (pad k' (n / 10)) (String (digit n) EmptyString)
  end.

(** [dt.strftime("%Y-%m-%d %H:%M:%S")], for years 1000 to 9999; the format
    of SQLite's [CURRENT_TIMESTAMP] as well. *)
Definition strftime_sql (dt : datetime) : string :=
  String.concat EmptyString [pad 4 (year dt); "-"; pad 2 (month dt); "-"; pad 2 (day dt); " ";
                    pad 2 (hour dt); ":"; pad 2 (minute dt); ":"; pad 2 (second dt)]%string.

(** [dt.strftime('%Y-%m-%d %H:%M')], for years 1000 to 9999 *)
Definition strftime_minute (dt : datetime) : string :=
  String.concat EmptyString [pad 4 (year dt); "-"; pad 2 (month dt); "-"; pad 2 (day dt); " ";
                    pad 2 (hour dt); ":"; pad 2 (minute dt)]%string.

(** The year has four digits.  Python's [strftime] prints [%Y] without
    padding, so that the two functions above, which print four digits, give
    its text for these years only; SQLite and [isoformat] always print four
    digits. *)
Definition four_digit_year (dt : datetime) : Prop := 1000 <= year dt <= 9999.

(** [dt.strftime('%H:%M')] *)
Definition strftime_hm (dt : datetime) : string :=
  String.concat EmptyString [pad 2 (hour dt); ":"; pad 2 (minute dt)]%string.

(** [dt.isoformat()]: the fraction is printed only when it is not zero. *)
Definition isoformat (dt : datetime) : string :=
  String.concat EmptyString [pad 4 (year dt); "-"; pad 2 (month dt); "-"; pad 2 (day dt); "T";
                    pad 2 (hour dt); ":"; pad 2 (minute dt); ":"; pad 2 (second dt);
                    if (microsecond dt =? 0)%Z then EmptyString else String.append "." (pad 6 (microsecond dt))]%string.

(** Days since 0000-03-01 of the proleptic Gregorian calendar, and back
    (the arithmetic behind [datetime - timedelta(days=n)]). *)
Definition days_from_civil (y m d : Z) : Z :=
  let y' := if m <=? 2 then y - 1 else y in
  let era := y' / 400 in
  let yoe := y' - era * 400 in
  let mp := (m + 9) mod 12 in
  let doy := (153 * mp + 2) / 5 + d - 1 in
  let doe := yoe * 365 + yoe / 4 - yoe / 100 + doy in
  era * 146097 + doe.

Definition civil_from_days (z : Z) : Z * Z * Z :=
  let era := z / 146097 in
  let doe := z - era * 146097 in
  let yoe := (doe - doe / 1460 + doe / 36524 - doe / 146096) / 365 in
  let doy := doe - (365 * yoe + yoe / 4 - yoe / 100) in
  let mp := (5 * doy + 2) / 153 in
  let d := doy - (153 * mp + 2) / 5 + 1 in
  let m := if mp <? 10 then mp + 3 else mp - 9 in
  let y := yoe + era * 400 in
  (if m <=? 2 then y + 1 else y, m, d).

(** [dt - timedelta(days=n)] *)
Definition sub_days (dt : datetime) (n : Z) : datetime :=
  let '(y, m, d) := civil_from_days (days_from_civil (year dt) (month dt) (day dt) - n) in
  mkDatetime y m d (hour dt) (minute dt) (second dt) (microsecond dt).

End PyTime.

(** ** The session store ([session_manager.py], [session_ui.py]) *)
Module Sessions.
Import PyStr PyTime.

(** A row of [chat_sessions] without its key [session_id]. *)
Record session_row := mkSession {
  user_login : string;
  session_title : string;
  created_at : string;
  last_updated : string;
  message_count : Z;
  is_active : bool
}.

(** A row of [chat_messages]. *)
Record message_row := mkMessage {
  message_id : Z;
  msg_session_id : string;
  role : string;
  content : string;
  msg_timestamp : string;
  message_index : Z
}.

(** The database file: both tables and the AUTOINCREMENT counter of
    [chat_messages] (the largest [message_id] handed out so far). *)
Record db := mkDb {
  chat_sessions : gmap string session_row;
  chat_messages : list message_row;
  last_message_id : Z
}.

Definition empty_db : db := mkDb ∅ [] 0.

(** [SELECT COUNT( * ) FROM chat_messages WHERE session_id = ?] *)
Definition count_messages (msgs : list message_row) (sid : string) : Z :=
  Z.of_nat (length (filter (fun m => msg_session_id m = sid) msgs)).

(** [DELETE FROM chat_messages WHERE session_id = ?] *)
Definition delete_messages (msgs : list message_row) (sid : string) : list message_row :=
  filter (fun m => msg_session_id m ≠ sid) msgs.

(** [SessionManager.create_new_session]: [uuid_a] is the identifier drawn
    first; when the insert fails on the primary key the function returns a
    second draw [uuid_b] that is not stored. *)
Definition create_new_session (now : datetime) (uuid_a uuid_b : string) (d : db)
    (login : string) (title : string) : db * string :=
  let title' := if truthy title then title
                else String.append "Chat Session - " (strftime_minute now) in
  match chat_sessions d !! uuid_a with
  | Some _ => (d, uuid_b)
  | None =>
      (mkDb (<[uuid_a := mkSession login title' (isoformat now) (isoformat now) 0 true]>
               (chat_sessions d))
            (chat_messages d) (last_message_id d),
       uuid_a)
  end.

(** [SessionManager.save_message]: an INSERT into [chat_messages], then an
    UPDATE of the session row, which touches no row when the session is not
    stored.  The INSERT does not depend on the session row: the FOREIGN KEY
    clause of the schema is not enforced (see the conventions above). *)
Definition save_message (now : datetime) (d : db)
    (sid rl ct : string) (idx : Z) : db :=
  let mid := last_message_id d + 1 in
  let msgs := chat_messages d ++ [mkMessage mid sid rl ct (isoformat now) idx] in
  let bump (s : session_row) :=
    mkSession (user_login s) (session_title s) (created_at s)
              (isoformat now) (count_messages msgs sid) (is_active s) in
  mkDb (alter bump sid (chat_sessions d)) msgs mid.

(** [SessionManager.load_session_messages]: the session's rows by ascending
    [message_index] (rows of equal index stay in insertion order). *)
Fixpoint insert_by_index (m : message_row) (l : list message_row) : list message_row :=
  match l with
  | [] => [m]
  | x :: l' => if message_index m <=? message_index x then m :: l
               else x :: insert_by_index m l'
  end.

Definition load_session_messages (d : db) (sid : string) : list message_row :=
  foldr insert_by_index [] (filter (fun m => msg_session_id m = sid) (chat_messages d)).

(** [SessionManager.update_session_title] *)
Definition update_session_title (now : datetime) (d : db) (sid new_title : string) : db :=
  let retitle (s : session_row) :=
    mkSession (user_login s) new_title (created_at s)
              (isoformat now) (message_count s) (is_active s) in
  mkDb (alter retitle sid (chat_sessions d)) (chat_messages d) (last_message_id d).

(** [SessionManager.delete_session] *)
Definition delete_session (d : db) (sid login : string) : db * bool :=
  match chat_sessions d !! sid with
  | None => (d, false)
  | Some s =>
      if negb (String.eqb (user_login s) login) then (d, false)
      else (mkDb (delete sid (chat_sessions d))
                 (delete_messages (chat_messages d) sid)
                 (last_message_id d),
            true)
  end.

(** [SessionManager.archive_session] *)
Definition archive_session (now : datetime) (d : db) (sid login : string) : db * bool :=
  match chat_sessions d !! sid with
  | Some s =>
      if String.eqb (user_login s) login
      then (mkDb (<[sid := mkSession (user_login s) (session_title s) (created_at s)
                                     (isoformat now) (message_count s) false]>
                    (chat_sessions d))
                 (chat_messages d) (last_message_id d),
            true)
      else (d, false)
  | None => (d, false)
  end.

(** The lead-in phrases of [generate_session_title], in the order tried. *)
Definition prefixes_to_remove : list string :=
  ["what is"; "what are"; "how do"; "how to"; "can you"; "please"; "help me"]%string.

(** The [for prefix in prefixes_to_remove] loop with its [break]. *)
Fixpoint remove_prefix (prefixes : list string) (lower_message clean_message : string) : string :=
  match prefixes with
  | [] => clean_message
  | prefix :: rest =>
      if startswith lower_message prefix
      then strip (drop (String.length prefix) clean_message)
      else remove_prefix rest lower_message clean_message
  end.

(** [SessionManager.generate_session_title] *)
Definition generate_session_title (now : datetime) (first_message : string) : string :=
  if negb (truthy first_message)
  then String.append "Chat Session - " (strftime_minute now)
  else
    let clean_message := strip first_message in
    let clean_message :=
      if (50 <? String.length clean_message)%nat
      then String.append (take 47 clean_message) "..."
      else clean_message in
    let lower_message := lower clean_message in
    let clean_message := remove_prefix prefixes_to_remove lower_message clean_message in
    let clean_message :=
      match clean_message with
      | EmptyString => clean_message
      | String c rest => String.append (upper (String c EmptyString)) rest
      end in
    if truthy clean_message then clean_message
    else String.append "Chat - " (strftime_hm now).

(** A message of the in-memory transcript [st.session_state.messages]. *)
Record ui_message := mkUi { ui_role : string; ui_content : string }.

(** The part of [st.session_state] that [save_current_session] reads and
    writes. *)
Record session_state := mkState {
  current_session_id : option string;
  messages : list ui_message;
  session_needs_title : bool
}.

(** [for i, message in enumerate(messages): save_message(sid, role, content, i)] *)
Fixpoint save_all (now : datetime) (d : db) (sid : string) (i : Z)
    (msgs : list ui_message) : db :=
  match msgs with
  | [] => d
  | m :: rest =>
      save_all now (save_message now d sid (ui_role m) (ui_content m) i) sid (i + 1) rest
  end.

(** [next((msg["content"] for msg in messages if msg["role"] == "user"), None)] *)
Fixpoint first_user_message (msgs : list ui_message) : option string :=
  match msgs with
  | [] => None
  | m :: rest => if String.eqb (ui_role m) "user" then Some (ui_content m)
                 else first_user_message rest
  end.

(** [session_ui.save_current_session]: the full-session rewrite.  The
    DELETE is committed on its own; the session row is only touched by the
    [save_message] calls that follow. *)
Definition save_current_session (now : datetime) (d : db) (ss : session_state)
    : db * session_state :=
  match current_session_id ss with
  | None => (d, ss)
  | Some sid =>
      if negb (truthy sid) || match messages ss with [] => true | _ => false end
      then (d, ss)
      else
        let d1 := mkDb (chat_sessions d) (delete_messages (chat_messages d) sid)
                       (last_message_id d) in
        let d2 := save_all now d1 sid 0 (messages ss) in
        if session_needs_title ss then
          match first_user_message (messages ss) with
          | Some fm =>
              if truthy fm
              then (update_session_title now d2 sid (generate_session_title now fm),
                    mkState (current_session_id ss) (messages ss) false)
              else (d2, ss)
          | None => (d2, ss)
          end
        else (d2, ss)
  end.

(** [session_ui.save_current_session_if_needed] *)
Definition save_current_session_if_needed (now : datetime) (d : db) (ss : session_state)
    : db * session_state :=
  match messages ss, current_session_id ss with
  | [], _ => (d, ss)
  | _, None => (d, ss)
  | _ :: _, Some sid =>
      if negb (truthy sid) then (d, ss)
      else if (length (messages ss) =? length (load_session_messages d sid))%nat
           then (d, ss)
           else save_current_session now d ss
  end.

(** A call of the three mutating operations of the session store. *)
Inductive call :=
| SaveMessage (now : datetime) (sid rl ct : string) (idx : Z)
| RewriteSession (now : datetime) (ss : session_state)
| DeleteSession (sid login : string).

Definition run_call (d : db) (c : call) : db :=
  match c with
  | SaveMessage now sid rl ct idx => save_message now d sid rl ct idx
  | RewriteSession now ss => fst (save_current_session now d ss)
  | DeleteSession sid login => fst (delete_session d sid login)
  end.

Definition run_calls (d : db) (cs : list call) : db := foldl run_call d cs.

(** The counter agrees with the rows, for every stored session. *)
Definition counts_consistent (d : db) : Prop :=
  ∀ sid s, chat_sessions d !! sid = Some s →
           message_count s = count_messages (chat_messages d) sid.

(** Claim C1 as stated: the counter of a stored session is the number of
    its rows, and a session without a row has no message rows. *)
Definition count_matches_rows (d : db) (sid : string) : Prop :=
  match chat_sessions d !! sid with
  | Some s => message_count s = count_messages (chat_messages d) sid
  | None => count_messages (chat_messages d) sid = 0
  end.

(** The rows of a session at a given index. *)
Definition rows_at (d : db) (sid : string) (idx : Z) : list message_row :=
  filter (fun m => msg_session_id m = sid ∧ message_index m = idx) (chat_messages d).

End Sessions.

(** ** JSON values, [json.loads] and [json.dumps] *)
Module Json.
Import PyStr.
#[local] Set Warnings "-register-all".

(** What [json.loads] returns: [None], a [bool], an [int], a [float], a
    [str], a [list] or a [dict].  A float keeps the text it was read from;
    a dict keeps its keys in insertion order, each key once. *)
Inductive json :=
| JNull
| JBool (b : bool)
| JInt (z : Z)
| JFloat (lexeme : string)
| JStr (s : string)
| JArr (items : list json)
| JObj (members : list (string * json)).

(** [d.get(key, default)] *)
Fixpoint dict_get (members : list (string * json)) (key : string) (default : json) : json :=
  match members with
  | [] => default
  | (k, v) :: rest => if String.eqb k key then v else dict_get rest key default
  end.

(** [d[key]], [None] for [KeyError] *)
Fixpoint dict_item (members : list (string * json)) (key : string) : option json :=
  match members with
  | [] => None
  | (k, v) :: rest => if String.eqb k key then Some v else dict_item rest key
  end.

(** [d[key] = v]: a key already present keeps its place. *)
Fixpoint dict_set (members : list (string * json)) (key : string) (v : json)
    : list (string * json) :=
  match members with
  | [] => [(key, v)]
  | (k, w) :: rest => if String.eqb k key then (k, v) :: rest
                      else (k, w) :: dict_set rest key v
  end.

Definition is_digit (c : ascii) : bool :=
  let n := nat_of_ascii c in (48 <=? n)%nat && (n <=? 57)%nat.

Definition digit_value (c : ascii) : Z := Z.of_nat (nat_of_ascii c) - 48.

(** Whether a float lexeme denotes zero: no digit of its mantissa differs
    from 0 (the exponent part starts at e or E). *)
Fixpoint mantissa_is_zero (s : string) : bool :=
  match s with
  | EmptyString => true
  | String c rest =>
      if Ascii.eqb c "e" || Ascii.eqb c "E" then true
      else if is_digit c && negb (Ascii.eqb c "0") then false
      else mantissa_is_zero rest
  end.

(** Truth value of a Python object, [bool(v)]. *)
Definition truthy (v : json) : bool :=
  match v with
  | JNull => false
  | JBool b => b
  | JInt z => negb (z =? 0)
  | JFloat lexeme =>
      if String.eqb lexeme "NaN" || String.eqb lexeme "Infinity"
         || String.eqb lexeme "-Infinity"
      then true else negb (mantissa_is_zero lexeme)
  | JStr s => PyStr.truthy s
  | JArr items => match items with [] => false | _ => true end
  | JObj members => match members with [] => false | _ => true end
  end.

(** [len(v)], [None] for [TypeError] *)
Definition py_len (v : json) : option nat :=
  match v with
  | JStr s => Some (String.length s)
  | JArr items => Some (length items)
  | JObj members => Some (length members)
  | _ => None
  end.

Definition is_list (v : json) : bool :=
  match v with JArr _ => true | _ => false end.

(** *** Reading *)

Definition is_ws (c : ascii) : bool :=
  Ascii.eqb c " " || Ascii.eqb c "009" || Ascii.eqb c "010" || Ascii.eqb c "013".

Fixpoint skip_ws (s : string) : string :=
  match s with
  | String c rest => if is_ws c then skip_ws rest else s
  | EmptyString => s
  end.

Definition hex_value (c : ascii) : option N :=
  let n := N_of_ascii c in
  if (48 <=? n)%N && (n <=? 57)%N then Some (n - 48)%N
  else if (97 <=? n)%N && (n <=? 102)%N then Some (n - 87)%N
  else if (65 <=? n)%N && (n <=? 70)%N then Some (n - 55)%N
  else None.

Definition hex4 (a b c d : ascii) : option N :=
  match hex_value a, hex_value b, hex_value c, hex_value d with
  | Some x, Some y, Some z, Some w => Some (((x * 16 + y) * 16 + z) * 16 + w)%N
  | _, _, _, _ => None
  end.

(** A piece of a string literal: a byte copied from the text, or the code
    unit of a [\uXXXX] escape. *)
Inductive str_unit := Raw (c : ascii) | Esc (n : N).

(** The body of a string literal after its opening quote, up to the
    closing quote ([scanstring] with [strict=True]). *)
Fixpoint scan_units (s : string) : option (list str_unit * string) :=
  match s with
  | EmptyString => None
  | String c rest =>
      if Ascii.eqb c "034"%char then Some ([], rest)
      else if Ascii.eqb c "\" then
        match rest with
        | EmptyString => None
        | String e rest' =>
            let simple (r : ascii) :=
              match scan_units rest' with
              | Some (us, tl) => Some (Raw r :: us, tl)
              | None => None
              end in
            if Ascii.eqb e "034"%char then simple "034"%char
            else if Ascii.eqb e "\" then simple "\"%char
            else if Ascii.eqb e "/" then simple "/"%char
            else if Ascii.eqb e "b" then simple "008"%char
            else if Ascii.eqb e "f" then simple "012"%char
            else if Ascii.eqb e "n" then simple "010"%char
            else if Ascii.eqb e "r" then simple "013"%char
            else if Ascii.eqb e "t" then simple "009"%char
            else if Ascii.eqb e "u" then
              match rest' with
              | String h1 (String h2 (String h3 (String h4 tl))) =>
                  match hex4 h1 h2 h3 h4 with
                  | Some n =>
                      match scan_units tl with
                      | Some (us, tl') => Some (Esc n :: us, tl')
                      | None => None
                      end
                  | None => None
                  end
              | _ => None
              end
            else None
        end
      else if (N_of_ascii c <? 32)%N then None
      else
        match scan_units rest with
        | Some (us, tl) => Some (Raw c :: us, tl)
        | None => None
        end
  end.

Definition byte (n : N) : ascii := ascii_of_N n.

(** UTF-8 bytes of a code point. *)
Definition utf8_encode (n : N) : list ascii :=
  if (n <? 128)%N then [byte n]
  else if (n <? 2048)%N then [byte (192 + n / 64); byte (128 + n mod 64)]
  else if (n <? 65536)%N then
    [byte (224 + n / 4096); byte (128 + (n / 64) mod 64); byte (128 + n mod 64)]
  else [byte (240 + n / 262144); byte (128 + (n / 4096) mod 64);
        byte (128 + (n / 64) mod 64); byte (128 + n mod 64)].

Definition is_high_surrogate (n : N) : bool := (55296 <=? n)%N && (n <=? 56319)%N.
Definition is_low_surrogate (n : N) : bool := (56320 <=? n)%N && (n <=? 57343)%N.

(** The text of a literal: an escaped high surrogate followed at once by an
    escaped low surrogate is one code point. *)
Fixpoint units_to_bytes (us : list str_unit) : list ascii :=
  match us with
  | [] => []
  | Raw c :: rest => c :: units_to_bytes rest
  | Esc hi :: rest =>
      match rest with
      | Esc lo :: rest' =>
          if is_high_surrogate hi && is_low_surrogate lo
          then utf8_encode (65536 + (hi - 55296) * 1024 + (lo - 56320))%N
                 ++ units_to_bytes rest'
          else utf8_encode hi ++ units_to_bytes rest
      | _ => utf8_encode hi ++ units_to_bytes rest
      end
  end.

Definition scan_string (s : string) : option (string * string) :=
  match scan_units s with
  | Some (us, rest) => Some (string_of_list_ascii (units_to_bytes us), rest)
  | None => None
  end.

(** The longest run of digits at the head of a string. *)
Fixpoint span_digits (s : string) : string * string :=
  match s with
  | String c rest =>
      if is_digit c then let '(ds, tl) := span_digits rest in (String c ds, tl)
      else (EmptyString, s)
  | EmptyString => (EmptyString, s)
  end.

Fixpoint digits_value (acc : Z) (ds : string) : Z :=
  match ds with
  | EmptyString => acc
  | String c rest => digits_value (acc * 10 + digit_value c) rest
  end.

(** The integer part of a number: [0], or a digit 1-9 and more digits. *)
Definition scan_int_part (s : string) : option (string * string) :=
  match s with
  | String c rest =>
      if Ascii.eqb c "0" then Some (String c EmptyString, rest)
      else if is_digit c then let '(ds, tl) := span_digits rest in Some (String c ds, tl)
      else None
  | EmptyString => None
  end.

(** The optional fraction: a dot and at least one digit. *)
Definition scan_frac (s : string) : string * string :=
  match s with
  | String "." rest =>
      match span_digits rest with
      | (EmptyString, _) => (EmptyString, s)
      | (ds, tl) => (String "." ds, tl)
      end
  | _ => (EmptyString, s)
  end.

(** The optional exponent: e or E, an optional sign, at least one digit. *)
Definition scan_exp (s : string) : string * string :=
  match s with
  | String e rest =>
      if Ascii.eqb e "e" || Ascii.eqb e "E" then
        let '(sign, rest') :=
          match rest with
          | String g r => if Ascii.eqb g "+" || Ascii.eqb g "-"
                          then (String g EmptyString, r) else (EmptyString, rest)
          | EmptyString => (EmptyString, rest)
          end in
        match span_digits rest' with
        | (EmptyString, _) => (EmptyString, s)
        | (ds, tl) => (String e (String.append sign ds), tl)
        end
      else (EmptyString, s)
  | EmptyString => (EmptyString, s)
  end.

(** A number at the head of the text ([NUMBER_RE]): an [int] when it has
    neither fraction nor exponent, a [float] otherwise. *)
Definition scan_number (s : string) : option (json * string) :=
  let '(neg, s1) :=
    match s with
    | String "-" r => (true, r)
    | _ => (false, s)
    end in
  match scan_int_part s1 with
  | None => None
  | Some (ip, s2) =>
      let '(fp, s3) := scan_frac s2 in
      let '(ep, s4) := scan_exp s3 in
      match fp, ep with
      | EmptyString, EmptyString =>
          let v := digits_value 0 ip in
          Some (JInt (if neg then - v else v), s4)
      | _, _ =>
          Some (JFloat (String.append (if neg then "-" else EmptyString)
                          (String.append ip (String.append fp ep)))%string, s4)
      end
  end.

(** [s.startswith(word)], returning the rest. *)
Fixpoint eat (word s : string) : option string :=
  match word, s with
  | EmptyString, _ => Some s
  | String a w, String b r => if Ascii.eqb a b then eat w r else None
  | String _ _, EmptyString => None
  end.

(** A value at the head of the text ([scan_once]), the elements of an
    array after its bracket, and the members of an object from a key on.
    The fuel bounds the number of nested calls. *)
Fixpoint scan_once (fuel : nat) (s : string) : option (json * string) :=
  match fuel with
  | O => None
  | S fuel' =>
      match s with
      | EmptyString => None
      | String c rest =>
          if Ascii.eqb c "034"%char then
            match scan_string rest with
            | Some (t, tl) => Some (JStr t, tl)
            | None => None
            end
          else if Ascii.eqb c "[" then
            match skip_ws rest with
            | String "]" tl => Some (JArr [], tl)
            | rest' =>
                match scan_items fuel' rest' with
                | Some (items, tl) => Some (JArr items, tl)
                | None => None
                end
            end
          else if Ascii.eqb c "{" then
            match skip_ws rest with
            | String "}" tl => Some (JObj [], tl)
            | rest' =>
                match scan_members fuel' [] rest' with
                | Some (members, tl) => Some (JObj members, tl)
                | None => None
                end
            end
          else
            match eat "null" s, eat "true" s, eat "false" s with
            | Some tl, _, _ => Some (JNull, tl)
            | _, Some tl, _ => Some (JBool true, tl)
            | _, _, Some tl => Some (JBool false, tl)
            | None, None, None =>
                match scan_number s with
                | Some r => Some r
                | None =>
                    match eat "NaN" s, eat "Infinity" s, eat "-Infinity" s with
                    | Some tl, _, _ => Some (JFloat "NaN", tl)
                    | _, Some tl, _ => Some (JFloat "Infinity", tl)
                    | _, _, Some tl => Some (JFloat "-Infinity", tl)
                    | None, None, None => None
                    end
                end
            end
      end
  end
with scan_items (fuel : nat) (s : string) : option (list json * string) :=
  match fuel with
  | O => None
  | S fuel' =>
      match scan_once fuel' s with
      | None => None
      | Some (v, rest) =>
          match skip_ws rest with
          | String "]" tl => Some ([v], tl)
          | String "," tl =>
              match scan_items fuel' (skip_ws tl) with
              | Some (vs, tl') => Some (v :: vs, tl')
              | None => None
              end
          | _ => None
          end
      end
  end
with scan_members (fuel : nat) (acc : list (string * json)) (s : string)
    : option (list (string * json) * string) :=
  match fuel with
  | O => None
  | S fuel' =>
      match s with
      | String "034"%char rest =>
          match scan_string rest with
          | None => None
          | Some (key, rest1) =>
              match skip_ws rest1 with
              | String ":" rest2 =>
                  match scan_once fuel' (skip_ws rest2) with
                  | None => None
                  | Some (v, rest3) =>
                      let acc' := dict_set acc key v in
                      match skip_ws rest3 with
                      | String "}" tl => Some (acc', tl)
                      | String "," tl => scan_members fuel' acc' (skip_ws tl)
                      | _ => None
                      end
                  end
              | _ => None
              end
          end
      | _ => None
      end
  end.

(** [json.loads(text)], [None] when it raises [JSONDecodeError] (a
    [ValueError]): one value, white space around it, nothing else. *)
Definition json_loads (text : string) : option json :=
  match scan_once (2 * String.length text + 2) (skip_ws text) with
  | Some (v, rest) =>
      match skip_ws rest with
      | EmptyString => Some v
      | _ => None
      end
  | None => None
  end.

End Json.

(** ** [json.dumps] and Python numbers *)
Module JsonOut.
Import PyStr Json.
#[local] Set Warnings "-register-all".

Definition hex_digit (n : N) : ascii :=
  if (n <? 10)%N then ascii_of_N (48 + n) else ascii_of_N (87 + n).

(** [\uXXXX] for a code unit below 0x10000 *)
Definition u_escape (n : N) : string :=
  String "\" (String "u"
    (String (hex_digit (n / 4096)) (String (hex_digit ((n / 256) mod 16))
      (String (hex_digit ((n / 16) mod 16)) (String (hex_digit (n mod 16)) EmptyString))))).

(** The escape of a code point ([ensure_ascii=True]): a surrogate pair
    above the basic plane. *)
Definition code_point_escape (n : N) : string :=
  if (n <? 65536)%N then u_escape n
  else let v := (n - 65536)%N in
       String.append (u_escape (55296 + v / 1024)) (u_escape (56320 + v mod 1024)).

Definition is_cont (c : ascii) : bool :=
  let n := N_of_ascii c in (128 <=? n)%N && (n <? 192)%N.

Definition cont (c : ascii) : N := (N_of_ascii c - 128)%N.

(** The body of a string literal: printable ASCII is copied, the quote,
    the backslash and the control characters are escaped, every other
    character is written as [\uXXXX] from its UTF-8 bytes. *)
Fixpoint escape_body (s : string) : string :=
  match s with
  | EmptyString => EmptyString
  | String c rest =>
      let n := N_of_ascii c in
      if Ascii.eqb c "034" then String "\" (String "034" (escape_body rest))
      else if Ascii.eqb c "\" then String.append "\\" (escape_body rest)
      else if Ascii.eqb c "010" then String.append "\n" (escape_body rest)
      else if Ascii.eqb c "013" then String.append "\r" (escape_body rest)
      else if Ascii.eqb c "009" then String.append "\t" (escape_body rest)
      else if Ascii.eqb c "008" then String.append "\b" (escape_body rest)
      else if Ascii.eqb c "012" then String.append "\f" (escape_body rest)
      else if (32 <=? n)%N && (n <? 127)%N then String c (escape_body rest)
      else if (n <? 192)%N then String.append (u_escape n) (escape_body rest)
      else
        match rest with
        | String c1 rest1 =>
            if negb (is_cont c1) then String.append (u_escape n) (escape_body rest)
            else if (n <? 224)%N
            then String.append (code_point_escape ((n - 192) * 64 + cont c1))
                               (escape_body rest1)
            else
              match rest1 with
              | String c2 rest2 =>
                  if negb (is_cont c2) then String.append (u_escape n) (escape_body rest)
                  else if (n <? 240)%N
                  then String.append
                         (code_point_escape (((n - 224) * 64 + cont c1) * 64 + cont c2))
                         (escape_body rest2)
                  else
                    match rest2 with
                    | String c3 rest3 =>
                        if negb (is_cont c3)
                        then String.append (u_escape n) (escape_body rest)
                        else String.append
                               (code_point_escape
                                  ((((n - 240) * 64 + cont c1) * 64 + cont c2) * 64 + cont c3))
                               (escape_body rest3)
                    | EmptyString => String.append (u_escape n) (escape_body rest)
                    end
              | EmptyString => String.append (u_escape n) (escape_body rest)
              end
        | EmptyString => u_escape n
        end
  end.

Definition quote : string := String "034" EmptyString.

Definition dump_string (s : string) : string :=
  String.append quote (String.append (escape_body s) quote).

(** Decimal digits of a natural number and of an integer. *)
Fixpoint digits_fuel (fuel : nat) (n : N) (acc : string) : string :=
  match fuel with
  | O => acc
  | S fuel' =>
      let acc' := String (ascii_of_N (48 + n mod 10)) acc in
      if (n <? 10)%N then acc' else digits_fuel fuel' (n / 10) acc'
  end.

Definition N_to_string (n : N) : string :=
  digits_fuel (S (N.to_nat (N.log2 n))) n EmptyString.

Definition Z_to_string (z : Z) : string :=
  if z <? 0 then String "-" (N_to_string (Z.to_N (- z))) else N_to_string (Z.to_N z).

(** [json.dumps(v)] with the default separators.  A float is written with
    the text it was read from (Python prints the shortest text of the
    double). *)
Fixpoint json_dumps (v : json) : string :=
  match v with
  | JNull => "null"
  | JBool true => "true"
  | JBool false => "false"
  | JInt z => Z_to_string z
  | JFloat lexeme => lexeme
  | JStr s => dump_string s
  | JArr items =>
      String.append "[" (String.append (join ", " (map json_dumps items)) "]")
  | JObj members =>
      String.append "{"
        (String.append
           (join ", " (map (fun kv => String.append (dump_string (fst kv))
                                         (String.append ": " (json_dumps (snd kv))))
                           members))
           "}")
  end.

(** *** Numbers *)

(** A finite number [mant * 10 ^ expo]. *)
Record decimal := mkDecimal { mant : Z; expo : Z }.

(** A Python [int], [bool] or [float] as a number: an [int] exactly, a
    [float] as the decimal its text denotes (Python rounds that decimal to
    the nearest double). *)
Inductive pynum := Fin (d : decimal) | PosInf | NegInf | NaN.

(** Splits a float lexeme at its exponent mark. *)
Fixpoint split_exp (s : string) : string * string :=
  match s with
  | EmptyString => (EmptyString, EmptyString)
  | String c rest =>
      if Ascii.eqb c "e" || Ascii.eqb c "E" then (EmptyString, rest)
      else let '(m, e) := split_exp rest in (String c m, e)
  end.

(** Digits of a mantissa without its dot, and the count of those after
    the dot. *)
Fixpoint mantissa_digits (s : string) (after_dot : bool) : string * Z :=
  match s with
  | EmptyString => (EmptyString, 0)
  | String c rest =>
      if Ascii.eqb c "." then mantissa_digits rest true
      else let '(ds, k) := mantissa_digits rest after_dot in
           (String c ds, if after_dot then k + 1 else k)
  end.

Definition signed_digits (s : string) : Z :=
  match s with
  | String "-" rest => - digits_value 0 rest
  | String "+" rest => digits_value 0 rest
  | _ => digits_value 0 s
  end.

Definition decimal_of_lexeme (lexeme : string) : decimal :=
  let '(m, e) := split_exp lexeme in
  let '(neg, m') := match m with
                    | String "-" r => (true, r)
                    | _ => (false, m)
                    end in
  let '(ds, k) := mantissa_digits m' false in
  let v := digits_value 0 ds in
  mkDecimal (if neg then - v else v) (signed_digits e - k).

(** The number a JSON value is, [None] when it is not a number. *)
Definition num_of_json (v : json) : option pynum :=
  match v with
  | JInt z => Some (Fin (mkDecimal z 0))
  | JBool b => Some (Fin (mkDecimal (if b then 1 else 0) 0))
  | JFloat lexeme =>
      if String.eqb lexeme "NaN" then Some NaN
      else if String.eqb lexeme "Infinity" then Some PosInf
      else if String.eqb lexeme "-Infinity" then Some NegInf
      else Some (Fin (decimal_of_lexeme lexeme))
  | _ => None
  end.

Definition dec_ltb (a b : decimal) : bool :=
  let e := Z.min (expo a) (expo b) in
  mant a * 10 ^ (expo a - e) <? mant b * 10 ^ (expo b - e).

(** [a < b] on numbers; every comparison with NaN is false. *)
Definition num_ltb (a b : pynum) : bool :=
  match a, b with
  | NaN, _ | _, NaN => false
  | NegInf, NegInf => false
  | NegInf, _ => true
  | _, NegInf => false
  | PosInf, _ => false
  | Fin _, PosInf => true
  | Fin x, Fin y => dec_ltb x y
  end.

(** [min(xs)] and [max(xs)] as Python computes them: the first element,
    replaced by each later one that is smaller (greater). *)
Definition py_min (x : pynum) (xs : list pynum) : pynum :=
  fold_left (fun cur y => if num_ltb y cur then y else cur) xs x.

Definition py_max (x : pynum) (xs : list pynum) : pynum :=
  fold_left (fun cur y => if num_ltb cur y then y else cur) xs x.

(** Rounds [n / d] to the nearest integer, ties to even ([0 <= n], [0 < d]). *)
Definition round_half_even (n d : Z) : Z :=
  let q := n / d in
  let r := n mod d in
  if 2 * r <? d then q
  else if d <? 2 * r then q + 1
  else if Z.even q then q else q + 1.

(** Hundredths of the absolute value, rounded. *)
Definition cents (d : decimal) : Z :=
  let m := Z.abs (mant d) in
  let e := expo d + 2 in
  if 0 <=? e then m * 10 ^ e else round_half_even m (10 ^ (- e)).

(** Commas between groups of three digits, counted from the right. *)
Fixpoint group_thousands (ds : string) : string :=
  match ds with
  | EmptyString => EmptyString
  | String c rest =>
      match rest with
      | EmptyString => String c EmptyString
      | _ => if (String.length rest mod 3 =? 0)%nat
             then String c (String "," (group_thousands rest))
             else String c (group_thousands rest)
      end
  end.

(** [format(x, ',.2f')] *)
Definition format_2f (x : pynum) : string :=
  match x with
  | NaN => "nan"
  | PosInf => "inf"
  | NegInf => "-inf"
  | Fin d =>
      let c := cents d in
      String.append (if mant d <? 0 then "-" else EmptyString)
        (String.append (group_thousands (N_to_string (Z.to_N (c / 100))))
           (String "." (PyTime.pad 2 (c mod 100))))
  end.

End JsonOut.

(** ** The search-history log ([search_history.py]) *)
Module History.
Import PyStr PyTime Json JsonOut.

(** *** SQLite's LIKE *)

(** [text LIKE pattern] without an ESCAPE clause: [%] matches any run of
    characters, [_] one character (a byte of the model, which reads text
    as ASCII), every other character itself, letters of ASCII without
    regard to case. *)
Fixpoint like (pattern : string) : string → bool :=
  match pattern with
  | EmptyString => fun text => match text with EmptyString => true | _ => false end
  | String p pattern' =>
      if Ascii.eqb p "%" then
        fix any_run (text : string) : bool :=
          like pattern' text ||
          match text with
          | EmptyString => false
          | String _ text' => any_run text'
          end
      else if Ascii.eqb p "_" then
        fun text => match text with
                    | EmptyString => false
                    | String _ text' => like pattern' text'
                    end
      else
        fun text => match text with
                    | EmptyString => false
                    | String c text' =>
                        Ascii.eqb (lower_char p) (lower_char c) && like pattern' text'
                    end
  end.

(** [f"%{needle}%"] *)
Definition contains_pattern (needle : string) : string :=
  String "%" (String.append needle "%").

(** *** The table *)

(** A row of [search_history].  Every column but [record_id],
    [timestamp] and [user_query] may hold NULL. *)
Record history_row := mkRow {
  record_id : Z;
  timestamp : string;
  user_query : string;
  product_brand : option string;
  product_model : option string;
  price_details : option string;
  vendors : option string;
  verified_urls : option string;
  source : option string;
  notes : option string;
  session_id : option string
}.

(** The database file: the table and its AUTOINCREMENT counter. *)
Record store := mkStore {
  rows : list history_row;
  last_record_id : Z
}.

Definition empty_store : store := mkStore [] 0.

(** *** The extraction adapter *)

(** The first entry of [tool_calls]: either reading
    [tool_calls[0]["function"]["arguments"]] raises [KeyError] or
    [TypeError] (the same when the arguments are not text), or it gives the
    text of the arguments. *)
Inductive tool_call :=
| BrokenCall
| Call (arguments : string).

(** What [chain.invoke] does: it raises, or it returns a message with its
    list of tool calls. *)
Inductive chain_result :=
| ChainRaises
| ChainReturns (tool_calls : list tool_call).

(** The chain, a function of the user query and the agent response. *)
Definition chain_fn := string → string → chain_result.

(** The dictionary [parsed_data] that [extract_product_info] returns. *)
Record insights := mkInsights {
  i_product_brand : json;
  i_product_model : json;
  i_price_details : json;
  i_vendors : json;
  i_notes : json;
  i_verified_urls : json;
  i_source : string
}.

(** The object [parsed_json] of [extract_product_info]. *)
Definition parsed_json_of (tool_calls : list tool_call) : json :=
  match tool_calls with
  | [] => JObj []
  | BrokenCall :: _ => JObj []
  | Call arguments :: _ =>
      match json_loads arguments with
      | Some v => v
      | None => JObj []
      end
  end.

(** [SearchHistoryManager.extract_product_info]; [None] when it raises:
    the chain raised, or the arguments decoded to something that is not a
    dictionary and has no [get]. *)
Definition extract_product_info (chain : chain_fn) (query response : string)
    : option insights :=
  match chain query response with
  | ChainRaises => None
  | ChainReturns tool_calls =>
      match parsed_json_of tool_calls with
      | JObj members =>
          let urls := dict_get members "verified_urls" (JArr []) in
          Some (mkInsights
                  (dict_get members "product_brand" (JStr EmptyString))
                  (dict_get members "product_model" (JStr EmptyString))
                  (dict_get members "price_details" (JArr []))
                  (dict_get members "vendors" (JArr []))
                  (dict_get members "notes" (JStr EmptyString))
                  urls
                  (if truthy urls then "web" else "database"))
      | _ => None
      end
  end.

(** A Python value bound to a parameter of a TEXT column: [None] when
    [sqlite3] refuses the value (a list, a dict, an integer outside 64
    bits), otherwise the value stored, NULL for Python's [None]; numbers
    are stored as their text. *)
Definition bind_text (v : json) : option (option string) :=
  match v with
  | JNull => Some None
  | JStr s => Some (Some s)
  | JBool b => Some (Some (if b then "1" else "0"))
  | JInt z => if (- 2 ^ 63 <=? z) && (z <? 2 ^ 63) then Some (Some (Z_to_string z)) else None
  | JFloat lexeme => Some (Some lexeme)
  | JArr _ | JObj _ => None
  end.

(** [SearchHistoryManager.log_search].  [storage_ok] tells whether SQLite
    accepts the connection and the INSERT; [now_utc] is the reading of
    [CURRENT_TIMESTAMP].  The arguments [source] and [notes] of the caller
    are overwritten before they are used. *)
Definition log_search (chain : chain_fn) (storage_ok : bool) (now_utc : datetime)
    (st : store) (user_query agent_response session_id : string)
    (source notes : string) : store * Z :=
  match extract_product_info chain user_query agent_response with
  | None => (st, -1)
  | Some parsed_data =>
      let brand := i_product_brand parsed_data in
      let model := i_product_model parsed_data in
      let price_details := i_price_details parsed_data in
      let vendors := i_vendors parsed_data in
      let urls := i_verified_urls parsed_data in
      let source := i_source parsed_data in
      let notes := i_notes parsed_data in
      if negb storage_ok then (st, -1)
      else
        match bind_text brand, bind_text model, bind_text notes with
        | Some brand', Some model', Some notes' =>
            let record_id := last_record_id st + 1 in
            (mkStore (rows st ++
                        [mkRow record_id (strftime_sql now_utc) user_query brand' model'
                               (Some (json_dumps price_details))
                               (Some (json_dumps vendors))
                               (Some (json_dumps urls))
                               (Some source) notes' (Some session_id)])
                     record_id,
             record_id)
        | _, _, _ => (st, -1)
        end
  end.

(** *** Retrieval *)

(** The optional filters of [get_search_history]. *)
Record filters := mkFilters {
  brand_filter : option string;
  model_filter : option string;
  date_from : option datetime;
  date_to : option datetime;
  session_filter : option string
}.

Definition no_filters : filters := mkFilters None None None None None.

(** [column LIKE '%' || needle || '%'], false on NULL. *)
Definition like_column (needle : string) (column : option string) : bool :=
  match column with
  | Some text => like (contains_pattern needle) text
  | None => false
  end.

(** One optional text filter: skipped when it is [None] or empty. *)
Definition text_filter (f : option string) (test : string → bool) : bool :=
  match f with
  | Some needle => if PyStr.truthy needle then test needle else true
  | None => true
  end.

(** The WHERE clause built by [get_search_history]. *)
Definition where_clause (f : filters) (r : history_row) : bool :=
  text_filter (brand_filter f) (fun b => like_column b (product_brand r))
  && text_filter (model_filter f) (fun m => like_column m (product_model r))
  && match date_from f with
     | Some t => PyStr.leb (strftime_sql t) (timestamp r)
     | None => true
     end
  && match date_to f with
     | Some t => PyStr.leb (timestamp r) (strftime_sql t)
     | None => true
     end
  && text_filter (session_filter f)
       (fun s => match session_id r with
                 | Some s' => String.eqb s' s
                 | None => false
                 end).

(** [ORDER BY timestamp DESC]: rows of equal time stamp stay in table
    order (SQLite leaves their order open). *)
Fixpoint insert_desc (r : history_row) (l : list history_row) : list history_row :=
  match l with
  | [] => [r]
  | x :: l' => if PyStr.ltb (timestamp r) (timestamp x) then x :: insert_desc r l'
               else r :: l
  end.

Definition order_by_timestamp_desc (l : list history_row) : list history_row :=
  foldr insert_desc [] l.

(** [LIMIT ? OFFSET ?]: a negative limit is no limit, a negative offset is
    zero. *)
Definition limit_offset (limit offset : Z) (l : list history_row) : list history_row :=
  let l' := skipn (Z.to_nat offset) l in
  if limit <? 0 then l' else firstn (Z.to_nat limit) l'.

(** [json.loads(cell or '[]')] inside [try ... except: []] *)
Definition parse_json_field (cell : option string) : json :=
  let text := match cell with
              | Some t => if PyStr.truthy t then t else "[]"
              | None => "[]"
              end in
  match json_loads text with
  | Some v => v
  | None => JArr []
  end.

(** A record as [get_search_history] returns it: the row with its three
    JSON columns decoded. *)
Record history_record := mkRecord {
  r_row : history_row;
  r_price_details : json;
  r_vendors : json;
  r_verified_urls : json
}.

Definition to_record (r : history_row) : history_record :=
  mkRecord r (parse_json_field (price_details r)) (parse_json_field (vendors r))
           (parse_json_field (verified_urls r)).

(** The rows selected by the query of [get_search_history]. *)
Definition select_history (st : store) (limit offset : Z) (f : filters) : list history_row :=
  limit_offset limit offset (order_by_timestamp_desc (filter (fun r => where_clause f r = true) (rows st))).

(** [SearchHistoryManager.get_search_history] *)
Definition get_search_history (st : store) (limit offset : Z) (f : filters)
    : list history_record :=
  map to_record (select_history st limit offset f).

(** *** Export *)

(** [p['value']], [None] when it raises ([KeyError] on a dictionary
    without the key, [TypeError] on anything that is not a dictionary). *)
Definition price_value (p : json) : option json :=
  match p with
  | JObj members => dict_item members "value"
  | _ => None
  end.

(** [[p['value'] for p in price_details]] *)
Fixpoint price_values (items : list json) : option (list json) :=
  match items with
  | [] => Some []
  | p :: rest =>
      match price_value p, price_values rest with
      | Some v, Some vs => Some (v :: vs)
      | _, _ => None
      end
  end.

Fixpoint all_numbers (vs : list json) : option (list pynum) :=
  match vs with
  | [] => Some []
  | v :: rest =>
      match num_of_json v, all_numbers rest with
      | Some n, Some ns => Some (n :: ns)
      | _, _ => None
      end
  end.

(** [SearchHistoryManager._format_price_range]; [None] when it raises.
    Iterating anything but a list yields no dictionaries, and formatting or
    comparing values that are not numbers raises. *)
Definition _format_price_range (price_details : json) : option string :=
  if negb (truthy price_details) then Some "No prices"%string
  else
    match price_details with
    | JArr items =>
        match price_values items with
        | None => None
        | Some prices =>
            match all_numbers prices with
            | None => None
            | Some [] => None
            | Some [p] => Some (String "$" (format_2f p))
            | Some (p :: ps) =>
                Some (String "$" (String.append (format_2f (py_min p ps))
                        (String.append " - $" (format_2f (py_max p ps)))))
            end
        end
    | _ => None
    end.

(** [', '.join(v)], [None] when it raises. *)
Fixpoint all_strings (vs : list json) : option (list string) :=
  match vs with
  | [] => Some []
  | JStr s :: rest =>
      match all_strings rest with
      | Some ss => Some (s :: ss)
      | None => None
      end
  | _ :: _ => None
  end.

Definition join_comma (v : json) : option string :=
  match v with
  | JArr items =>
      match all_strings items with
      | Some ss => Some (join ", " ss)
      | None => None
      end
  | JStr s => Some (join ", " (map (fun c => String c EmptyString) (list_ascii_of_string s)))
  | JObj members => Some (join ", " (map fst members))
  | _ => None
  end.

Definition or_empty (cell : option string) : string :=
  match cell with
  | Some t => t
  | None => EmptyString
  end.

(** A line of the exported table. *)
Record csv_row := mkCsv {
  c_record_id : Z;
  c_timestamp : string;
  c_user_query : string;
  c_product_brand : string;
  c_product_model : string;
  c_price_count : nat;
  c_price_range : string;
  c_vendors : string;
  c_url_count : nat;
  c_source : option string;
  c_notes : string
}.

Definition to_csv_row (r : history_record) : option csv_row :=
  match py_len (r_price_details r), _format_price_range (r_price_details r),
        join_comma (r_vendors r), py_len (r_verified_urls r) with
  | Some price_count, Some price_range, Some vendor_text, Some url_count =>
      Some (mkCsv (record_id (r_row r)) (timestamp (r_row r)) (user_query (r_row r))
                  (or_empty (product_brand (r_row r))) (or_empty (product_model (r_row r)))
                  price_count price_range vendor_text url_count
                  (source (r_row r)) (or_empty (notes (r_row r))))
  | _, _, _, _ => None
  end.

Fixpoint to_csv_rows (rs : list history_record) : option (list csv_row) :=
  match rs with
  | [] => Some []
  | r :: rest =>
      match to_csv_row r, to_csv_rows rest with
      | Some c, Some cs => Some (c :: cs)
      | _, _ => None
      end
  end.

(** What [export_to_csv] does: it writes the table and returns the file
    name, or it returns [None], either because no record matches or
    because building a line raised. *)
Inductive export_result :=
| Exported (table : list csv_row)
| NothingToExport
| ExportFailed.

(** [SearchHistoryManager.export_to_csv] *)
Definition export_to_csv (st : store) (f : filters) : export_result :=
  match get_search_history st 10000 0 f with
  | [] => NothingToExport
  | history =>
      match to_csv_rows history with
      | Some table => Exported table
      | None => ExportFailed
      end
  end.

(** *** Retention *)

(** [SearchHistoryManager.clear_history]; [now] is the reading of
    [datetime.now()].  Subtracting the days raises [OverflowError] when the
    date leaves the years 1 to 9999. *)
Definition clear_history (now : datetime) (st : store) (days_to_keep : option Z)
    : store * bool :=
  match days_to_keep with
  | Some n =>
      let cutoff := sub_days now n in
      if (1 <=? year cutoff) && (year cutoff <=? 9999) then
        let cutoff_date := strftime_sql cutoff in
        (mkStore (filter (fun r => PyStr.ltb (timestamp r) cutoff_date = false) (rows st))
                 (last_record_id st),
         true)
      else (st, false)
  | None => (mkStore [] (last_record_id st), true)
  end.

End History.

(** ** Statements and scenarios for the session store *)
Module SessionClaims.
Import PyStr PyTime Sessions.
Local Open Scope string_scope.

(** The transcript view of a session: what [load_session_messages] shows
    of each row, without the row identifier and the time stamp. *)
Definition transcript (d : db) (sid : string) : list (Z * string * string) :=
  map (fun m => (message_index m, role m, content m)) (load_session_messages d sid).

(** Claim C3 as stated: saving at an index leaves exactly one message at
    that index, carrying the new content, and saving the same message again
    changes nothing in the transcript. *)
Definition save_is_upsert (now : datetime) (d : db) (sid rl ct : string) (idx : Z) : Prop :=
  let d' := save_message now d sid rl ct idx in
  (∃ m, rows_at d' sid idx = [m] ∧ content m = ct) ∧
  transcript (save_message now d' sid rl ct idx) sid = transcript d' sid.

(** The counter of every stored session other than [sid] is right: the
    state between the DELETE of a rewrite and its first [save_message]. *)
Definition consistent_except (sid : string) (d : db) : Prop :=
  ∀ sid' s, sid' ≠ sid → chat_sessions d !! sid' = Some s →
            message_count s = count_messages (chat_messages d) sid'.

(** The stages of title generation, each as the source writes it. *)
Definition truncate_title (s : string) : string :=
  if (50 <? String.length s)%nat then String.append (take 47 s) "..." else s.

(** One lead-in phrase is stripped: the first phrase of the list that the
    text starts with, up to case; the rest is trimmed again. *)
Definition strip_lead_in (s : string) : string :=
  match List.find (fun phrase => startswith (lower s) phrase) prefixes_to_remove with
  | Some phrase => strip (drop (String.length phrase) s)
  | None => s
  end.

Definition capitalize_first (s : string) : string :=
  match s with
  | EmptyString => EmptyString
  | String c rest => String (upper_char c) rest
  end.

Definition or_default (now : datetime) (s : string) : string :=
  if truthy s then s else String.append "Chat - " (strftime_hm now).

(** Claim C7 as stated: trim, strip the lead-in, truncate, capitalize. *)
Definition title_in_claimed_order (now : datetime) (first_message : string) : string :=
  if negb (truthy first_message)
  then String.append "Chat Session - " (strftime_minute now)
  else or_default now
         (capitalize_first (truncate_title (strip_lead_in (strip first_message)))).

(** The order of the source: trim, truncate, strip the lead-in, capitalize. *)
Definition title_in_source_order (now : datetime) (first_message : string) : string :=
  if negb (truthy first_message)
  then String.append "Chat Session - " (strftime_minute now)
  else or_default now
         (capitalize_first (strip_lead_in (truncate_title (strip first_message)))).

(** A clock reading and a small database: user Fady owns session s1, which
    holds the message Hello at index 0. *)
Definition noon : datetime := mkDatetime 2024 3 15 12 0 0 0.

Definition fady_db : db :=
  save_message noon (fst (create_new_session noon "s1" "s2" empty_db "Fady" EmptyString))
               "s1" "user" "Hello" 0.

(** The UI state while s1 is the current session. *)
Definition fady_ui : session_state :=
  mkState (Some "s1") [mkUi "user" "Hello"] false.

Definition long_question : string :=
  "please tell me about the Keithley DMM6500 multimeter".

End SessionClaims.

(** ** Statements and scenarios for the history log *)
Module HistoryClaims.
Import PyStr PyTime Json JsonOut History.
Local Open Scope string_scope.
Local Open Scope list_scope.
Local Open Scope Z_scope.

(** The row [log_search] stores when nothing was extracted. *)
Definition empty_fields_row (id : Z) (now_utc : datetime) (user_query sid : string)
    : history_row :=
  mkRow id (strftime_sql now_utc) user_query (Some EmptyString) (Some EmptyString)
        (Some "[]") (Some "[]") (Some "[]") (Some "database") (Some EmptyString) (Some sid).

(** The number of opening brackets and braces of a text; the arrays and
    objects of the text are nested no deeper. *)
Fixpoint openers (s : string) : nat :=
  match s with
  | EmptyString => O
  | String c rest =>
      if Ascii.eqb c "[" || Ascii.eqb c "{" then S (openers rest) else openers rest
  end.

(** [json.loads] decodes nested arrays and objects by recursion.  On text
    nested deeper than the interpreter's recursion limit allows (1000
    frames by default) it raises [RecursionError], which is not a
    [ValueError] and which [Json.json_loads] does not model.  A text with
    at most 100 openers stays well within the limit. *)
Definition shallow (text : string) : Prop := (openers text <= 100)%nat.

(** Python refuses to convert an integer literal of more than 4300 digits
    (a [ValueError], after which the insights are empty), where
    [Json.json_loads] reads the number.  A text of at most 4000 characters
    has no such literal. *)
Definition short (text : string) : Prop := (String.length text <= 4000)%nat.

(** The arguments of the first tool call of the chain's answer, when
    there are any, are shallow and short: [Json.json_loads] is then what
    [json.loads] does. *)
Definition shallow_answer (res : chain_result) : Prop :=
  match res with
  | ChainReturns (Call arguments :: _) => shallow arguments ∧ short arguments
  | _ => True
  end.

(** A value that [sqlite3] binds to a parameter: [None], a [bool], a
    number (an integer within 64 bits) or ASCII text.  Lists and dicts are
    refused, and so is a [str] with a lone surrogate, which [json.loads]
    reads from an escape and which has no UTF-8 encoding. *)
Definition binds (v : json) : Prop :=
  match v with
  | JStr s => ascii_text s = true
  | _ => is_Some (bind_text v)
  end.

(** The chain returned, but gave no tool call or one whose arguments
    cannot be read: the entry has no arguments, or they are text that
    [json.loads] rejects with a [JSONDecodeError]. *)
Definition unparsable (tool_calls : list tool_call) : Prop :=
  match tool_calls with
  | [] => True
  | BrokenCall :: _ => True
  | Call arguments :: _ => shallow arguments ∧ json_loads arguments = None
  end.

(** The adapter failed: it raised, or its output is unparsable. *)
Definition adapter_failed (chain : chain_fn) (query response : string) : Prop :=
  chain query response = ChainRaises ∨
  ∃ tool_calls, chain query response = ChainReturns tool_calls ∧ unparsable tool_calls.

(** Claim C2 as stated, at one call with a working storage: a failed
    adapter still gives a stored row with empty fields and a positive
    identifier. *)
Definition logs_despite_failure (chain : chain_fn) (now_utc : datetime) (st : store)
    (user_query agent_response sid src nts : string) : Prop :=
  adapter_failed chain user_query agent_response →
  let '(st', id) := log_search chain true now_utc st user_query agent_response sid src nts in
  0 < id ∧ rows st' = rows st ++ [empty_fields_row id now_utc user_query sid].

(** The number of verified URLs extracted: the length of the list. *)
Definition url_count (urls : json) : nat :=
  match urls with
  | JArr items => length items
  | _ => 0%nat
  end.

(** The field [verified_urls] has its declared type
    [Optional[List[str]]]: a list, or [None]. *)
Definition urls_well_typed (urls : json) : Prop :=
  match urls with
  | JArr _ | JNull => True
  | _ => False
  end.

(** Case-insensitive substring: [needle] occurs in [text] up to the case
    of ASCII letters. *)
Definition ci_contains (needle text : string) : Prop :=
  ∃ before middle after,
    text = String.append before (String.append middle after) ∧ lower middle = lower needle.

(** The needle has none of the two characters LIKE reads as wild cards. *)
Fixpoint no_wildcards (needle : string) : bool :=
  match needle with
  | EmptyString => true
  | String c rest => negb (Ascii.eqb c "%") && negb (Ascii.eqb c "_") && no_wildcards rest
  end.

(** Claim C6 as stated, for the brand filter: every record returned has
    the filter as a case-insensitive substring of its brand. *)
Definition brand_filter_is_substring (st : store) (limit offset : Z) (needle : string) : Prop :=
  ∀ r, r ∈ get_search_history st limit offset
             (mkFilters (Some needle) None None None None) →
       ∃ brand, product_brand (r_row r) = Some brand ∧ ci_contains needle brand.

(** A row passes an optional text filter: a filter that is given and not
    empty finds its LIKE pattern in the column, which is then not NULL. *)
Definition passes_text (flt : option string) (column : option string) : Prop :=
  ∀ needle, flt = Some needle → needle ≠ EmptyString →
            ∃ text, column = Some text ∧ like (contains_pattern needle) text = true.

(** A row passes all the filters that are given. *)
Definition passes (f : filters) (r : history_row) : Prop :=
  passes_text (brand_filter f) (product_brand r) ∧
  passes_text (model_filter f) (product_model r) ∧
  (∀ t, date_from f = Some t → PyStr.leb (strftime_sql t) (timestamp r) = true) ∧
  (∀ t, date_to f = Some t → PyStr.leb (timestamp r) (strftime_sql t) = true) ∧
  (∀ s, session_filter f = Some s → s ≠ EmptyString → session_id r = Some s).

(** Whether a character occurs in a text. *)
Fixpoint occurs (c : ascii) (s : string) : bool :=
  match s with
  | EmptyString => false
  | String d rest => Ascii.eqb c d || occurs c rest
  end.

(** Newest first: each row is at least as recent as the next. *)
Definition not_older (a b : history_row) : Prop :=
  PyStr.leb (timestamp b) (timestamp a) = true.

(** The calendar order of two date-times, to the second. *)
Definition earlier (a b : datetime) : Prop :=
  year a < year b ∨ (year a = year b ∧
  (month a < month b ∨ (month a = month b ∧
  (day a < day b ∨ (day a = day b ∧
  (hour a < hour b ∨ (hour a = hour b ∧
  (minute a < minute b ∨ (minute a = minute b ∧ second a < second b))))))))).

(** The fields of a date-time are in the ranges that [strftime] prints
    with a fixed width: a year of four digits, the other fields of at most
    two. *)
Definition printable (t : datetime) : Prop :=
  1000 <= year t < 10000 ∧ 0 <= month t < 100 ∧ 0 <= day t < 100 ∧
  0 <= hour t < 100 ∧ 0 <= minute t < 100 ∧ 0 <= second t < 100.

(** The dates of the filters, when they are given, have years of four
    digits. *)
Definition filter_dates_printable (f : filters) : Prop :=
  (∀ t, date_from f = Some t → four_digit_year t) ∧
  (∀ t, date_to f = Some t → four_digit_year t).

(** Writes a JSON text with an apostrophe for each double quote. *)
Fixpoint dq (s : string) : string :=
  match s with
  | EmptyString => EmptyString
  | String c rest => String (if Ascii.eqb c "'" then "034"%char else c) (dq rest)
  end.

(** Clock readings. *)
Definition utc_noon : datetime := mkDatetime 2024 3 15 12 0 0 0.

(** A chain that raises (a timeout, a network error). *)
Definition chain_down : chain_fn := fun _ _ => ChainRaises.

(** A chain whose tool call carries the given arguments. *)
Definition chain_says (arguments : string) : chain_fn :=
  fun _ _ => ChainReturns [Call arguments].

(** An extraction that follows the declared schema: the prices are a list
    of strings. *)
Definition keithley_arguments : string :=
  dq "{'product_brand': 'Keithley', 'product_model': 'DMM6500', 'price_details': ['$1,299.00'], 'verified_urls': ['https://www.tek.com/dmm6500'], 'notes': 'one offer', 'vendors': ['Tektronix']}".

(** An extraction that found no price and says so with [null], which the
    declared type [Optional[List[str]]] allows. *)
Definition null_prices_arguments : string :=
  dq "{'product_brand': 'Keithley', 'product_model': 'DMM6500', 'price_details': null, 'verified_urls': [], 'notes': 'no price found', 'vendors': []}".

Definition log_one (arguments : string) : store :=
  fst (log_search (chain_says arguments) true utc_noon empty_store
                  "current price of DMM6500" "The DMM6500 is listed." "s1" "both" EmptyString).

(** A table with one row whose brand is Agilent. *)
Definition agilent_store : store :=
  log_one (dq "{'product_brand': 'Agilent', 'product_model': '34401A'}").

(** The retention scenario: now is 2024-03-15 12:00:00; one record is ten
    days old, one is one day old. *)
Definition aged_row (id : Z) (age_days : Z) : history_row :=
  mkRow id (strftime_sql (sub_days utc_noon age_days)) "q" (Some EmptyString)
        (Some EmptyString) (Some "[]") (Some "[]") (Some "[]") (Some "database")
        (Some EmptyString) (Some "s1").

Definition aged_store : store := mkStore [aged_row 1 10; aged_row 2 1] 2.

End HistoryClaims.

(** ** Listing, statistics and the UI's loading of sessions
    ([session_manager.py], [session_ui.py]) *)
Module SessionQueries.
Import PyStr PyTime Sessions.

(** A row of [chat_sessions] with its key. *)
Definition keyed_session : Type := string * session_row.

(** [WHERE user_login = ? AND is_active = 1] *)
Definition owned_active (login : string) (ks : keyed_session) : Prop :=
  user_login ks.2 = login ∧ is_active ks.2 = true.

#[global] Instance owned_active_dec login ks : Decision (owned_active login ks).
Proof. unfold owned_active. apply _. Defined.

(** The active sessions of a user, in the order the table is read. *)
Definition active_sessions_of (d : db) (login : string) : list keyed_session :=
  filter (owned_active login) (map_to_list (chat_sessions d)).

(** [ORDER BY last_updated DESC]: sessions of equal [last_updated] stay in
    the order read (SQLite leaves their order open). *)
Fixpoint insert_session_desc (ks : keyed_session) (l : list keyed_session)
    : list keyed_session :=
  match l with
  | [] => [ks]
  | x :: l' => if PyStr.ltb (last_updated ks.2) (last_updated x.2)
               then x :: insert_session_desc ks l'
               else ks :: l
  end.

Definition order_by_last_updated_desc (l : list keyed_session) : list keyed_session :=
  foldr insert_session_desc [] l.

(** [LIMIT ?]: a negative limit is no limit. *)
Definition limit_rows {A} (limit : Z) (l : list A) : list A :=
  if limit <? 0 then l else firstn (Z.to_nat limit) l.

(** [SessionManager.get_user_sessions] *)
Definition get_user_sessions (d : db) (login : string) (limit : Z) : list keyed_session :=
  limit_rows limit (order_by_last_updated_desc (active_sessions_of d login)).

(** The dictionary [get_session_statistics] returns. *)
Record session_statistics := mkSessionStats {
  total_sessions : Z;
  total_messages : Z;
  recent_sessions : Z
}.

(** The join of [chat_messages] with the active sessions of a user:
    [cm.session_id = cs.session_id AND cs.user_login = ? AND cs.is_active = 1]. *)
Definition joins_active (d : db) (login : string) (m : message_row) : Prop :=
  match chat_sessions d !! msg_session_id m with
  | Some s => user_login s = login ∧ is_active s = true
  | None => False
  end.

#[global] Instance joins_active_dec d login m : Decision (joins_active d login m).
Proof. unfold joins_active. destruct (chat_sessions d !! msg_session_id m); apply _. Defined.

(** [SessionManager.get_session_statistics]; [None] stands for the empty
    dictionary returned when going back seven days raises. *)
Definition get_session_statistics (now : datetime) (d : db) (login : string)
    : option session_statistics :=
  let total := Z.of_nat (length (active_sessions_of d login)) in
  let msgs := Z.of_nat (length (filter (joins_active d login) (chat_messages d))) in
  let since := sub_days now 7 in
  if (1 <=? year since) && (year since <=? 9999) then
    let seven_days_ago := isoformat since in
    let recent :=
      Z.of_nat (length (filter (fun ks => PyStr.leb seven_days_ago (last_updated ks.2) = true)
                               (active_sessions_of d login))) in
    Some (mkSessionStats total msgs recent)
  else None.

(** The sum of a list of integers. *)
Definition sumZ (l : list Z) : Z := foldr Z.add 0 l.

(** [{"role": msg["role"], "content": msg["content"]}] *)
Definition to_ui (m : message_row) : ui_message := mkUi (role m) (content m).

(** [session_ui.load_session] *)
Definition load_session (now : datetime) (d : db) (ss : session_state) (sid : string)
    : db * session_state :=
  let '(d1, _) := save_current_session_if_needed now d ss in
  (d1, mkState (Some sid) (map to_ui (load_session_messages d1 sid)) false).

(** [session_ui.initialize_session_for_user]: [uuid_a] and [uuid_b] are the
    identifiers [create_new_session] may draw. *)
Definition initialize_session_for_user (now : datetime) (uuid_a uuid_b : string)
    (d : db) (ss : session_state) (login : string) : db * session_state :=
  match current_session_id ss with
  | Some _ => (d, ss)
  | None =>
      match get_user_sessions d login 1 with
      | most_recent :: _ =>
          (d, mkState (Some most_recent.1)
                      (map to_ui (load_session_messages d most_recent.1)) false)
      | [] =>
          let '(d', sid) := create_new_session now uuid_a uuid_b d login EmptyString in
          (d', mkState (Some sid) [] true)
      end
  end.

(** The transcript the rewrite of a session stores: the messages of the UI
    numbered from [i]. *)
Fixpoint numbered (i : Z) (msgs : list ui_message) : list (Z * string * string) :=
  match msgs with
  | [] => []
  | m :: rest => (i, ui_role m, ui_content m) :: numbered (i + 1) rest
  end.

(** The view of a message row that [SessionClaims.transcript] keeps. *)
Definition row_view (m : message_row) : Z * string * string :=
  (message_index m, role m, content m).

(** Ascending by index. *)
Definition index_le (a b : message_row) : Prop := message_index a <= message_index b.

(** Newest first, by the text of [last_updated]. *)
Definition updated_not_before (a b : keyed_session) : Prop :=
  PyStr.leb (last_updated b.2) (last_updated a.2) = true.

End SessionQueries.
(** ** The chat handlers of the application ([app.py], [session_ui.py]) *)
Module AppHandlers.
Import PyStr PyTime Sessions SessionQueries.
Local Open Scope string_scope.
Local Open Scope list_scope.
Local Open Scope Z_scope.

(** [st.session_state.get('current_session_id')] when it is truthy. *)
Definition current_session (ss : session_state) : option string :=
  match current_session_id ss with
  | Some sid => if truthy sid then Some sid else None
  | None => None
  end.

(** The block [if prompt:] of [app.py], one turn of the chat.  [reply] is
    the text that ends up in [full_response_content] (the answer of the
    agent, or the apology when the agent raised); it is [None] when the
    script stops before the reply because the agent is not initialised.
    The clock is read by each call of the session manager. *)
Definition chat_turn (t_user t_reply t_title : datetime) (d : db) (ss : session_state)
    (prompt : string) (reply : option string) : db * session_state :=
  if negb (truthy prompt) then (d, ss)
  else
    let msgs1 := messages ss ++ [mkUi "user" prompt] in
    let d1 := match current_session ss with
              | Some sid =>
                  save_message t_user d sid "user" prompt (Z.of_nat (length msgs1) - 1)
              | None => d
              end in
    match reply with
    | None => (d1, mkState (current_session_id ss) msgs1 (session_needs_title ss))
    | Some text =>
        let msgs2 := msgs1 ++ [mkUi "assistant" text] in
        match current_session ss with
        | None => (d1, mkState (current_session_id ss) msgs2 (session_needs_title ss))
        | Some sid =>
            let d2 := save_message t_reply d1 sid "assistant" text
                                   (Z.of_nat (length msgs2) - 1) in
            if session_needs_title ss
            then (update_session_title t_title d2 sid (generate_session_title t_title prompt),
                  mkState (current_session_id ss) msgs2 false)
            else (d2, mkState (current_session_id ss) msgs2 (session_needs_title ss))
        end
    end.

(** [session_ui.create_new_session], the button New Session: what is
    pending is saved, a session is created and becomes the current one. *)
Definition ui_create_new_session (t_save t_create : datetime) (uuid_a uuid_b : string)
    (d : db) (ss : session_state) (login : string) : db * session_state :=
  let '(d1, _) := save_current_session_if_needed t_save d ss in
  let '(d2, sid) := create_new_session t_create uuid_a uuid_b d1 login EmptyString in
  (d2, mkState (Some sid) [] true).

(** [app.enhanced_reset_chat_history], the button Clear Current Chat: the
    session is rewritten, the transcript of the UI is emptied, and a new
    session is created. *)
Definition enhanced_reset_chat_history (t_save t_create : datetime) (uuid_a uuid_b : string)
    (d : db) (ss : session_state) (login : string) : db * session_state :=
  let '(d1, ss1) := save_current_session t_save d ss in
  let ss2 := mkState (current_session_id ss1) [] (session_needs_title ss1) in
  ui_create_new_session t_save t_create uuid_a uuid_b d1 ss2 login.

(** The database and the UI show the same transcript of the current
    session. *)
Definition in_step (d : db) (ss : session_state) (sid : string) : Prop :=
  current_session_id ss = Some sid ∧ sid ≠ EmptyString ∧
  (row_view <$> load_session_messages d sid) = numbered 0 (messages ss).

End AppHandlers.

(** ** Statistics, paging and sequences of calls of the history log
    ([search_history.py], [search_history_ui.py]) *)
Module HistoryQueries.
Import PyStr PyTime Json JsonOut History.
Local Open Scope string_scope.
Local Open Scope list_scope.
Local Open Scope Z_scope.

(** The dictionary that [get_statistics] returns. *)
Record history_statistics := mkHistoryStats {
  total_searches : Z;
  unique_brands : Z;
  searches_with_prices : Z;
  recent_searches : Z
}.

(** [SELECT product_brand ... WHERE product_brand IS NOT NULL] *)
Definition brands (l : list history_row) : list string := omap product_brand l.

(** [price_details != '[]' AND price_details IS NOT NULL] *)
Definition has_prices (r : history_row) : bool :=
  match price_details r with
  | Some text => negb (String.eqb text "[]")
  | None => false
  end.

(** [SearchHistoryManager.get_statistics]; [None] stands for the empty
    dictionary returned when subtracting the seven days raises. *)
Definition get_statistics (now : datetime) (st : store) : option history_statistics :=
  let cutoff := sub_days now 7 in
  if (1 <=? year cutoff) && (year cutoff <=? 9999) then
    let seven_days_ago := strftime_sql cutoff in
    Some (mkHistoryStats
            (Z.of_nat (length (rows st)))
            (Z.of_nat (length (remove_dups (brands (rows st)))))
            (Z.of_nat (length (filter (fun r => has_prices r = true) (rows st))))
            (Z.of_nat (length (filter (fun r => PyStr.leb seven_days_ago (timestamp r) = true)
                                      (rows st)))))
  else None.

(** The page of [render_search_history_main]: [records_per_page] records
    from the offset [history_page * records_per_page]. *)
Definition history_page (st : store) (records_per_page page : Z) (f : filters)
    : list history_record :=
  get_search_history st records_per_page (page * records_per_page) f.

(** The button Next of the page is disabled. *)
Definition next_disabled (st : store) (records_per_page page : Z) (f : filters) : bool :=
  (Z.of_nat (length (history_page st records_per_page page f)) <? records_per_page).

(** A call of one of the two operations that write the table. *)
Inductive history_call :=
| LogSearch (chain : chain_fn) (storage_ok : bool) (now_utc : datetime)
            (user_query agent_response session_id source notes : string)
| ClearHistory (now : datetime) (days_to_keep : option Z).

Definition run_history_call (st : store) (c : history_call) : store :=
  match c with
  | LogSearch chain ok now_utc q r sid src nts =>
      fst (log_search chain ok now_utc st q r sid src nts)
  | ClearHistory now days => fst (clear_history now st days)
  end.

Definition run_history_calls (st : store) (cs : list history_call) : store :=
  foldl run_history_call st cs.

(** The identifiers of the table are positive, ascend in table order and
    stay at or below the AUTOINCREMENT counter. *)
Definition well_numbered (st : store) : Prop :=
  0 <= last_record_id st ∧
  Forall (fun r => 0 < record_id r <= last_record_id st) (rows st) ∧
  Sorted Z.lt (record_id <$> rows st).

(** The filters with a lower bound of the time stamp. *)
Definition since (t : datetime) (f : filters) : filters :=
  mkFilters (brand_filter f) (model_filter f) (Some t) (date_to f) (session_filter f).

(** The header line of the exported table is fixed; a line of the table
    belongs to a record when it carries its identifier, time stamp and
    query. *)
Definition line_of (c : csv_row) (r : history_record) : Prop :=
  c_record_id c = record_id (r_row r) ∧ c_timestamp c = timestamp (r_row r) ∧
  c_user_query c = user_query (r_row r) ∧ to_csv_row r = Some c.

(** Text of ASCII characters only. *)
Fixpoint is_ascii (s : string) : bool :=
  match s with
  | EmptyString => true
  | String c rest => (N_of_ascii c <? 128)%N && is_ascii rest
  end.

(** A Python list of strings, the declared type of the three list fields
    of [DataInsights]. *)
Definition string_list (ss : list string) : json := JArr (JStr <$> ss).

(** The unit that the escape of an ASCII character is read back as. *)
Definition unit_of (c : ascii) : str_unit :=
  match scan_units (String.append (escape_body (String c EmptyString)) quote) with
  | Some ([u], _) => u
  | _ => Raw c
  end.

(** The text between the brackets of a dumped list of strings. *)
Definition items_text (ss : list string) : string := join ", " (dump_string <$> ss).

(** An entry of a price list that [_format_price_range] can read: a
    dictionary whose [value] is the integer [z].  Python formats an [int]
    through a [float], which is exact up to 2 ^ 53. *)
Definition is_price (item : json) (z : Z) : Prop :=
  price_value item = Some (JInt z) ∧ Z.abs z <= 2 ^ 53.

(** [f"{z:,.2f}"] for an integer. *)
Definition money (z : Z) : string := format_2f (Fin (mkDecimal z 0)).

End HistoryQueries.

(** ** The connection string of the price database
    ([database_connection.py]) *)
Module DbConnection.
Import PyStr.
Local Open Scope string_scope.
Local Open Scope list_scope.

(** [needle in s] on strings *)
Fixpoint py_in (needle s : string) : bool :=
  startswith s needle ||
  match s with
  | EmptyString => false
  | String _ rest => py_in needle rest
  end.

(** [get_available_drivers]; [installed] is what [pyodbc.drivers()]
    returns, [None] when it raises. *)
Definition get_available_drivers (installed : option (list string)) : list string :=
  match installed with
  | Some drivers => filter (fun driver => py_in "SQL Server" driver = true) drivers
  | None => []
  end.

Definition preferred_drivers : list string :=
  ["ODBC Driver 18 for SQL Server"; "ODBC Driver 17 for SQL Server";
   "ODBC Driver 13 for SQL Server"; "SQL Server Native Client 11.0"; "SQL Server"].

(** The loop [for preferred in preferred_drivers] with its [break]. *)
Fixpoint first_preferred (preferred available : list string) : option string :=
  match preferred with
  | [] => None
  | p :: rest => if bool_decide (p ∈ available) then Some p
                 else first_preferred rest available
  end.

(** [os.getenv(name, default)] *)
Definition getenv (env : gmap string string) (name default : string) : string :=
  match env !! name with
  | Some v => v
  | None => default
  end.

(** The outcome of [create_connection_string]: the string, or one of its
    two exceptions. *)
Inductive connection_result :=
| ConnectionString (odbc_str : string)
| NoDriverFound
| NoCredentials.

(** [create_connection_string] *)
Definition create_connection_string (installed : option (list string))
    (env : gmap string string) : connection_result :=
  let available_drivers := get_available_drivers installed in
  match available_drivers with
  | [] => NoDriverFound
  | first_available :: _ =>
      let driver_to_use :=
        match first_preferred preferred_drivers available_drivers with
        | Some d => if truthy d then d else first_available
        | None => first_available
        end in
      let server := getenv env "DB_SERVER" "sirius1.ms-strategies.com" in
      let port := getenv env "DB_PORT" "4123" in
      let database := getenv env "DB_DATABASE" "pricetrack" in
      let uid := env !! "DB_USER" in
      let pwd := env !! "DB_PASSWORD" in
      let encrypt := getenv env "SQL_ENCRYPT" "yes" in
      let trust_cert := getenv env "SQL_TRUST_CERT" "yes" in
      let timeout := getenv env "DB_CONN_TIMEOUT" "15" in
      match uid, pwd with
      | Some uid, Some pwd =>
          if negb (truthy uid) || negb (truthy pwd) then NoCredentials
          else
            let server_part := if truthy port then server +:+ "," +:+ port else server in
            ConnectionString
              ("DRIVER={" +:+ driver_to_use +:+ "};" +:+
               "SERVER=" +:+ server_part +:+ ";" +:+
               "DATABASE=" +:+ database +:+ ";" +:+
               "UID=" +:+ uid +:+ ";" +:+
               "PWD=" +:+ pwd +:+ ";" +:+
               "TrustServerCertificate=" +:+ trust_cert +:+ ";" +:+
               "Connection Timeout=" +:+ timeout +:+ ";" +:+
               "Encrypt=" +:+ encrypt +:+ ";")
      | _, _ => NoCredentials
      end
  end.

(** The credentials are set and not empty. *)
Definition has_credentials (env : gmap string string) : Prop :=
  ∃ uid pwd, env !! "DB_USER" = Some uid ∧ env !! "DB_PASSWORD" = Some pwd ∧
             uid ≠ EmptyString ∧ pwd ≠ EmptyString.

(** No driver that the preference list names before [d] is available. *)
Definition preferred_choice (available : list string) (d : string) : Prop :=
  (∃ before after, preferred_drivers = before ++ d :: after ∧
                   ∀ p, p ∈ before → p ∉ available) ∨
  ((∀ p, p ∈ preferred_drivers → p ∉ available) ∧ head available = Some d).

End DbConnection.

(** ** The query that the SQL tool sends to the database ([tools.py]) *)
Module SqlTool.
Import PyStr.
Local Open Scope string_scope.
Local Open Scope list_scope.

(** The regular expressions of [execute_sql_query] are matched by hand;
    they are read on ASCII text, as the rest of the embedding.  [\w] is a
    letter, a digit or the underscore, [\s] a character of
    [PyStr.is_space], and [(?i)] compares letters without regard to
    case. *)
Definition is_word (c : ascii) : bool :=
  is_upper c || is_lower c || Json.is_digit c || Ascii.eqb c "_".

(** The text after [word] at the head of [s], compared without regard to
    case; [None] when [s] does not start with it. *)
Fixpoint starts_ci (word s : string) : option string :=
  match word, s with
  | EmptyString, _ => Some s
  | String _ _, EmptyString => None
  | String a word', String b s' =>
      if Ascii.eqb (lower_char a) (lower_char b) then starts_ci word' s' else None
  end.

(** [\s+] at the head of [s]: the text after the run of white space. *)
Definition spaces1 (s : string) : option string :=
  match s with
  | String c rest => if is_space c then Some (lstrip rest) else None
  | EmptyString => None
  end.

(** [re.match(r"(?i)^SELECT\s+<word>", s)] *)
Definition select_then (word s : string) : bool :=
  match starts_ci "SELECT" s with
  | Some rest =>
      match spaces1 rest with
      | Some rest' => match starts_ci word rest' with Some _ => true | None => false end
      | None => false
      end
  | None => false
  end.

(** [re.sub(r"(?i)^SELECT\s+", "SELECT DISTINCT ", s)] *)
Definition sub_select (s : string) : string :=
  match starts_ci "SELECT" s with
  | Some rest =>
      match spaces1 rest with
      | Some rest' => "SELECT DISTINCT " +:+ rest'
      | None => s
      end
  | None => s
  end.

(** [WHERE\b] at the head of [s], without regard to case. *)
Definition where_at (s : string) : bool :=
  match starts_ci "WHERE" s with
  | Some (String c _) => negb (is_word c)
  | Some EmptyString => true
  | None => false
  end.

(** [re.search(r"(?i)\bWHERE\b", s)]; [prev_word] tells whether the
    character before [s] is a word character. *)
Fixpoint search_where (prev_word : bool) (s : string) : bool :=
  match s with
  | EmptyString => false
  | String c rest =>
      (negb prev_word && where_at s) || search_where (is_word c) rest
  end.

(** [re.sub(r"(?i)\bWHERE\b", "WHERE Price > 0 AND", s)]: every match from
    left to right; [skip] counts the characters of a match that are still
    to be dropped. *)
Fixpoint sub_where (skip : nat) (prev_word : bool) (s : string) : string :=
  match s with
  | EmptyString => EmptyString
  | String c rest =>
      match skip with
      | S skip' => sub_where skip' true rest
      | O =>
          if negb prev_word && where_at s
          then "WHERE Price > 0 AND" +:+ sub_where 4 true rest
          else String c (sub_where 0 (is_word c) rest)
      end
  end.

(** [s.replace(old, new)] for [old] that is not empty. *)
Fixpoint replace (skip : nat) (old new s : string) : string :=
  match s with
  | EmptyString => EmptyString
  | String c rest =>
      match skip with
      | S skip' => replace skip' old new rest
      | O =>
          if startswith s old
          then new +:+ replace (String.length old - 1) old new rest
          else String c (replace 0 old new rest)
      end
  end.

(** The first half of [execute_sql_query]: the text [raw_query] that is
    sent to the database for the query [sql_query] of the agent. *)
Definition modified_sql_query (sql_query : string) : string :=
  let raw_query := strip sql_query in
  if select_then "Price" raw_query then
    let raw_query :=
      if negb (select_then "DISTINCT" raw_query) then sub_select raw_query
      else raw_query in
    if search_where false raw_query then sub_where 0 false raw_query
    else replace 0 "FROM quotesresponses" "FROM quotesresponses WHERE Price > 0" raw_query
  else raw_query.

(** No white space at the end. *)
Definition ends_clean (s : string) : Prop := rstrip s = s.

End SqlTool.


(* ===================================================================== *)
(** * Part II: properties *)
(* ===================================================================== *)

(** ** The session store *)
Module SessionFacts.
Import PyStr PyTime Sessions SessionClaims.

Lemma count_messages_nil sid : count_messages [] sid = 0.
Proof. reflexivity. Qed.

Lemma count_messages_snoc msgs m sid :
  count_messages (msgs ++ [m]) sid =
  count_messages msgs sid + (if decide (msg_session_id m = sid) then 1 else 0).
Proof.
  unfold count_messages. rewrite filter_app, length_app, filter_cons, filter_nil.
  case_decide; simpl; lia.
Qed.

Lemma count_messages_nonneg msgs sid : 0 <= count_messages msgs sid.
Proof. unfold count_messages. lia. Qed.

Lemma count_delete_same msgs sid : count_messages (delete_messages msgs sid) sid = 0.
Proof.
  unfold count_messages, delete_messages.
  induction msgs as [|m msgs IH]; [done|].
  rewrite filter_cons. case_decide; [|done].
  rewrite filter_cons. case_decide; [congruence|done].
Qed.

Lemma count_delete_other msgs sid sid' :
  sid' ≠ sid → count_messages (delete_messages msgs sid) sid' = count_messages msgs sid'.
Proof.
  intros Hne. unfold count_messages, delete_messages. f_equal. f_equal.
  induction msgs as [|m msgs IH]; [done|].
  rewrite !filter_cons. repeat case_decide; subst; rewrite ?filter_cons;
    repeat case_decide; try congruence; by rewrite ?IH.
Qed.

Lemma elem_of_delete_messages msgs sid m :
  m ∈ delete_messages msgs sid ↔ m ∈ msgs ∧ msg_session_id m ≠ sid.
Proof. unfold delete_messages. rewrite list_elem_of_filter. tauto. Qed.

(** *** [save_message] *)

Lemma save_message_messages now d sid rl ct idx :
  chat_messages (save_message now d sid rl ct idx) =
  chat_messages d ++ [mkMessage (last_message_id d + 1) sid rl ct (isoformat now) idx].
Proof. reflexivity. Qed.

Lemma save_message_count_same now d sid rl ct idx :
  count_messages (chat_messages (save_message now d sid rl ct idx)) sid =
  count_messages (chat_messages d) sid + 1.
Proof.
  rewrite save_message_messages, count_messages_snoc. simpl.
  case_decide; [done | congruence].
Qed.

Lemma save_message_count_other now d sid rl ct idx sid' :
  sid' ≠ sid →
  count_messages (chat_messages (save_message now d sid rl ct idx)) sid' =
  count_messages (chat_messages d) sid'.
Proof.
  intros Hne. rewrite save_message_messages, count_messages_snoc. simpl.
  case_decide; [congruence | lia].
Qed.

Lemma save_message_lookup_same now d sid rl ct idx :
  chat_sessions (save_message now d sid rl ct idx) !! sid =
  (λ s, mkSession (user_login s) (session_title s) (created_at s) (isoformat now)
          (count_messages (chat_messages (save_message now d sid rl ct idx)) sid)
          (is_active s)) <$> chat_sessions d !! sid.
Proof. unfold save_message; simpl. by rewrite lookup_alter_eq. Qed.

Lemma save_message_lookup_other now d sid rl ct idx sid' :
  sid' ≠ sid →
  chat_sessions (save_message now d sid rl ct idx) !! sid' = chat_sessions d !! sid'.
Proof. intros Hne. unfold save_message; simpl. by rewrite lookup_alter_ne. Qed.

Lemma consistent_weaken sid d : counts_consistent d → consistent_except sid d.
Proof. intros H sid' s _. apply H. Qed.

Lemma save_message_restores now d sid rl ct idx :
  consistent_except sid d → counts_consistent (save_message now d sid rl ct idx).
Proof.
  intros Hex sid' s Hs. destruct (decide (sid' = sid)) as [->|Hne].
  - rewrite save_message_lookup_same in Hs.
    destruct (chat_sessions d !! sid); simplify_eq/=. done.
  - rewrite save_message_lookup_other in Hs by done.
    rewrite save_message_count_other by done. by apply Hex.
Qed.

Lemma save_all_restores now msgs : ∀ d sid i,
  msgs ≠ [] → consistent_except sid d → counts_consistent (save_all now d sid i msgs).
Proof.
  induction msgs as [|m msgs IH]; intros d sid i Hne Hex; [done|].
  simpl. destruct msgs as [|m' msgs].
  - simpl. by apply save_message_restores.
  - apply IH; [done|]. apply consistent_weaken. by apply save_message_restores.
Qed.

Lemma update_session_title_consistent now d sid t :
  counts_consistent d → counts_consistent (update_session_title now d sid t).
Proof.
  intros H sid' s. unfold update_session_title; simpl.
  destruct (decide (sid' = sid)) as [->|Hne].
  - rewrite lookup_alter_eq. destruct (chat_sessions d !! sid) as [s0|] eqn:E; [|done].
    simpl. intros [= <-]. simpl. by apply H.
  - rewrite lookup_alter_ne by done. apply H.
Qed.

Lemma delete_messages_consistent_except d sid :
  counts_consistent d →
  consistent_except sid
    (mkDb (chat_sessions d) (delete_messages (chat_messages d) sid) (last_message_id d)).
Proof.
  intros H sid' s Hne Hs. simpl in *. rewrite count_delete_other by done. by apply H.
Qed.

Lemma save_current_session_consistent now d ss :
  counts_consistent d → counts_consistent (fst (save_current_session now d ss)).
Proof.
  intros H. unfold save_current_session.
  destruct (current_session_id ss) as [sid|]; [|done].
  destruct (negb (truthy sid) || _) eqn:Hguard; [done|].
  apply orb_false_iff in Hguard as [_ Hmsgs].
  assert (Hne : messages ss ≠ []) by (destruct (messages ss); [discriminate|done]).
  pose proof (save_all_restores now (messages ss) _ sid 0 Hne
                (delete_messages_consistent_except d sid H)) as H2.
  destruct (session_needs_title ss); [|done].
  destruct (first_user_message (messages ss)) as [fm|]; [|done].
  destruct (truthy fm); [|done].
  simpl. by apply update_session_title_consistent.
Qed.

(** *** [delete_session] *)

Lemma delete_session_refused d sid login :
  snd (delete_session d sid login) = false → fst (delete_session d sid login) = d.
Proof.
  unfold delete_session. destruct (chat_sessions d !! sid) as [s|]; [|done].
  destruct (negb _); [done|]. simpl. discriminate.
Qed.

Lemma delete_session_consistent d sid login :
  counts_consistent d → counts_consistent (fst (delete_session d sid login)).
Proof.
  intros H. unfold delete_session.
  destruct (chat_sessions d !! sid) as [s|] eqn:E; [|done].
  destruct (negb _); [done|]. simpl.
  intros sid' s'. simpl. destruct (decide (sid' = sid)) as [->|Hne].
  - by rewrite lookup_delete_eq.
  - rewrite lookup_delete_ne by done. rewrite count_delete_other by done. apply H.
Qed.

(** *** [generate_session_title] *)

(** The loop with its break strips the first phrase that matches. *)
Lemma remove_prefix_find prefixes lower_message clean_message :
  remove_prefix prefixes lower_message clean_message =
  match List.find (fun phrase => startswith lower_message phrase) prefixes with
  | Some phrase => strip (drop (String.length phrase) clean_message)
  | None => clean_message
  end.
Proof.
  induction prefixes as [|p prefixes IH]; simpl; [reflexivity|].
  destruct (startswith lower_message p); [reflexivity | exact IH].
Qed.

Lemma length_append (a b : string) :
  String.length (String.append a b) = (String.length a + String.length b)%nat.
Proof.
  induction a as [|c a IH]; [reflexivity|].
  change (S (String.length (String.append a b)) = S (String.length a + String.length b)).
  by rewrite IH.
Qed.

Lemma length_pad k n : String.length (pad k n) = k.
Proof.
  revert n. induction k as [|k IH]; intros n; [reflexivity|].
  simpl pad. rewrite length_append, IH. simpl. lia.
Qed.

Lemma length_strftime_minute now : String.length (strftime_minute now) = 16%nat.
Proof.
  unfold strftime_minute, String.concat. rewrite !length_append, !length_pad. reflexivity.
Qed.

Lemma length_strftime_hm now : String.length (strftime_hm now) = 5%nat.
Proof.
  unfold strftime_hm, String.concat. rewrite !length_append, !length_pad. reflexivity.
Qed.

Lemma length_lstrip s : (String.length (lstrip s) <= String.length s)%nat.
Proof.
  induction s as [|c s IH]; simpl; [lia|]. destruct (is_space c); simpl; lia.
Qed.

Lemma length_rstrip s : (String.length (rstrip s) <= String.length s)%nat.
Proof.
  induction s as [|c s IH]; simpl; [lia|].
  destruct (rstrip s) as [|d r]; [destruct (is_space c)|]; simpl in *; lia.
Qed.

Lemma length_strip s : (String.length (strip s) <= String.length s)%nat.
Proof.
  unfold strip. pose proof (length_rstrip (lstrip s)). pose proof (length_lstrip s). lia.
Qed.

Lemma length_take n s : (String.length (take n s) <= n)%nat.
Proof.
  revert s. induction n as [|n IH]; intros [|c s]; simpl; try lia.
  specialize (IH s). lia.
Qed.

Lemma length_drop n s : (String.length (drop n s) <= String.length s)%nat.
Proof.
  revert s. induction n as [|n IH]; intros [|c s]; simpl; try lia.
  specialize (IH s). lia.
Qed.

Lemma length_truncate_title s : (String.length (truncate_title s) <= 50)%nat.
Proof.
  unfold truncate_title. destruct (50 <? String.length s)%nat eqn:E.
  - rewrite length_append. pose proof (length_take 47 s).
    change (String.length "...") with 3%nat. lia.
  - apply Nat.ltb_ge in E. lia.
Qed.

Lemma length_strip_lead_in s : (String.length (strip_lead_in s) <= String.length s)%nat.
Proof.
  unfold strip_lead_in. destruct (List.find _ _) as [phrase|]; [|lia].
  pose proof (length_strip (drop (String.length phrase) s)).
  pose proof (length_drop (String.length phrase) s). lia.
Qed.

Lemma length_capitalize_first s : String.length (capitalize_first s) = String.length s.
Proof. by destruct s. Qed.

(** For the sessions that have a row, the counter invariant survives every
    call of the three operations. *)
Lemma run_call_consistent d c : counts_consistent d → counts_consistent (run_call d c).
Proof.
  destruct c; simpl.
  - intros H. apply save_message_restores. by apply consistent_weaken.
  - apply save_current_session_consistent.
  - apply delete_session_consistent.
Qed.

Lemma run_calls_consistent cs : ∀ d,
  counts_consistent d → counts_consistent (run_calls d cs).
Proof.
  unfold run_calls. induction cs as [|c cs IH]; intros d H; [done|].
  simpl. apply IH. by apply run_call_consistent.
Qed.

End SessionFacts.

(** ** Claims about the session store *)
Module SessionTheorems.
Import PyStr PyTime Sessions SessionClaims SessionFacts.
Local Open Scope string_scope.
Local Open Scope list_scope.
Local Open Scope Z_scope.

(** C1 (evaluation at the failing input).  Fady deletes the current session
    s1; the UI then saves the transcript it still holds, as
    [handle_session_deletion] does through [create_new_session] and
    [save_current_session_if_needed].  The message row is written again
    although s1 has no session row any more: the session was deleted and
    is left with one message row, where the claim promises none. *)
Theorem C1_deleted_session_keeps_rows :
  let calls := [DeleteSession "s1" "Fady"; RewriteSession noon fady_ui] in
  let d := run_calls fady_db calls in
  count_matches_rows fady_db "s1" ∧
  snd (delete_session fady_db "s1" "Fady") = true ∧
  fst (save_current_session_if_needed noon (fst (delete_session fady_db "s1" "Fady")) fady_ui) = d ∧
  chat_sessions d !! "s1" = None ∧
  count_messages (chat_messages d) "s1" = 1 ∧
  ¬ count_matches_rows d "s1".
Proof.
  cbv zeta. repeat split; try (vm_compute; reflexivity).
  unfold count_matches_rows.
  replace (chat_sessions _ !! "s1") with (@None session_row) by (vm_compute; reflexivity).
  vm_compute. discriminate.
Qed.



(** C5.  For a stored session with owner [owner]: a caller who is not the
    owner, and any call on an identifier that is not stored, gets [false]
    and the database unchanged; the owner gets [true], the session row is
    gone, the message rows left are exactly those of the other sessions,
    and the other session rows are untouched. *)
Theorem C5_delete_session_owner_checked
    (d : db) (sid owner : string) (s : session_row)
    (Hstored : chat_sessions d !! sid = Some s)
    (Howner : user_login s = owner) :
  (∀ caller, caller ≠ owner → delete_session d sid caller = (d, false)) ∧
  (∀ other caller, chat_sessions d !! other = None →
                   delete_session d other caller = (d, false)) ∧
  (let d' := fst (delete_session d sid owner) in
   snd (delete_session d sid owner) = true ∧
   chat_sessions d' !! sid = None ∧
   (∀ m, m ∈ chat_messages d' ↔ m ∈ chat_messages d ∧ msg_session_id m ≠ sid) ∧
   count_messages (chat_messages d') sid = 0 ∧
   (∀ sid', sid' ≠ sid →
      chat_sessions d' !! sid' = chat_sessions d !! sid' ∧
      count_messages (chat_messages d') sid' = count_messages (chat_messages d) sid')).
Proof.
  split_and!.
  - intros caller Hne. unfold delete_session. rewrite Hstored.
    destruct (String.eqb (user_login s) caller) eqn:E; [|done].
    apply String.eqb_eq in E. congruence.
  - intros other caller Hnone. unfold delete_session. by rewrite Hnone.
  - unfold delete_session. rewrite Hstored.
    assert (E : String.eqb (user_login s) owner = true) by by apply String.eqb_eq.
    rewrite E. simpl. split_and!.
    + done.
    + apply lookup_delete_eq.
    + intros m. apply elem_of_delete_messages.
    + apply count_delete_same.
    + intros sid' Hne. split; [by apply lookup_delete_ne | by apply count_delete_other].
Qed.

(** C5 (witness): Fady's session s1 in the small database. *)
Lemma C5_witness :
  (∀ caller, caller ≠ "Fady" → delete_session fady_db "s1" caller = (fady_db, false)) ∧
  snd (delete_session fady_db "s1" "Fady") = true.
Proof.
  pose proof (C5_delete_session_owner_checked fady_db "s1" "Fady"
    (mkSession "Fady" "Chat Session - 2024-03-15 12:00" "2024-03-15T12:00:00"
               "2024-03-15T12:00:00" 1 true) eq_refl eq_refl) as [H1 [_ [H3 _]]].
  split; [exact H1 | exact H3].
Defined.

(** C7 (counterexample).  A 52-character question that opens with
    please: the source truncates first and strips the lead-in from the
    truncated text, so an ellipsis stays; stripping first would leave 45
    characters and no ellipsis. *)
Lemma C7_counterexample :
  generate_session_title noon long_question = "Tell me about the Keithley DMM6500 multi..." ∧
  title_in_claimed_order noon long_question = "Tell me about the Keithley DMM6500 multimeter" ∧
  generate_session_title noon long_question ≠ title_in_claimed_order noon long_question.
Proof. split_and!; [reflexivity | reflexivity | vm_compute; discriminate]. Qed.

(** C7 (amended).  On a first message of ASCII characters, read in a year
    of four digits, [generate_session_title] trims, truncates to 50
    characters (47 and an ellipsis), strips one lead-in phrase from the
    truncated text, and capitalizes the first letter, in that order; an
    empty input gives the default with date and time, an input that is
    empty after cleaning the default with the time.  The title of such a
    message is never empty and never longer than 50 characters.  (Outside
    ASCII, [str.upper] can lengthen the first character, and [str.lower]
    and [str.strip] know more letters and more white space than the bytes
    compared here.) *)
Theorem C7_title_in_source_order (now : datetime) (first_message : string)
    (Hascii : ascii_text first_message = true)
    (Hyear : four_digit_year now) :
  generate_session_title now first_message = title_in_source_order now first_message ∧
  (String.length (generate_session_title now first_message) <= 50)%nat ∧
  generate_session_title now first_message ≠ EmptyString.
Proof.
  assert (Heq : generate_session_title now first_message =
                title_in_source_order now first_message).
  { unfold generate_session_title, title_in_source_order, or_default, truncate_title.
    destruct (negb (truthy first_message)); [reflexivity|].
    set (t := if (50 <? String.length (strip first_message))%nat then _ else _).
    rewrite (remove_prefix_find prefixes_to_remove (lower t) t).
    fold (strip_lead_in t).
    destruct (strip_lead_in t) as [|c rest]; reflexivity. }
  split; [exact Heq|]. rewrite Heq. unfold title_in_source_order, or_default.
  destruct (negb (truthy first_message)).
  - split; [|discriminate]. rewrite length_append, length_strftime_minute. simpl. lia.
  - set (t := capitalize_first _).
    assert (Ht : (String.length t <= 50)%nat).
    { unfold t. rewrite length_capitalize_first.
      pose proof (length_strip_lead_in (truncate_title (strip first_message))).
      pose proof (length_truncate_title (strip first_message)). lia. }
    destruct t as [|c rest]; simpl truthy; cbv iota.
    + split; [|discriminate]. rewrite length_append, length_strftime_hm. simpl. lia.
    + split; [exact Ht|discriminate].
Qed.

(** C7 (witness): the 52-character ASCII question of the counterexample,
    asked at noon of the test clock. *)
Lemma C7_witness :
  ascii_text long_question = true ∧ four_digit_year noon ∧
  generate_session_title noon long_question = title_in_source_order noon long_question ∧
  (String.length (generate_session_title noon long_question) <= 50)%nat ∧
  generate_session_title noon long_question ≠ EmptyString.
Proof.
  assert (Ha : ascii_text long_question = true) by reflexivity.
  assert (Hy : four_digit_year noon) by (vm_compute; split; discriminate).
  split; [exact Ha|]. split; [exact Hy|].
  exact (C7_title_in_source_order noon long_question Ha Hy).
Defined.

End SessionTheorems.

(** ** The history log *)
Module HistoryFacts.
Import PyStr PyTime Json JsonOut History HistoryClaims.
Local Open Scope string_scope.
Local Open Scope list_scope.
Local Open Scope Z_scope.

(** *** [extract_product_info] and [log_search] *)

Lemma parsed_json_unparsable tool_calls :
  unparsable tool_calls → parsed_json_of tool_calls = JObj [].
Proof.
  destruct tool_calls as [|[|arguments] rest]; simpl; try done.
  by intros [_ ->].
Qed.

Lemma binds_bind_text v : binds v → is_Some (bind_text v).
Proof. destruct v; simpl; eauto. Qed.

Lemma extract_unparsable chain q r tool_calls :
  chain q r = ChainReturns tool_calls → unparsable tool_calls →
  extract_product_info chain q r =
    Some (mkInsights (JStr EmptyString) (JStr EmptyString) (JArr []) (JArr [])
                     (JStr EmptyString) (JArr []) "database").
Proof.
  intros Hc Hu. unfold extract_product_info. rewrite Hc.
  by rewrite (parsed_json_unparsable _ Hu).
Qed.

Lemma extract_raises chain q r :
  chain q r = ChainRaises → extract_product_info chain q r = None.
Proof. intros Hc. unfold extract_product_info. by rewrite Hc. Qed.

(** The source is decided by the truth value of the extracted URLs. *)
Lemma extract_source chain q r pd :
  extract_product_info chain q r = Some pd →
  i_source pd = if truthy (i_verified_urls pd) then "web" else "database".
Proof.
  unfold extract_product_info. destruct (chain q r) as [|tool_calls]; [done|].
  destruct (parsed_json_of tool_calls); try done. by intros [= <-].
Qed.

(** [log_search] either stores one row and returns its identifier, or
    stores nothing and returns -1. *)
Lemma log_search_cases chain ok now_utc st q r sid src nts :
  log_search chain ok now_utc st q r sid src nts = (st, -1) ∨
  ∃ pd brand model notes',
    extract_product_info chain q r = Some pd ∧ ok = true ∧
    bind_text (i_product_brand pd) = Some brand ∧
    bind_text (i_product_model pd) = Some model ∧
    bind_text (i_notes pd) = Some notes' ∧
    log_search chain ok now_utc st q r sid src nts =
      (mkStore (rows st ++
                  [mkRow (last_record_id st + 1) (strftime_sql now_utc) q brand model
                         (Some (json_dumps (i_price_details pd)))
                         (Some (json_dumps (i_vendors pd)))
                         (Some (json_dumps (i_verified_urls pd)))
                         (Some (i_source pd)) notes' (Some sid)])
               (last_record_id st + 1),
       last_record_id st + 1).
Proof.
  unfold log_search.
  destruct (extract_product_info chain q r) as [pd|]; [|by left].
  destruct ok; simpl; [|by left].
  destruct (bind_text (i_product_brand pd)) as [brand|] eqn:Eb; [|by left].
  destruct (bind_text (i_product_model pd)) as [model|] eqn:Em; [|by left].
  destruct (bind_text (i_notes pd)) as [notes'|] eqn:En; [|by left].
  right. by exists pd, brand, model, notes'.
Qed.

(** *** Decoding the JSON columns *)

Lemma parse_json_field_null : parse_json_field None = JArr [].
Proof. reflexivity. Qed.

Lemma parse_json_field_empty : parse_json_field (Some EmptyString) = JArr [].
Proof. reflexivity. Qed.

Lemma parse_json_field_malformed text :
  json_loads text = None → parse_json_field (Some text) = JArr [].
Proof.
  intros H. unfold parse_json_field. destruct (PyStr.truthy text); [by rewrite H|done].
Qed.

Lemma parse_json_field_valid text v :
  text ≠ EmptyString → json_loads text = Some v → parse_json_field (Some text) = v.
Proof.
  intros Hne H. unfold parse_json_field. destruct text; [done|]. simpl PyStr.truthy.
  cbv iota. by rewrite H.
Qed.

(** For a cell that is NULL, empty or malformed the field is the empty
    list; for a cell that holds a JSON array it is that list. *)
Lemma parse_json_field_degrades cell :
  cell = None ∨ cell = Some EmptyString ∨ (∃ text, cell = Some text ∧ json_loads text = None) →
  parse_json_field cell = JArr [].
Proof.
  intros [->|[->|[text [-> H]]]]; [done|done|by apply parse_json_field_malformed].
Qed.

(** *** [_format_price_range] on dictionaries with a numeric value *)

Lemma format_price_range_none : _format_price_range (JArr []) = Some "No prices".
Proof. reflexivity. Qed.

Lemma format_price_range_numbers item items prices :
  price_values (item :: items) = Some prices →
  ∀ p ps, all_numbers prices = Some (p :: ps) →
  _format_price_range (JArr (item :: items)) =
    Some (match ps with
          | [] => String "$" (format_2f p)
          | _ => String "$" (String.append (format_2f (py_min p ps))
                               (String.append " - $" (format_2f (py_max p ps))))
          end).
Proof.
  intros Hv p ps Hn. unfold _format_price_range. simpl truthy. cbv iota. simpl negb.
  cbv iota. rewrite Hv, Hn. by destruct ps.
Qed.

(** *** Retention *)

Lemma clear_history_all now st :
  clear_history now st None = (mkStore [] (last_record_id st), true).
Proof. reflexivity. Qed.

Lemma clear_history_window now st n :
  1 <= year (sub_days now n) <= 9999 →
  clear_history now st (Some n) =
    (mkStore (filter (λ r, PyStr.ltb (timestamp r) (strftime_sql (sub_days now n)) = false)
                     (rows st))
             (last_record_id st), true).
Proof.
  intros [H1 H2]. unfold clear_history.
  assert (E : (1 <=? year (sub_days now n)) && (year (sub_days now n) <=? 9999) = true).
  { apply andb_true_iff. split; by apply Z.leb_le. }
  by rewrite E.
Qed.

End HistoryFacts.

(** ** LIKE and ordering *)
Module QueryFacts.
Import PyStr PyTime Json JsonOut History HistoryClaims.
Local Open Scope string_scope.
Local Open Scope list_scope.
Local Open Scope Z_scope.

Lemma append_nil_l s : String.append EmptyString s = s.
Proof. reflexivity. Qed.

Lemma append_cons c a b : String.append (String c a) b = String c (String.append a b).
Proof. reflexivity. Qed.

Lemma like_percent_unfold pattern text :
  like (String "%" pattern) text =
  like pattern text || match text with
                       | EmptyString => false
                       | String _ text' => like (String "%" pattern) text'
                       end.
Proof. destruct text; reflexivity. Qed.

Lemma like_literal_unfold p pattern text :
  Ascii.eqb p "%" = false → Ascii.eqb p "_" = false →
  like (String p pattern) text =
  match text with
  | EmptyString => false
  | String c text' => Ascii.eqb (lower_char p) (lower_char c) && like pattern text'
  end.
Proof. intros H1 H2. simpl. rewrite H1, H2. reflexivity. Qed.

Lemma like_percent_any text : like "%" text = true.
Proof.
  induction text as [|c text IH]; [reflexivity|].
  rewrite like_percent_unfold, IH. apply orb_true_r.
Qed.

(** [%] followed by a pattern matches when the pattern matches some
    suffix. *)
Lemma like_any_run pattern text :
  like (String "%" pattern) text = true ↔
  ∃ before rest, text = String.append before rest ∧ like pattern rest = true.
Proof.
  induction text as [|c text IH]; rewrite like_percent_unfold.
  - rewrite orb_false_r. split.
    + intros H. by exists EmptyString, EmptyString.
    + intros (before & rest & Heq & H).
      destruct before; rewrite ?append_nil_l, ?append_cons in Heq; [by subst|done].
  - rewrite orb_true_iff, IH. split.
    + intros [H|(before & rest & -> & H)].
      * by exists EmptyString, (String c text).
      * by exists (String c before), rest.
    + intros (before & rest & Heq & H).
      destruct before as [|b before]; rewrite ?append_nil_l, ?append_cons in Heq.
      * left. by subst.
      * right. injection Heq as -> ->. by exists before, rest.
Qed.

(** A needle without wild cards, followed by [%], matches the texts that
    start with the needle up to case. *)
Lemma like_literal_prefix needle : ∀ text,
  no_wildcards needle = true →
  (like (String.append needle "%") text = true ↔
   ∃ middle after, text = String.append middle after ∧ lower middle = lower needle).
Proof.
  induction needle as [|a needle IH]; intros text Hnw.
  - rewrite append_nil_l. split.
    + intros _. by exists EmptyString, text.
    + intros _. apply like_percent_any.
  - simpl in Hnw. apply andb_true_iff in Hnw as [Hnw Hrest].
    apply andb_true_iff in Hnw as [Hp Hu].
    apply negb_true_iff in Hp, Hu.
    change (String.append (String a needle) "%") with (String a (String.append needle "%")).
    rewrite like_literal_unfold by done.
    destruct text as [|c text].
    + split; [done|]. intros (middle & after & Heq & Hl).
      destruct middle; rewrite ?append_nil_l, ?append_cons in Heq; discriminate.
    + rewrite andb_true_iff, (IH text Hrest). split.
      * intros [Hc (middle & after & -> & Hl)].
        exists (String c middle), after. split; [done|]. simpl lower.
        apply Ascii.eqb_eq in Hc. by rewrite Hl, Hc.
      * intros (middle & after & Heq & Hl).
        destruct middle as [|m middle]; simpl in Hl; [discriminate|].
        rewrite append_cons in Heq. injection Heq as -> ->. injection Hl as Hc Hl.
        split; [apply Ascii.eqb_eq; by rewrite Hc|]. by exists middle, after.
Qed.

(** For a needle without wild cards the pattern of [get_search_history]
    is the case-insensitive substring test. *)
Lemma like_contains needle text :
  no_wildcards needle = true →
  (like (contains_pattern needle) text = true ↔ ci_contains needle text).
Proof.
  intros Hnw. unfold contains_pattern, ci_contains. rewrite like_any_run. split.
  - intros (before & rest & -> & H). apply (like_literal_prefix needle rest Hnw) in H.
    destruct H as (middle & after & -> & Hl). by exists before, middle, after.
  - intros (before & middle & after & -> & Hl).
    exists before, (String.append middle after). split; [done|].
    apply (like_literal_prefix needle _ Hnw). by exists middle, after.
Qed.

(** *** ORDER BY *)

Lemma ltb_leb_flip a b : PyStr.ltb a b = true → PyStr.leb a b = true.
Proof. unfold PyStr.ltb, PyStr.leb. by destruct (String.compare a b). Qed.

Lemma not_ltb_leb a b : PyStr.ltb a b = false → PyStr.leb b a = true.
Proof.
  unfold PyStr.ltb, PyStr.leb. rewrite (String.compare_antisym a b).
  by destruct (String.compare b a).
Qed.

Lemma insert_desc_perm r l : Permutation (r :: l) (insert_desc r l).
Proof.
  induction l as [|x l IH]; simpl; [done|].
  destruct (PyStr.ltb (timestamp r) (timestamp x)); [|done].
  rewrite perm_swap. by constructor.
Qed.

Lemma insert_desc_hd x r l :
  not_older x r → HdRel not_older x l → HdRel not_older x (insert_desc r l).
Proof.
  intros Hxr Hl. destruct l as [|y l]; simpl; [by constructor|].
  destruct (PyStr.ltb (timestamp r) (timestamp y)).
  - constructor. by inversion Hl.
  - by constructor.
Qed.

Lemma insert_desc_sorted r l : Sorted not_older l → Sorted not_older (insert_desc r l).
Proof.
  induction 1 as [|x l Hs IH Hhd]; simpl; [by repeat constructor|].
  destruct (PyStr.ltb (timestamp r) (timestamp x)) eqn:E.
  - constructor; [done|]. apply insert_desc_hd; [|done]. by apply ltb_leb_flip.
  - constructor; [by constructor|]. constructor. by apply not_ltb_leb.
Qed.

Lemma order_by_perm l : Permutation l (order_by_timestamp_desc l).
Proof.
  unfold order_by_timestamp_desc. induction l as [|r l IH]; simpl; [done|].
  rewrite <- insert_desc_perm. by constructor.
Qed.

Lemma order_by_sorted l : Sorted not_older (order_by_timestamp_desc l).
Proof.
  unfold order_by_timestamp_desc. induction l as [|r l IH]; simpl; [constructor|].
  by apply insert_desc_sorted.
Qed.

Lemma sorted_skipn {A} (R : A → A → Prop) n : ∀ l, Sorted R l → Sorted R (skipn n l).
Proof.
  induction n as [|n IH]; intros l Hs; [done|].
  destruct l as [|x l]; [done|]. simpl. apply IH. by inversion Hs.
Qed.

Lemma sorted_firstn {A} (R : A → A → Prop) n : ∀ l, Sorted R l → Sorted R (firstn n l).
Proof.
  induction n as [|n IH]; intros l Hs; [constructor|].
  destruct l as [|x l]; [constructor|]. simpl. inversion Hs as [|? ? Hs' Hhd]; subst.
  constructor; [by apply IH|]. destruct l; destruct n; simpl; try constructor.
  by inversion Hhd.
Qed.

Lemma limit_offset_sorted limit offset l :
  Sorted not_older l → Sorted not_older (limit_offset limit offset l).
Proof.
  intros Hs. unfold limit_offset. destruct (limit <? 0).
  - by apply sorted_skipn.
  - by apply sorted_firstn, sorted_skipn.
Qed.

Lemma elem_of_limit_offset limit offset (l : list history_row) r :
  r ∈ limit_offset limit offset l → r ∈ l.
Proof.
  unfold limit_offset. intros H.
  assert (H' : r ∈ skipn (Z.to_nat offset) l).
  { destruct (limit <? 0); [done|]. by eapply subseteq_take. }
  by eapply subseteq_drop.
Qed.

(** Without a limit and from offset zero nothing is cut. *)
Lemma limit_offset_all limit offset (l : list history_row) :
  offset <= 0 → (limit < 0 ∨ Z.of_nat (length l) <= limit) → limit_offset limit offset l = l.
Proof.
  intros Ho Hl. unfold limit_offset.
  replace (Z.to_nat offset) with 0%nat by lia. simpl.
  destruct (limit <? 0) eqn:E; [done|].
  apply Z.ltb_ge in E. apply firstn_all2. lia.
Qed.

End QueryFacts.

(** ** Time stamps as text *)
Module TimeFacts.
Import PyStr PyTime History HistoryClaims.
Local Open Scope string_scope.
Local Open Scope list_scope.
Local Open Scope Z_scope.

Lemma append_assoc (a b c : string) :
  String.append (String.append a b) c = String.append a (String.append b c).
Proof.
  induction a as [|x a IH]; [reflexivity|].
  change (String x (String.append (String.append a b) c) =
          String x (String.append a (String.append b c))).
  by rewrite IH.
Qed.

Lemma append_nil_r (a : string) : String.append a EmptyString = a.
Proof.
  induction a as [|x a IH]; [reflexivity|].
  change (String x (String.append a EmptyString) = String x a). by rewrite IH.
Qed.

Lemma compare_cons (c d : ascii) (s t : string) :
  String.compare (String c s) (String d t) =
  match Ascii.compare c d with
  | Eq => String.compare s t
  | o => o
  end.
Proof. reflexivity. Qed.

Lemma small_cases x : 0 <= x < 10 →
  x = 0 ∨ x = 1 ∨ x = 2 ∨ x = 3 ∨ x = 4 ∨ x = 5 ∨ x = 6 ∨ x = 7 ∨ x = 8 ∨ x = 9.
Proof. lia. Qed.

(** Digits compare as the numbers they print. *)
Lemma compare_digit a b :
  Ascii.compare (digit a) (digit b) = (a mod 10 ?= b mod 10).
Proof.
  unfold digit.
  pose proof (small_cases (a mod 10) (Z.mod_pos_bound a 10 eq_refl)) as Ha.
  pose proof (small_cases (b mod 10) (Z.mod_pos_bound b 10 eq_refl)) as Hb.
  destruct Ha as [->|[->|[->|[->|[->|[->|[->|[->|[->| ->]]]]]]]]];
  destruct Hb as [->|[->|[->|[->|[->|[->|[->|[->|[->| ->]]]]]]]]]; reflexivity.
Qed.

Lemma compare_div_mod a b :
  (a ?= b) = match a / 10 ?= b / 10 with
             | Eq => a mod 10 ?= b mod 10
             | o => o
             end.
Proof.
  pose proof (Z.div_mod a 10 ltac:(lia)) as Ha.
  pose proof (Z.div_mod b 10 ltac:(lia)) as Hb.
  pose proof (Z.mod_pos_bound a 10 eq_refl).
  pose proof (Z.mod_pos_bound b 10 eq_refl).
  destruct (Z.compare_spec (a / 10) (b / 10));
    destruct (Z.compare_spec (a mod 10) (b mod 10));
    destruct (Z.compare_spec a b); try reflexivity; lia.
Qed.

(** Numbers printed with the same fixed width compare as numbers, and the
    comparison goes on to the text that follows when they are equal. *)
Lemma compare_pad k : ∀ a b s t,
  0 <= a < 10 ^ Z.of_nat k → 0 <= b < 10 ^ Z.of_nat k →
  String.compare (String.append (pad k a) s) (String.append (pad k b) t) =
  match a ?= b with
  | Eq => String.compare s t
  | o => o
  end.
Proof.
  induction k as [|k IH]; intros a b s t Ha Hb.
  - simpl in Ha, Hb. assert (a = 0) as -> by lia. assert (b = 0) as -> by lia. reflexivity.
  - assert (Hpow : 10 ^ Z.of_nat (S k) = 10 * 10 ^ Z.of_nat k).
    { rewrite Nat2Z.inj_succ, Z.pow_succ_r by lia. reflexivity. }
    rewrite Hpow in Ha, Hb.
    assert (0 <= a / 10 < 10 ^ Z.of_nat k).
    { split; [apply Z.div_pos; lia | apply Z.div_lt_upper_bound; lia]. }
    assert (0 <= b / 10 < 10 ^ Z.of_nat k).
    { split; [apply Z.div_pos; lia | apply Z.div_lt_upper_bound; lia]. }
    simpl pad. rewrite !append_assoc.
    rewrite IH by done.
    change (String.append (String (digit a) EmptyString) s) with (String (digit a) s).
    change (String.append (String (digit b) EmptyString) t) with (String (digit b) t).
    rewrite compare_cons, compare_digit, (compare_div_mod a b).
    destruct (a / 10 ?= b / 10); reflexivity.
Qed.

Lemma strftime_sql_unfold t :
  strftime_sql t =
  String.append (pad 4 (year t)) (String "-"
    (String.append (pad 2 (month t)) (String "-"
      (String.append (pad 2 (day t)) (String " "
        (String.append (pad 2 (hour t)) (String ":"
          (String.append (pad 2 (minute t)) (String ":"
            (String.append (pad 2 (second t)) EmptyString)))))))))).
Proof. unfold strftime_sql. by rewrite append_nil_r. Qed.

(** The text order of two printed time stamps is the calendar order. *)
Lemma strftime_sql_compare a b : printable a → printable b →
  String.compare (strftime_sql a) (strftime_sql b) =
  match year a ?= year b with
  | Eq => match month a ?= month b with
          | Eq => match day a ?= day b with
                  | Eq => match hour a ?= hour b with
                          | Eq => match minute a ?= minute b with
                                  | Eq => second a ?= second b
                                  | o => o
                                  end
                          | o => o
                          end
                  | o => o
                  end
          | o => o
          end
  | o => o
  end.
Proof.
  intros (Hy & Hm & Hd & Hh & Hmi & Hs) (Hy' & Hm' & Hd' & Hh' & Hmi' & Hs').
  rewrite !strftime_sql_unfold.
  rewrite (compare_pad 4) by (simpl; lia). destruct (year a ?= year b); try reflexivity.
  rewrite compare_cons. simpl Ascii.compare. cbv iota.
  rewrite (compare_pad 2) by (simpl; lia). destruct (month a ?= month b); try reflexivity.
  rewrite compare_cons. simpl Ascii.compare. cbv iota.
  rewrite (compare_pad 2) by (simpl; lia). destruct (day a ?= day b); try reflexivity.
  rewrite compare_cons. simpl Ascii.compare. cbv iota.
  rewrite (compare_pad 2) by (simpl; lia). destruct (hour a ?= hour b); try reflexivity.
  rewrite compare_cons. simpl Ascii.compare. cbv iota.
  rewrite (compare_pad 2) by (simpl; lia). destruct (minute a ?= minute b); try reflexivity.
  rewrite compare_cons. simpl Ascii.compare. cbv iota.
  rewrite (compare_pad 2) by (simpl; lia). by destruct (second a ?= second b).
Qed.

Lemma strftime_sql_ltb a b : printable a → printable b →
  (PyStr.ltb (strftime_sql a) (strftime_sql b) = true ↔ earlier a b).
Proof.
  intros Ha Hb. unfold PyStr.ltb, earlier. rewrite (strftime_sql_compare a b Ha Hb).
  destruct (Z.compare_spec (year a) (year b));
  destruct (Z.compare_spec (month a) (month b));
  destruct (Z.compare_spec (day a) (day b));
  destruct (Z.compare_spec (hour a) (hour b));
  destruct (Z.compare_spec (minute a) (minute b));
  destruct (Z.compare_spec (second a) (second b));
  (split; [try discriminate; intros _; lia | try reflexivity; intros ?; exfalso; lia]).
Qed.

Lemma strftime_sql_leb a b : printable a → printable b →
  (PyStr.leb (strftime_sql a) (strftime_sql b) = true ↔ ¬ earlier b a).
Proof.
  intros Ha Hb. rewrite <- (strftime_sql_ltb b a Hb Ha).
  unfold PyStr.ltb, PyStr.leb. rewrite (String.compare_antisym (strftime_sql a)).
  destruct (String.compare (strftime_sql b) (strftime_sql a)); simpl; split; try done.
Qed.

End TimeFacts.

(** ** The WHERE clause and the selected rows *)
Module SelectFacts.
Import PyStr PyTime Json JsonOut History HistoryClaims QueryFacts.
Local Open Scope string_scope.
Local Open Scope list_scope.
Local Open Scope Z_scope.

Lemma where_clause_passes f r : where_clause f r = true ↔ passes f r.
Proof.
  unfold where_clause, passes, passes_text, text_filter, like_column.
  rewrite !andb_true_iff.
  assert (Htext : ∀ (flt column : option string),
    (match flt with
     | Some needle => if PyStr.truthy needle
                      then match column with
                           | Some text => like (contains_pattern needle) text
                           | None => false
                           end
                      else true
     | None => true
     end = true) ↔
    (∀ needle, flt = Some needle → needle ≠ EmptyString →
       ∃ text, column = Some text ∧ like (contains_pattern needle) text = true)).
  { intros flt column. destruct flt as [needle|]; [|by split].
    destruct needle as [|c needle]; simpl.
    - split; [|done]. by intros _ ? [= <-] ?.
    - split.
      + intros H ? [= <-] _. destruct column as [text|]; [by exists text|done].
      + intros H. destruct (H _ eq_refl ltac:(done)) as (text & -> & Hl). done. }
  assert (Hsess : (match session_filter f with
     | Some s => if PyStr.truthy s
                 then match session_id r with
                      | Some s' => String.eqb s' s
                      | None => false
                      end
                 else true
     | None => true
     end = true) ↔
    (∀ s, session_filter f = Some s → s ≠ EmptyString → session_id r = Some s)).
  { destruct (session_filter f) as [s|]; [|by split].
    destruct s as [|c s]; simpl.
    - split; [|done]. by intros _ ? [= <-] ?.
    - split.
      + intros H ? [= <-] _. destruct (session_id r) as [s'|]; [|done].
        apply String.eqb_eq in H. by subst.
      + intros H. rewrite (H _ eq_refl ltac:(done)). apply String.eqb_refl. }
  rewrite (Htext (brand_filter f) (product_brand r)).
  rewrite (Htext (model_filter f) (product_model r)).
  rewrite Hsess.
  assert (Hfrom : (match date_from f with
                   | Some t => PyStr.leb (strftime_sql t) (timestamp r)
                   | None => true
                   end = true) ↔
                  (∀ t, date_from f = Some t → PyStr.leb (strftime_sql t) (timestamp r) = true)).
  { destruct (date_from f) as [t|]; split; try done.
    - by intros H ? [= <-].
    - intros H. by apply H. }
  assert (Hto : (match date_to f with
                 | Some t => PyStr.leb (timestamp r) (strftime_sql t)
                 | None => true
                 end = true) ↔
                (∀ t, date_to f = Some t → PyStr.leb (timestamp r) (strftime_sql t) = true)).
  { destruct (date_to f) as [t|]; split; try done.
    - by intros H ? [= <-].
    - intros H. by apply H. }
  rewrite Hfrom, Hto. tauto.
Qed.

Lemma select_history_spec st limit offset f r :
  r ∈ select_history st limit offset f → r ∈ rows st ∧ passes f r.
Proof.
  unfold select_history. intros H. apply elem_of_limit_offset in H.
  rewrite <- (order_by_perm _) in H. apply list_elem_of_filter in H as [H1 H2].
  split; [done|]. by apply where_clause_passes.
Qed.

Lemma get_search_history_rows st limit offset f :
  r_row <$> get_search_history st limit offset f = select_history st limit offset f.
Proof.
  unfold get_search_history. rewrite <- list_fmap_compose.
  rewrite <- (list_fmap_id (select_history st limit offset f)) at 2.
  by apply list_fmap_ext.
Qed.

Lemma lower_append a b : lower (String.append a b) = String.append (lower a) (lower b).
Proof.
  induction a as [|c a IH]; [reflexivity|].
  change (String (lower_char c) (lower (String.append a b)) =
          String (lower_char c) (String.append (lower a) (lower b))).
  by rewrite IH.
Qed.

Lemma occurs_append c a b : occurs c (String.append a b) = occurs c a || occurs c b.
Proof.
  induction a as [|d a IH]; [reflexivity|].
  change (Ascii.eqb c d || occurs c (String.append a b) =
          Ascii.eqb c d || occurs c a || occurs c b).
  rewrite IH. by rewrite orb_assoc.
Qed.

(** A text that contains the needle up to case has, in lower case, every
    character of the needle in lower case. *)
Lemma ci_contains_occurs needle text c :
  ci_contains needle text → occurs c (lower needle) = true → occurs c (lower text) = true.
Proof.
  intros (before & middle & after & -> & Hl) Hc.
  rewrite !lower_append, !occurs_append, Hl, Hc. by rewrite orb_true_r.
Qed.

End SelectFacts.

(** ** Claims about the history log *)
Module HistoryTheorems.
Import PyStr PyTime Json JsonOut History HistoryClaims HistoryFacts QueryFacts TimeFacts
  SelectFacts.
Local Open Scope string_scope.
Local Open Scope list_scope.
Local Open Scope Z_scope.

(** C2 (counterexample).  The storage works and the chain raises:
    [log_search] stores nothing and returns -1. *)
Lemma C2_counterexample :
  ¬ logs_despite_failure chain_down utc_noon empty_store
      "current price of DMM6500" "The DMM6500 is listed." "s1" "both" EmptyString.
Proof.
  intros H. unfold logs_despite_failure in H.
  specialize (H (or_introl eq_refl)). vm_compute in H. destruct H as [H _]. discriminate.
Qed.

(** C2 (amended).  When the chain returns no tool call or a tool call whose
    arguments cannot be read (they are missing, or they are text that
    [json.loads] rejects; the text is shallow, so that the decoder stays
    within the recursion limit of the interpreter), [log_search] stores a
    row with empty brand, model, prices, vendors and URLs and source
    database, and returns its positive identifier.  When the chain raises,
    [log_search] stores nothing and returns -1, as it does when the storage
    fails. *)
Theorem C2_log_search_on_adapter_failure
    (chain : chain_fn) (now_utc : datetime) (st : store)
    (q r sid src nts : string) (Hid : 0 <= last_record_id st) :
  (∀ tool_calls, chain q r = ChainReturns tool_calls → unparsable tool_calls →
     log_search chain true now_utc st q r sid src nts =
       (mkStore (rows st ++ [empty_fields_row (last_record_id st + 1) now_utc q sid])
                (last_record_id st + 1),
        last_record_id st + 1) ∧
     0 < last_record_id st + 1) ∧
  (chain q r = ChainRaises →
     ∀ ok, log_search chain ok now_utc st q r sid src nts = (st, -1)) ∧
  log_search chain false now_utc st q r sid src nts = (st, -1).
Proof.
  split_and!.
  - intros tool_calls Hc Hu. split; [|lia].
    unfold log_search. by rewrite (extract_unparsable _ _ _ _ Hc Hu).
  - intros Hc ok. unfold log_search. by rewrite (extract_raises _ _ _ Hc).
  - unfold log_search. by destruct (extract_product_info chain q r).
Qed.

(** C2 (witness): the chain answers with text that is not JSON. *)
Lemma C2_witness :
  log_search (chain_says "not json") true utc_noon empty_store "q" "r" "s1" "both" EmptyString =
    (mkStore [empty_fields_row 1 utc_noon "q" "s1"] 1, 1) ∧
  log_search chain_down true utc_noon empty_store "q" "r" "s1" "both" EmptyString =
    (empty_store, -1).
Proof.
  split.
  - pose proof (C2_log_search_on_adapter_failure (chain_says "not json") utc_noon
                  empty_store "q" "r" "s1" "both" EmptyString ltac:(simpl; lia)) as [H _].
    assert (Hshallow : shallow "not json") by (apply Nat.leb_le; reflexivity).
    exact (proj1 (H [Call "not json"] eq_refl (conj Hshallow eq_refl))).
  - pose proof (C2_log_search_on_adapter_failure chain_down utc_noon
                  empty_store "q" "r" "s1" "both" EmptyString ltac:(simpl; lia)) as [_ [H _]].
    exact (H eq_refl true).
Defined.

(** C4.  For an extraction whose [verified_urls] has its declared type
    (read from arguments that are shallow and short), the source is web
    exactly when at least one URL was extracted and database otherwise.
    [log_search] stores that source: with a working storage and a brand, a
    model and notes that SQLite binds, it appends one row, under the next
    identifier, with the query, the session and the source of the
    extraction, which is web exactly when a URL was extracted; and whenever
    a search is logged at all, the row appended carries that source.  Neither the [source]
    argument of the caller (which [agent.log_interaction] derives from
    keywords of the response) nor the response text itself has any
    influence beyond the output of the chain. *)
Theorem C4_source_from_verified_urls
    (chain : chain_fn) (ok : bool) (now_utc : datetime) (st : store)
    (q r sid src nts : string) (pd : insights)
    (Hext : extract_product_info chain q r = Some pd)
    (Htyped : urls_well_typed (i_verified_urls pd))
    (Hshallow : shallow_answer (chain q r)) :
  (i_source pd = "web" ↔ (1 <= url_count (i_verified_urls pd))%nat) ∧
  (i_source pd = "database" ↔ url_count (i_verified_urls pd) = 0%nat) ∧
  (binds (i_product_brand pd) → binds (i_product_model pd) → binds (i_notes pd) →
     ∃ row, log_search chain true now_utc st q r sid src nts =
              (mkStore (rows st ++ [row]) (last_record_id st + 1), last_record_id st + 1) ∧
            record_id row = last_record_id st + 1 ∧
            user_query row = q ∧ session_id row = Some sid ∧
            source row = Some (i_source pd) ∧
            (source row = Some "web" ↔ (1 <= url_count (i_verified_urls pd))%nat)) ∧
  (∀ st' id, log_search chain ok now_utc st q r sid src nts = (st', id) → id ≠ -1 →
     ∃ row, rows st' = rows st ++ [row] ∧ record_id row = id ∧
            source row = Some (i_source pd)) ∧
  (∀ r' src' nts', chain q r' = chain q r →
     log_search chain ok now_utc st q r' sid src' nts' =
     log_search chain ok now_utc st q r sid src nts).
Proof.
  pose proof (extract_source _ _ _ _ Hext) as Hsrc.
  assert (Hweb : i_source pd = "web" ↔ (1 <= url_count (i_verified_urls pd))%nat).
  { rewrite Hsrc. destruct (i_verified_urls pd) as [| | | | |items|]; try done; simpl.
    + split; [done|lia].
    + destruct items; simpl; split; try done; lia. }
  split; [exact Hweb|]. split; [|split; [|split]].
  - rewrite Hsrc. destruct (i_verified_urls pd) as [| | | | |items|]; try done; simpl.
    destruct items; simpl; split; done.
  - intros [brand Hb]%binds_bind_text [model Hm]%binds_bind_text
           [notes' Hn]%binds_bind_text.
    eexists. split.
    + unfold log_search. rewrite Hext. cbv zeta. simpl negb. cbv iota.
      rewrite Hb, Hm, Hn. reflexivity.
    + cbn [record_id user_query session_id source]. split_and!; try done.
      rewrite <- Hweb. split; [by intros [= E]|by intros ->].
  - intros st' id Hlog Hid.
    destruct (log_search_cases chain ok now_utc st q r sid src nts)
      as [Hfail|(pd' & brand & model & notes' & Hext' & _ & _ & _ & _ & Hrow)].
    + rewrite Hfail in Hlog. injection Hlog as _ <-. done.
    + rewrite Hext in Hext'. injection Hext' as <-.
      rewrite Hrow in Hlog. injection Hlog as <- <-. eexists. split_and!; done.
  - intros r' src' nts' Hc. unfold log_search, extract_product_info. by rewrite Hc.
Qed.

(** C4 (witness): an extraction with one URL, logged to an empty table
    by a caller who passes the source both: the row stored says web. *)
Lemma C4_witness :
  let pd := mkInsights (JStr "Keithley") (JStr "DMM6500") (JArr [JStr "$1,299.00"])
              (JArr [JStr "Tektronix"]) (JStr "one offer")
              (JArr [JStr "https://www.tek.com/dmm6500"]) "web" in
  extract_product_info (chain_says keithley_arguments) "q" "r" = Some pd ∧
  shallow_answer (chain_says keithley_arguments "q" "r") ∧
  (i_source pd = "web" ↔ (1 <= url_count (i_verified_urls pd))%nat) ∧
  ∃ row, log_search (chain_says keithley_arguments) true utc_noon empty_store
                    "q" "r" "s1" "both" EmptyString =
           (mkStore (rows empty_store ++ [row]) (last_record_id empty_store + 1),
            last_record_id empty_store + 1) ∧
         record_id row = last_record_id empty_store + 1 ∧
         user_query row = "q" ∧ session_id row = Some "s1" ∧
         source row = Some "web" ∧
         (source row = Some "web" ↔ (1 <= url_count (JArr [JStr "https://www.tek.com/dmm6500"]))%nat).
Proof.
  cbv zeta.
  assert (Hext : extract_product_info (chain_says keithley_arguments) "q" "r" =
    Some (mkInsights (JStr "Keithley") (JStr "DMM6500") (JArr [JStr "$1,299.00"])
            (JArr [JStr "Tektronix"]) (JStr "one offer")
            (JArr [JStr "https://www.tek.com/dmm6500"]) "web")) by (vm_compute; reflexivity).
  assert (Hshallow : shallow_answer (chain_says keithley_arguments "q" "r")).
  { split; [unfold shallow|unfold short]; apply Nat.leb_le; vm_compute; reflexivity. }
  split; [exact Hext|]. split; [exact Hshallow|].
  pose proof (C4_source_from_verified_urls (chain_says keithley_arguments) true utc_noon
                empty_store "q" "r" "s1" "both" EmptyString _ Hext I Hshallow) as H.
  split; [exact (proj1 H)|].
  exact (proj1 (proj2 (proj2 H)) eq_refl eq_refl eq_refl).
Defined.

(** C8 (evaluation at the failing input).  The extraction follows its
    schema and reports one price as a string.  [log_search] stores it,
    [get_search_history] returns the record with a list of one string, and
    [_format_price_range] raises on it, because it reads every entry as a
    dictionary with a [value]; [export_to_csv] catches the error and returns
    no file, so there is no Price Range cell at all. *)
Theorem C8_export_fails_on_extracted_prices :
  let st := log_one keithley_arguments in
  (r_price_details <$> get_search_history st 10000 0 no_filters) = [JArr [JStr "$1,299.00"]] ∧
  _format_price_range (JArr [JStr "$1,299.00"]) = None ∧
  export_to_csv st no_filters = ExportFailed.
Proof. cbv zeta. split_and!; vm_compute; reflexivity. Qed.

(** C10 (evaluation at the failing input).  The extraction reports no
    price with [null]; [log_search] stores the text null, and
    [get_search_history] decodes it to [None], which is not a list; the
    export then fails on [len]. *)
Theorem C10_null_column_is_not_a_list :
  let st := log_one null_prices_arguments in
  (price_details <$> rows st) = [Some "null"] ∧
  (r_price_details <$> get_search_history st 50 0 no_filters) = [JNull] ∧
  is_list JNull = false ∧
  export_to_csv st no_filters = ExportFailed.
Proof. cbv zeta. split_and!; vm_compute; reflexivity. Qed.







End HistoryTheorems.

(** ** More of the session store: loading, rewriting, listing *)
Module SessionMoreFacts.
Import PyStr PyTime Sessions SessionClaims SessionFacts SessionQueries.
Local Open Scope string_scope.
Local Open Scope list_scope.
Local Open Scope Z_scope.

(** *** [load_session_messages] *)

Lemma insert_by_index_perm m l : Permutation (m :: l) (insert_by_index m l).
Proof.
  induction l as [|x l IH]; simpl; [done|].
  destruct (message_index m <=? message_index x); [done|].
  rewrite perm_swap. by constructor.
Qed.

Lemma insert_by_index_hd x m l :
  index_le x m → HdRel index_le x l → HdRel index_le x (insert_by_index m l).
Proof.
  intros Hxm Hl. destruct l as [|y l]; simpl; [by constructor|].
  destruct (message_index m <=? message_index y); constructor; [done|by inversion Hl].
Qed.

Lemma insert_by_index_sorted m l :
  Sorted index_le l → Sorted index_le (insert_by_index m l).
Proof.
  induction 1 as [|x l Hs IH Hhd]; simpl; [by repeat constructor|].
  destruct (message_index m <=? message_index x) eqn:E.
  - constructor; [by constructor|]. constructor. unfold index_le. lia.
  - constructor; [done|]. apply insert_by_index_hd; [|done]. unfold index_le. lia.
Qed.

Lemma load_perm d sid :
  Permutation (load_session_messages d sid)
              (filter (λ m, msg_session_id m = sid) (chat_messages d)).
Proof.
  unfold load_session_messages.
  induction (filter (λ m, msg_session_id m = sid) (chat_messages d)) as [|m l IH];
    simpl; [done|].
  rewrite <- insert_by_index_perm. by constructor.
Qed.

Lemma load_sorted d sid : Sorted index_le (load_session_messages d sid).
Proof.
  unfold load_session_messages.
  induction (filter (λ m, msg_session_id m = sid) (chat_messages d)) as [|m l IH];
    simpl; [constructor|]. by apply insert_by_index_sorted.
Qed.

Lemma load_length d sid :
  Z.of_nat (length (load_session_messages d sid)) = count_messages (chat_messages d) sid.
Proof. unfold count_messages. by rewrite (Permutation_length (load_perm d sid)). Qed.

(** What is loaded depends on the message table alone. *)
Lemma load_same_messages d d' sid :
  chat_messages d' = chat_messages d →
  load_session_messages d' sid = load_session_messages d sid.
Proof. unfold load_session_messages. by intros ->. Qed.

Lemma insert_by_index_snoc x m l :
  message_index x <= message_index m →
  insert_by_index x (l ++ [m]) = insert_by_index x l ++ [m].
Proof.
  intros Hle. induction l as [|y l IH]; simpl.
  - assert (E : (message_index x <=? message_index m) = true) by by apply Z.leb_le.
    by rewrite E.
  - destruct (message_index x <=? message_index y); [done|]. by rewrite IH.
Qed.

Lemma foldr_insert_snoc m l :
  (∀ x, x ∈ l → message_index x <= message_index m) →
  foldr insert_by_index [] (l ++ [m]) = foldr insert_by_index [] l ++ [m].
Proof.
  intros H. rewrite foldr_app. simpl. induction l as [|x l IH]; simpl; [done|].
  rewrite IH by (intros y Hy; apply H; by right).
  apply insert_by_index_snoc. apply H. by left.
Qed.

(** A message saved at an index that no stored message of the session
    exceeds is loaded last. *)
Lemma load_after_save now d sid rl ct idx :
  (∀ x, x ∈ chat_messages d → msg_session_id x = sid → message_index x <= idx) →
  load_session_messages (save_message now d sid rl ct idx) sid =
  load_session_messages d sid ++
    [mkMessage (last_message_id d + 1) sid rl ct (isoformat now) idx].
Proof.
  intros H. unfold load_session_messages. rewrite save_message_messages, filter_app.
  rewrite filter_cons, filter_nil. case_decide as E; [|by destruct E].
  apply foldr_insert_snoc. intros x Hx. apply list_elem_of_filter in Hx as [Hs Hin].
  simpl. by apply H.
Qed.

Lemma load_after_save_other now d sid rl ct idx sid' :
  sid' ≠ sid →
  load_session_messages (save_message now d sid rl ct idx) sid' =
  load_session_messages d sid'.
Proof.
  intros Hne. unfold load_session_messages. rewrite save_message_messages, filter_app.
  rewrite filter_cons, filter_nil. case_decide as E; [simpl in E; congruence|].
  by rewrite app_nil_r.
Qed.

(** *** The rewrite of a session *)

Lemma save_all_messages_other now msgs : ∀ d sid i sid',
  sid' ≠ sid →
  load_session_messages (save_all now d sid i msgs) sid' = load_session_messages d sid'.
Proof.
  induction msgs as [|m msgs IH]; intros d sid i sid' Hne; simpl; [done|].
  rewrite IH by done. by apply load_after_save_other.
Qed.

Lemma save_all_transcript now msgs : ∀ d sid i,
  (∀ x, x ∈ chat_messages d → msg_session_id x = sid → message_index x < i) →
  (row_view <$> load_session_messages (save_all now d sid i msgs) sid) =
  (row_view <$> load_session_messages d sid) ++ numbered i msgs.
Proof.
  induction msgs as [|m msgs IH]; intros d sid i H; simpl.
  - by rewrite app_nil_r.
  - rewrite IH.
    + rewrite load_after_save by (intros x Hx Hs; specialize (H x Hx Hs); lia).
      rewrite fmap_app. simpl. by rewrite <- app_assoc.
    + intros x Hx Hs. rewrite save_message_messages in Hx.
      apply elem_of_app in Hx as [Hx|Hx].
      * specialize (H x Hx Hs). lia.
      * apply list_elem_of_singleton in Hx. subst x. simpl. lia.
Qed.

Lemma save_all_count now msgs : ∀ d sid i s,
  msgs ≠ [] → chat_sessions (save_all now d sid i msgs) !! sid = Some s →
  message_count s = count_messages (chat_messages (save_all now d sid i msgs)) sid.
Proof.
  induction msgs as [|m msgs IH]; intros d sid i s Hne Hs; [done|].
  destruct msgs as [|m' msgs].
  - cbn [save_all] in *. rewrite save_message_lookup_same in Hs.
    destruct (chat_sessions d !! sid); simplify_eq/=. done.
  - cbn [save_all] in *. by apply IH.
Qed.

Lemma filter_delete_messages msgs sid :
  filter (λ m, msg_session_id m = sid) (delete_messages msgs sid) = [].
Proof.
  unfold delete_messages. induction msgs as [|m msgs IH]; [done|].
  rewrite filter_cons. case_decide; [|done].
  rewrite filter_cons. case_decide; [congruence|done].
Qed.

Lemma filter_delete_messages_other msgs sid sid' :
  sid' ≠ sid →
  filter (λ m, msg_session_id m = sid') (delete_messages msgs sid) =
  filter (λ m, msg_session_id m = sid') msgs.
Proof.
  intros Hne. unfold delete_messages. induction msgs as [|m msgs IH]; [done|].
  rewrite !filter_cons. repeat case_decide; subst; rewrite ?filter_cons;
    repeat case_decide; try congruence; by rewrite ?IH.
Qed.

Lemma length_numbered i msgs : length (numbered i msgs) = length msgs.
Proof. revert i. induction msgs as [|m msgs IH]; intros i; simpl; [done|]. by rewrite IH. Qed.


(** *** [get_user_sessions] *)

Lemma insert_session_desc_perm ks l : Permutation (ks :: l) (insert_session_desc ks l).
Proof.
  induction l as [|x l IH]; simpl; [done|].
  destruct (PyStr.ltb (last_updated ks.2) (last_updated x.2)); [|done].
  rewrite perm_swap. by constructor.
Qed.

Lemma order_sessions_perm l : Permutation l (order_by_last_updated_desc l).
Proof.
  unfold order_by_last_updated_desc. induction l as [|ks l IH]; simpl; [done|].
  rewrite <- insert_session_desc_perm. by constructor.
Qed.

Lemma insert_session_desc_hd x ks l :
  updated_not_before x ks → HdRel updated_not_before x l →
  HdRel updated_not_before x (insert_session_desc ks l).
Proof.
  intros Hx Hl. destruct l as [|y l]; simpl; [by constructor|].
  destruct (PyStr.ltb (last_updated ks.2) (last_updated y.2)); constructor;
    [by inversion Hl|done].
Qed.

Lemma insert_session_desc_sorted ks l :
  Sorted updated_not_before l → Sorted updated_not_before (insert_session_desc ks l).
Proof.
  induction 1 as [|x l Hs IH Hhd]; simpl; [by repeat constructor|].
  destruct (PyStr.ltb (last_updated ks.2) (last_updated x.2)) eqn:E.
  - constructor; [done|]. apply insert_session_desc_hd; [|done].
    unfold updated_not_before, PyStr.leb. unfold PyStr.ltb in E.
    by destruct (String.compare (last_updated ks.2) (last_updated x.2)).
  - constructor; [by constructor|]. constructor.
    unfold updated_not_before, PyStr.leb. unfold PyStr.ltb in E.
    rewrite (String.compare_antisym (last_updated x.2)).
    by destruct (String.compare (last_updated ks.2) (last_updated x.2)).
Qed.

Lemma order_sessions_sorted l : Sorted updated_not_before (order_by_last_updated_desc l).
Proof.
  unfold order_by_last_updated_desc. induction l as [|ks l IH]; simpl; [constructor|].
  by apply insert_session_desc_sorted.
Qed.

Lemma sorted_take {A} (R : A → A → Prop) n : ∀ l, Sorted R l → Sorted R (firstn n l).
Proof.
  induction n as [|n IH]; intros l Hs; [constructor|].
  destruct l as [|x l]; [constructor|]. simpl. inversion Hs as [|? ? Hs' Hhd]; subst.
  constructor; [by apply IH|]. destruct l; destruct n; simpl; try constructor.
  by inversion Hhd.
Qed.

Lemma elem_of_limit_rows {A} limit (l : list A) x : x ∈ limit_rows limit l → x ∈ l.
Proof.
  unfold limit_rows. destruct (limit <? 0); [done|]. apply subseteq_take.
Qed.

Lemma elem_of_active_sessions d login ks :
  ks ∈ active_sessions_of d login ↔
  chat_sessions d !! ks.1 = Some ks.2 ∧ user_login ks.2 = login ∧ is_active ks.2 = true.
Proof.
  unfold active_sessions_of. rewrite list_elem_of_filter. destruct ks as [sid s].
  rewrite elem_of_map_to_list. unfold owned_active. simpl. tauto.
Qed.

Lemma NoDup_active_sessions d login : NoDup (active_sessions_of d login).*1.
Proof.
  unfold active_sessions_of.
  pose proof (NoDup_fst_map_to_list (chat_sessions d)) as H.
  induction (map_to_list (chat_sessions d)) as [|ks l IH]; [constructor|].
  rewrite filter_cons. inversion H as [|? ? Hnin Hnd]; subst.
  case_decide; [|by apply IH]. simpl. constructor; [|by apply IH].
  intros Hin. apply Hnin. apply list_elem_of_fmap in Hin as (y & -> & Hy).
  apply list_elem_of_filter in Hy as [_ Hy]. by apply list_elem_of_fmap_2.
Qed.

(** *** [get_session_statistics] *)

Lemma sumZ_app l1 l2 : sumZ (l1 ++ l2) = sumZ l1 + sumZ l2.
Proof. unfold sumZ. induction l1 as [|x l1 IH]; simpl; [done|]. rewrite IH. lia. Qed.

(** Over sessions of distinct keys, the rows of one message table add up
    to the rows that join one of the sessions. *)
Lemma sumZ_cons x l : sumZ (x :: l) = x + sumZ l.
Proof. reflexivity. Qed.

Lemma count_messages_cons m msgs sid :
  count_messages (m :: msgs) sid =
  (if decide (msg_session_id m = sid) then 1 else 0) + count_messages msgs sid.
Proof.
  unfold count_messages. rewrite filter_cons. case_decide; simpl length; lia.
Qed.

Lemma sum_counts_nil (L : list keyed_session) :
  sumZ ((λ ks, count_messages [] ks.1) <$> L) = 0.
Proof.
  induction L as [|ks L IH]; [done|]. rewrite fmap_cons, sumZ_cons, IH. done.
Qed.

Lemma sum_counts_cons (L : list keyed_session) m msgs :
  NoDup L.*1 →
  sumZ ((λ ks, count_messages (m :: msgs) ks.1) <$> L) =
  (if decide (msg_session_id m ∈ L.*1) then 1 else 0) +
  sumZ ((λ ks, count_messages msgs ks.1) <$> L).
Proof.
  induction L as [|ks L IH]; intros Hnd.
  - rewrite !fmap_nil. case_decide as E; [by apply elem_of_nil in E|done].
  - rewrite !fmap_cons, !sumZ_cons. apply NoDup_cons in Hnd as [Hnin Hnd].
    rewrite (IH Hnd), count_messages_cons.
    destruct (decide (msg_session_id m = ks.1)) as [Heq|Hne].
    + rewrite (decide_True (P := msg_session_id m ∈ ks.1 :: L.*1)) by (rewrite Heq; by left).
      rewrite (decide_False (P := msg_session_id m ∈ L.*1)) by (by rewrite Heq).
      lia.
    + destruct (decide (msg_session_id m ∈ L.*1)) as [Hin|Hnin'].
      * rewrite (decide_True (P := msg_session_id m ∈ ks.1 :: L.*1)) by by right. lia.
      * rewrite (decide_False (P := msg_session_id m ∈ ks.1 :: L.*1))
          by (intros Hc; apply elem_of_cons in Hc as [?|?]; done).
        lia.
Qed.

(** Over sessions of distinct keys, the rows counted session by session
    add up to the rows that join one of the sessions. *)
Lemma sum_counts_join (L : list keyed_session) (msgs : list message_row) :
  NoDup L.*1 →
  sumZ ((λ ks, count_messages msgs ks.1) <$> L) =
  Z.of_nat (length (filter (λ m, msg_session_id m ∈ L.*1) msgs)).
Proof.
  intros Hnd. induction msgs as [|m msgs IH].
  - by rewrite sum_counts_nil.
  - rewrite (sum_counts_cons L m msgs Hnd), IH, filter_cons.
    case_decide; simpl length; lia.
Qed.

Lemma joins_active_keys d login m :
  joins_active d login m ↔ msg_session_id m ∈ (active_sessions_of d login).*1.
Proof.
  unfold joins_active. split.
  - destruct (chat_sessions d !! msg_session_id m) as [s|] eqn:E; [|done].
    intros [Hu Ha]. apply list_elem_of_fmap. exists (msg_session_id m, s).
    split; [done|]. by apply elem_of_active_sessions.
  - intros Hin. apply list_elem_of_fmap in Hin as ([sid s] & Heq & Hks).
    apply elem_of_active_sessions in Hks as (Hl & Hu & Ha). simpl in *. subst sid.
    by rewrite Hl.
Qed.

End SessionMoreFacts.

(** ** Further properties of the session store *)
Module SessionExtras.
Import PyStr PyTime Sessions SessionClaims SessionFacts SessionQueries SessionMoreFacts.
Local Open Scope string_scope.
Local Open Scope list_scope.
Local Open Scope Z_scope.

(** X1.  [load_session_messages] returns the rows of the session, all of
    them and no others, in ascending order of [message_index]; a session
    without rows, stored or not, gives the empty list. *)
Theorem X1_load_session_messages_ordered (d : db) (sid : string) :
  Permutation (load_session_messages d sid)
              (filter (λ m, msg_session_id m = sid) (chat_messages d)) ∧
  Sorted index_le (load_session_messages d sid) ∧
  (∀ m, m ∈ load_session_messages d sid ↔ m ∈ chat_messages d ∧ msg_session_id m = sid) ∧
  ((∀ m, m ∈ chat_messages d → msg_session_id m ≠ sid) → load_session_messages d sid = []).
Proof.
  split_and!.
  - apply load_perm.
  - apply load_sorted.
  - intros m. rewrite (load_perm d sid), list_elem_of_filter. tauto.
  - intros H. destruct (load_session_messages d sid) as [|m l] eqn:E; [done|].
    assert (Hin : m ∈ load_session_messages d sid) by (rewrite E; by left).
    rewrite (load_perm d sid) in Hin. apply list_elem_of_filter in Hin as [Hs Hm].
    by destruct (H m Hm).
Qed.



Lemma update_session_title_lookup now d sid t sid' :
  chat_sessions (update_session_title now d sid t) !! sid' =
  if decide (sid = sid')
  then (λ s, mkSession (user_login s) t (created_at s) (isoformat now)
               (message_count s) (is_active s)) <$> chat_sessions d !! sid'
  else chat_sessions d !! sid'.
Proof.
  unfold update_session_title; simpl. case_decide as E.
  - subst. by rewrite lookup_alter_eq.
  - by rewrite lookup_alter_ne.
Qed.

(** The database after the DELETE and the saves of a rewrite. *)
Lemma rewrite_saves now d sid msgs :
  msgs ≠ [] →
  let d2 := save_all now (mkDb (chat_sessions d) (delete_messages (chat_messages d) sid)
                               (last_message_id d)) sid 0 msgs in
  (row_view <$> load_session_messages d2 sid) = numbered 0 msgs ∧
  (∀ s, chat_sessions d2 !! sid = Some s → message_count s = Z.of_nat (length msgs)) ∧
  (∀ sid', sid' ≠ sid → load_session_messages d2 sid' = load_session_messages d sid').
Proof.
  intros Hne. cbv zeta. split_and!.
  - rewrite save_all_transcript.
    + unfold load_session_messages at 1. simpl chat_messages.
      by rewrite filter_delete_messages.
    + intros x Hx Hs. simpl in Hx. apply elem_of_delete_messages in Hx as [_ Hx]. done.
  - intros s Hs. rewrite (save_all_count _ _ _ _ _ _ Hne Hs), <- load_length.
    f_equal. rewrite <- (length_numbered 0 msgs), <- (length_fmap row_view).
    f_equal. rewrite save_all_transcript.
    + unfold load_session_messages at 1. simpl chat_messages.
      by rewrite filter_delete_messages.
    + intros x Hx Hsx. simpl in Hx. apply elem_of_delete_messages in Hx as [_ Hx]. done.
  - intros sid' Hne'. rewrite save_all_messages_other by done.
    unfold load_session_messages. simpl chat_messages.
    by rewrite filter_delete_messages_other.
Qed.

Lemma save_current_session_spec
    (now : datetime) (d : db) (ss : session_state) (sid : string)
    (Hcur : current_session_id ss = Some sid)
    (Hsid : sid ≠ EmptyString) (Hmsgs : messages ss ≠ []) :
  let d' := fst (save_current_session now d ss) in
  transcript d' sid = numbered 0 (messages ss) ∧
  (∀ s, chat_sessions d' !! sid = Some s →
        message_count s = Z.of_nat (length (messages ss))) ∧
  (∀ sid', sid' ≠ sid → load_session_messages d' sid' = load_session_messages d sid').
Proof.
  cbv zeta. unfold save_current_session. rewrite Hcur.
  assert (Hguard : negb (truthy sid) || match messages ss with [] => true | _ => false end
                   = false).
  { destruct sid; [done|]. destruct (messages ss); done. }
  rewrite Hguard.
  destruct (rewrite_saves now d sid (messages ss) Hmsgs) as (Ht & Hc & Ho).
  set (d2 := save_all now _ sid 0 (messages ss)) in *.
  assert (Hsame : ∀ d3, chat_messages d3 = chat_messages d2 →
            (∀ s, chat_sessions d3 !! sid = Some s →
                  ∃ s2, chat_sessions d2 !! sid = Some s2 ∧ message_count s = message_count s2) →
            transcript d3 sid = numbered 0 (messages ss) ∧
            (∀ s, chat_sessions d3 !! sid = Some s →
                  message_count s = Z.of_nat (length (messages ss))) ∧
            (∀ sid', sid' ≠ sid →
                  load_session_messages d3 sid' = load_session_messages d sid')).
  { intros d3 Hm Hs. split_and!.
    - unfold transcript. rewrite (load_same_messages d2 d3 sid Hm). exact Ht.
    - intros s Hl. destruct (Hs s Hl) as (s2 & Hl2 & ->). by apply Hc.
    - intros sid' Hne. rewrite (load_same_messages d2 d3 sid' Hm). by apply Ho. }
  assert (Hd2 : transcript d2 sid = numbered 0 (messages ss) ∧
            (∀ s, chat_sessions d2 !! sid = Some s →
                  message_count s = Z.of_nat (length (messages ss))) ∧
            (∀ sid', sid' ≠ sid →
                  load_session_messages d2 sid' = load_session_messages d sid')).
  { apply Hsame; [done|]. intros s Hl. by exists s. }
  destruct (session_needs_title ss); [|exact Hd2].
  destruct (first_user_message (messages ss)) as [fm|]; [|exact Hd2].
  destruct (truthy fm); [|exact Hd2].
  simpl fst. apply Hsame; [done|].
  intros s Hl. rewrite update_session_title_lookup in Hl.
  rewrite decide_True in Hl by done.
  destruct (chat_sessions d2 !! sid) as [s2|]; [|done].
  exists s2. split; [done|]. simpl in Hl. by injection Hl as <-.
Qed.

(** X3.  After the rewrite of a session ([save_current_session] with a
    current session and a transcript that is not empty) the session loads
    as the transcript of the UI, numbered from 0 without gaps; the counter
    of the session, when it is stored, is the length of the transcript; and
    the other sessions load as before. *)
Theorem X3_rewrite_stores_the_transcript
    (now : datetime) (d : db) (ss : session_state) (sid : string)
    (Hcur : current_session_id ss = Some sid)
    (Hsid : sid ≠ EmptyString) (Hmsgs : messages ss ≠ []) :
  let d' := fst (save_current_session now d ss) in
  transcript d' sid = numbered 0 (messages ss) ∧
  (∀ s, chat_sessions d' !! sid = Some s →
        message_count s = Z.of_nat (length (messages ss))) ∧
  (∀ sid', sid' ≠ sid → load_session_messages d' sid' = load_session_messages d sid').
Proof. exact (save_current_session_spec now d ss sid Hcur Hsid Hmsgs). Qed.

(** X3 (witness): the transcript Hello is written over session s1. *)
Lemma X3_witness :
  transcript (fst (save_current_session noon fady_db fady_ui)) "s1" = [(0, "user", "Hello")].
Proof.
  exact (proj1 (X3_rewrite_stores_the_transcript noon fady_db fady_ui "s1" eq_refl
                  ltac:(discriminate) ltac:(discriminate))).
Defined.


(** X4.  A session created under an identifier that is not stored is
    stored with its owner, no messages counted and active; the messages and
    the other sessions are untouched; the owner can delete it at once, which
    brings the session table back, and nobody else can.  Under an
    identifier that is already stored nothing is written and the
    identifier returned is the second draw. *)
Theorem X4_create_new_session_then_delete
    (now : datetime) (uuid_a uuid_b : string) (d : db) (login title : string)
    (Hfresh : chat_sessions d !! uuid_a = None) :
  let d' := fst (create_new_session now uuid_a uuid_b d login title) in
  snd (create_new_session now uuid_a uuid_b d login title) = uuid_a ∧
  (∃ s, chat_sessions d' !! uuid_a = Some s ∧ user_login s = login ∧
        message_count s = 0 ∧ is_active s = true ∧
        (title ≠ EmptyString → session_title s = title)) ∧
  chat_messages d' = chat_messages d ∧
  (∀ sid, sid ≠ uuid_a → chat_sessions d' !! sid = chat_sessions d !! sid) ∧
  delete_session d' uuid_a login =
    (mkDb (chat_sessions d) (delete_messages (chat_messages d) uuid_a) (last_message_id d),
     true) ∧
  (∀ other, other ≠ login → delete_session d' uuid_a other = (d', false)) ∧
  (∀ d0 s0, chat_sessions d0 !! uuid_a = Some s0 →
            create_new_session now uuid_a uuid_b d0 login title = (d0, uuid_b)).
Proof.
  cbv zeta. unfold create_new_session. rewrite Hfresh. simpl fst. simpl snd.
  split_and!.
  - done.
  - eexists. split; [apply lookup_insert_eq|]. simpl. split_and!; try done.
    intros Ht. by destruct title.
  - done.
  - intros sid Hne. simpl. by rewrite lookup_insert_ne.
  - unfold delete_session. simpl chat_sessions. rewrite lookup_insert_eq. simpl user_login.
    rewrite String.eqb_refl. simpl. by rewrite delete_insert_id.
  - intros other Hne. unfold delete_session. simpl chat_sessions.
    rewrite lookup_insert_eq. simpl user_login.
    destruct (String.eqb login other) eqn:E; [|done].
    apply String.eqb_eq in E. congruence.
  - intros d0 s0 H0. by rewrite H0.
Qed.

(** X4 (witness): a second session for Fady. *)
Lemma X4_witness :
  snd (create_new_session noon "s9" "s10" fady_db "Fady" "Prices") = "s9" ∧
  delete_session (fst (create_new_session noon "s9" "s10" fady_db "Fady" "Prices")) "s9" "Fady" =
    (mkDb (chat_sessions fady_db) (delete_messages (chat_messages fady_db) "s9")
          (last_message_id fady_db), true).
Proof.
  pose proof (X4_create_new_session_then_delete noon "s9" "s10" fady_db "Fady" "Prices"
                eq_refl) as H.
  cbv zeta in H. exact (conj (proj1 H) (proj1 (proj2 (proj2 (proj2 (proj2 H)))))).
Defined.

Lemma get_user_sessions_spec d login limit ks :
  ks ∈ get_user_sessions d login limit →
  chat_sessions d !! ks.1 = Some ks.2 ∧ user_login ks.2 = login ∧ is_active ks.2 = true.
Proof.
  unfold get_user_sessions. intros H. apply elem_of_limit_rows in H.
  rewrite <- (order_sessions_perm _) in H. by apply elem_of_active_sessions.
Qed.

Lemma get_user_sessions_all d login limit ks :
  limit < 0 →
  (ks ∈ get_user_sessions d login limit ↔
   chat_sessions d !! ks.1 = Some ks.2 ∧ user_login ks.2 = login ∧ is_active ks.2 = true).
Proof.
  intros Hl. unfold get_user_sessions, limit_rows.
  assert (E : (limit <? 0) = true) by by apply Z.ltb_lt.
  rewrite E, <- (order_sessions_perm _). apply elem_of_active_sessions.
Qed.

(** X5.  [archive_session] checks the owner: another caller gets [False]
    and nothing changes.  For the owner the session is marked inactive and
    keeps its owner, title and counter; no message is touched, so the
    session still loads as before; the session is no longer listed for
    anyone, the listing of every other session is unchanged, and the owner
    can still delete it. *)
Theorem X5_archive_session_hides_and_keeps
    (now : datetime) (d : db) (sid owner : string) (s : session_row)
    (Hstored : chat_sessions d !! sid = Some s)
    (Howner : user_login s = owner) :
  (∀ caller, caller ≠ owner → archive_session now d sid caller = (d, false)) ∧
  (let d' := fst (archive_session now d sid owner) in
   snd (archive_session now d sid owner) = true ∧
   (∃ s', chat_sessions d' !! sid = Some s' ∧ is_active s' = false ∧
          user_login s' = owner ∧ session_title s' = session_title s ∧
          message_count s' = message_count s) ∧
   chat_messages d' = chat_messages d ∧
   load_session_messages d' sid = load_session_messages d sid ∧
   (∀ login limit ks, ks ∈ get_user_sessions d' login limit → ks.1 ≠ sid) ∧
   (∀ login ks, ks.1 ≠ sid →
      (ks ∈ get_user_sessions d' login (-1) ↔ ks ∈ get_user_sessions d login (-1))) ∧
   snd (delete_session d' sid owner) = true).
Proof.
  split.
  - intros caller Hne. unfold archive_session. rewrite Hstored.
    destruct (String.eqb (user_login s) caller) eqn:E; [|done].
    apply String.eqb_eq in E. congruence.
  - cbv zeta. unfold archive_session. rewrite Hstored.
    assert (E : String.eqb (user_login s) owner = true) by by apply String.eqb_eq.
    rewrite E. simpl fst. simpl snd. split_and!.
    + done.
    + eexists. split; [apply lookup_insert_eq|]. by simpl.
    + done.
    + done.
    + intros login limit ks Hks Heq. apply get_user_sessions_spec in Hks as (Hl & _ & Ha).
      simpl in Hl. rewrite Heq, lookup_insert_eq in Hl. injection Hl as Hl.
      rewrite <- Hl in Ha. discriminate.
    + intros login ks Hne. rewrite !get_user_sessions_all by lia. simpl chat_sessions.
      by rewrite lookup_insert_ne.
    + unfold delete_session. simpl chat_sessions. rewrite lookup_insert_eq. simpl user_login.
      by rewrite E.
Qed.

(** X5 (witness): Fady archives s1. *)
Lemma X5_witness :
  snd (archive_session noon fady_db "s1" "Fady") = true ∧
  load_session_messages (fst (archive_session noon fady_db "s1" "Fady")) "s1" =
    load_session_messages fady_db "s1".
Proof.
  pose proof (proj2 (X5_archive_session_hides_and_keeps noon fady_db "s1" "Fady"
    (mkSession "Fady" "Chat Session - 2024-03-15 12:00" "2024-03-15T12:00:00"
               "2024-03-15T12:00:00" 1 true) eq_refl eq_refl)) as H.
  cbv zeta in H. exact (conj (proj1 H) (proj1 (proj2 (proj2 (proj2 H))))).
Defined.


Lemma sumZ_perm l l' : Permutation l l' → sumZ l = sumZ l'.
Proof.
  induction 1 as [|x l l' _ IH|x y l|l l' l'' _ IH1 _ IH2]; rewrite ?sumZ_cons;
    [done|by rewrite IH|lia|congruence].
Qed.

Lemma fmap_ext_in {A B} (f g : A → B) (l : list A) :
  (∀ x, x ∈ l → f x = g x) → f <$> l = g <$> l.
Proof.
  induction l as [|x l IH]; intros H; [done|].
  rewrite !fmap_cons, (H x) by by left. f_equal. apply IH. intros y Hy. apply H. by right.
Qed.

Lemma get_user_sessions_unlimited d login :
  get_user_sessions d login (-1) = order_by_last_updated_desc (active_sessions_of d login).
Proof. reflexivity. Qed.

Lemma get_session_statistics_some now d login stats :
  get_session_statistics now d login = Some stats →
  total_sessions stats = Z.of_nat (length (active_sessions_of d login)) ∧
  total_messages stats = Z.of_nat (length (filter (joins_active d login) (chat_messages d))) ∧
  0 <= recent_sessions stats <= Z.of_nat (length (active_sessions_of d login)).
Proof.
  unfold get_session_statistics.
  destruct ((1 <=? year (sub_days now 7)) && (year (sub_days now 7) <=? 9999)); [|done].
  intros [= <-]. cbn [total_sessions total_messages recent_sessions].
  split_and!; [done|done|lia|]. apply Nat2Z.inj_le, length_filter.
Qed.

(** X7.  The statistics of a user agree with the listing: the number of
    sessions is the number of sessions listed without a limit, the number
    of messages is the number of rows of the listed sessions, which is the
    sum of their counters when the counters are right, and the recent
    sessions are some of the sessions. *)
Theorem X7_session_statistics_agree_with_listing
    (now : datetime) (d : db) (login : string) (stats : session_statistics)
    (Hstats : get_session_statistics now d login = Some stats) :
  total_sessions stats = Z.of_nat (length (get_user_sessions d login (-1))) ∧
  total_messages stats =
    sumZ ((λ ks, count_messages (chat_messages d) ks.1) <$> get_user_sessions d login (-1)) ∧
  (counts_consistent d →
   total_messages stats = sumZ ((λ ks, message_count ks.2) <$> get_user_sessions d login (-1))) ∧
  0 <= recent_sessions stats <= total_sessions stats.
Proof.
  destruct (get_session_statistics_some now d login stats Hstats) as (Ht & Hm & Hr).
  pose proof (get_user_sessions_unlimited d login) as Hlist.
  assert (Hsum : total_messages stats =
    sumZ ((λ ks, count_messages (chat_messages d) ks.1) <$> get_user_sessions d login (-1))).
  { rewrite Hm, Hlist.
    assert (Hp : Permutation
              ((λ ks, count_messages (chat_messages d) ks.1) <$> active_sessions_of d login)
              ((λ ks, count_messages (chat_messages d) ks.1) <$>
                 order_by_last_updated_desc (active_sessions_of d login))).
    { apply fmap_Permutation, order_sessions_perm. }
    rewrite <- (sumZ_perm _ _ Hp).
    rewrite (sum_counts_join _ _ (NoDup_active_sessions d login)).
    f_equal. f_equal. apply list_filter_iff. intros m. apply joins_active_keys. }
  split_and!.
  - rewrite Ht, Hlist. by rewrite <- (Permutation_length (order_sessions_perm _)).
  - exact Hsum.
  - intros Hcons. rewrite Hsum. f_equal. apply fmap_ext_in. intros ks Hks.
    apply get_user_sessions_spec in Hks as (Hl & _ & _). symmetry. by apply Hcons.
  - lia.
  - lia.
Qed.

(** X7 (witness): the statistics of Fady. *)
Lemma X7_witness :
  get_session_statistics noon fady_db "Fady" = Some (mkSessionStats 1 1 1) ∧
  total_sessions (mkSessionStats 1 1 1) =
    Z.of_nat (length (get_user_sessions fady_db "Fady" (-1))).
Proof.
  assert (H : get_session_statistics noon fady_db "Fady" = Some (mkSessionStats 1 1 1))
    by (vm_compute; reflexivity).
  split; [exact H|].
  exact (proj1 (X7_session_statistics_agree_with_listing noon fady_db "Fady" _ H)).
Defined.


Lemma alter_missing {A} (f : A → A) (m : gmap string A) (i : string) :
  m !! i = None → alter f i m = m.
Proof.
  intros H. apply map_eq. intros j. destruct (decide (i = j)) as [->|Hne].
  - by rewrite lookup_alter_eq, H.
  - by rewrite lookup_alter_ne.
Qed.

Lemma archive_session_consistent now d sid login :
  counts_consistent d → counts_consistent (fst (archive_session now d sid login)).
Proof.
  intros Hcons. unfold archive_session.
  destruct (chat_sessions d !! sid) as [s|] eqn:E; [|done].
  destruct (String.eqb (user_login s) login); [|done]. simpl.
  intros sid' s'. simpl. destruct (decide (sid' = sid)) as [->|Hne].
  - rewrite lookup_insert_eq. intros [= <-]. simpl. by apply Hcons.
  - rewrite lookup_insert_ne by done. apply Hcons.
Qed.

Lemma create_new_session_consistent now uuid_a uuid_b d login title :
  counts_consistent d → count_messages (chat_messages d) uuid_a = 0 →
  counts_consistent (fst (create_new_session now uuid_a uuid_b d login title)).
Proof.
  intros Hcons H0. unfold create_new_session.
  destruct (chat_sessions d !! uuid_a) as [s|] eqn:E; [done|]. simpl.
  intros sid' s'. simpl. destruct (decide (sid' = uuid_a)) as [->|Hne].
  - rewrite lookup_insert_eq. intros [= <-]. simpl. by rewrite H0.
  - rewrite lookup_insert_ne by done. apply Hcons.
Qed.

Lemma empty_db_consistent : counts_consistent empty_db.
Proof. intros sid s Hs. simpl in Hs. by rewrite lookup_empty in Hs. Qed.

Lemma fady_db_consistent : counts_consistent fady_db.
Proof.
  unfold fady_db. apply save_message_restores, consistent_weaken.
  apply create_new_session_consistent; [apply empty_db_consistent|reflexivity].
Qed.

(** X8.  Renaming, archiving and creating keep the counter of every stored
    session equal to the number of its rows (creating, when no row carries
    the new identifier); renaming or archiving a session that is not
    stored changes nothing. *)
Theorem X8_other_writes_keep_the_counter
    (now : datetime) (d : db) (Hcons : counts_consistent d) :
  (∀ sid t, counts_consistent (update_session_title now d sid t)) ∧
  (∀ sid login, counts_consistent (fst (archive_session now d sid login))) ∧
  (∀ uuid_a uuid_b login title,
     count_messages (chat_messages d) uuid_a = 0 →
     counts_consistent (fst (create_new_session now uuid_a uuid_b d login title))) ∧
  (∀ sid t login, chat_sessions d !! sid = None →
     update_session_title now d sid t = d ∧ archive_session now d sid login = (d, false)).
Proof.
  split_and!.
  - intros sid t. by apply update_session_title_consistent.
  - intros sid login. by apply archive_session_consistent.
  - intros uuid_a uuid_b login title H0. by apply create_new_session_consistent.
  - intros sid t login Hnone. split.
    + unfold update_session_title. rewrite alter_missing by done. by destruct d.
    + unfold archive_session. by rewrite Hnone.
Qed.

(** X8 (witness): the small database, where the counter of s1 is right. *)
Lemma X8_witness :
  counts_consistent fady_db ∧
  counts_consistent (update_session_title noon fady_db "s1" "Prices").
Proof.
  split; [exact fady_db_consistent|].
  exact (proj1 (X8_other_writes_keep_the_counter noon fady_db fady_db_consistent)
               "s1" "Prices").
Defined.

Lemma save_if_needed_cases now d ss sid :
  current_session_id ss = Some sid → sid ≠ EmptyString → messages ss ≠ [] →
  save_current_session_if_needed now d ss =
  if (length (messages ss) =? length (load_session_messages d sid))%nat
  then (d, ss) else save_current_session now d ss.
Proof.
  intros Hcur Hsid Hmsgs. unfold save_current_session_if_needed. rewrite Hcur.
  destruct (messages ss) as [|m msgs]; [done|]. by destruct sid.
Qed.

(** X9.  With a current session and a transcript that is not empty,
    [save_current_session_if_needed] leaves as many stored messages as the
    UI holds; when the numbers already agree it writes nothing, whatever
    the messages say. *)
Theorem X9_save_if_needed_compares_lengths
    (now : datetime) (d : db) (ss : session_state) (sid : string)
    (Hcur : current_session_id ss = Some sid)
    (Hsid : sid ≠ EmptyString) (Hmsgs : messages ss ≠ []) :
  length (load_session_messages (fst (save_current_session_if_needed now d ss)) sid) =
    length (messages ss) ∧
  (length (messages ss) = length (load_session_messages d sid) →
   save_current_session_if_needed now d ss = (d, ss)) ∧
  (length (messages ss) ≠ length (load_session_messages d sid) →
   save_current_session_if_needed now d ss = save_current_session now d ss).
Proof.
  rewrite (save_if_needed_cases now d ss sid Hcur Hsid Hmsgs).
  destruct (length (messages ss) =? length (load_session_messages d sid))%nat eqn:E.
  - apply Nat.eqb_eq in E. split_and!; [by simpl|done|done].
  - apply Nat.eqb_neq in E. split_and!; [|done|done].
    pose proof (proj1 (save_current_session_spec now d ss sid Hcur Hsid Hmsgs)) as Ht.
    cbv zeta in Ht. unfold transcript in Ht.
    apply (f_equal length) in Ht. rewrite length_map, length_numbered in Ht. exact Ht.
Qed.


(** X9 (witness): the UI holds two messages, the database one. *)
Lemma X9_witness :
  length (load_session_messages
            (fst (save_current_session_if_needed noon fady_db
                    (mkState (Some "s1") [mkUi "user" "Hello"; mkUi "assistant" "Hi there"]
                             false))) "s1") = 2%nat.
Proof.
  exact (proj1 (X9_save_if_needed_compares_lengths noon fady_db
                  (mkState (Some "s1") [mkUi "user" "Hello"; mkUi "assistant" "Hi there"] false)
                  "s1" eq_refl ltac:(discriminate) ltac:(discriminate))).
Defined.

Lemma save_if_needed_after_load now d sid needs :
  save_current_session_if_needed now d
    (mkState (Some sid) (to_ui <$> load_session_messages d sid) needs) =
  (d, mkState (Some sid) (to_ui <$> load_session_messages d sid) needs).
Proof.
  unfold save_current_session_if_needed. simpl messages. simpl current_session_id.
  destruct (to_ui <$> load_session_messages d sid) as [|m l] eqn:E; [done|].
  destruct (negb (truthy sid)); [done|].
  rewrite <- E, length_fmap, Nat.eqb_refl. done.
Qed.

(** X10.  [load_session] makes the session current with the transcript
    that is stored, and a transcript just loaded counts as saved:
    [save_current_session_if_needed] right after it writes nothing. *)
Theorem X10_loaded_session_needs_no_saving
    (now now' : datetime) (d : db) (ss : session_state) (sid : string) :
  let r := load_session now d ss sid in
  r.1 = fst (save_current_session_if_needed now d ss) ∧
  r.2 = mkState (Some sid) (to_ui <$> load_session_messages r.1 sid) false ∧
  length (messages r.2) = length (load_session_messages r.1 sid) ∧
  save_current_session_if_needed now' r.1 r.2 = r.
Proof.
  cbv zeta. unfold load_session.
  destruct (save_current_session_if_needed now d ss) as [d1 ss1]. simpl.
  split_and!; [done|done|by rewrite length_fmap|apply save_if_needed_after_load].
Qed.

(** *** The order of time stamps as text *)

Lemma leb_refl a : PyStr.leb a a = true.
Proof.
  unfold PyStr.leb.
  pose proof (proj2 (OrderedTypeEx.String_as_OT.cmp_eq a a) eq_refl) as H.
  unfold OrderedTypeEx.String_as_OT.cmp in H. by rewrite H.
Qed.

Lemma leb_trans a b c : PyStr.leb a b = true → PyStr.leb b c = true → PyStr.leb a c = true.
Proof.
  unfold PyStr.leb. intros Hab Hbc.
  destruct (String.compare a b) eqn:Eab; [| |done].
  - apply OrderedTypeEx.String_as_OT.cmp_eq in Eab. by subst.
  - destruct (String.compare b c) eqn:Ebc; [| |done].
    + apply OrderedTypeEx.String_as_OT.cmp_eq in Ebc. subst. by rewrite Eab.
    + apply OrderedTypeEx.String_as_OT.cmp_lt in Eab, Ebc.
      pose proof (OrderedTypeEx.String_as_OT.lt_trans _ _ _ Eab Ebc) as Hac.
      apply OrderedTypeEx.String_as_OT.cmp_lt in Hac.
      unfold OrderedTypeEx.String_as_OT.cmp in Hac. by rewrite Hac.
Qed.

Lemma sorted_head_first (l : list keyed_session) ks rest :
  Sorted updated_not_before l → l = ks :: rest →
  ∀ other, other ∈ l → updated_not_before ks other.
Proof.
  intros Hs -> other Hin.
  assert (Htrans : Relations_1.Transitive updated_not_before).
  { intros x y z Hxy Hyz. unfold updated_not_before in *. by eapply leb_trans. }
  apply (Sorted_StronglySorted Htrans) in Hs. apply StronglySorted_inv in Hs as [_ Hall].
  apply elem_of_cons in Hin as [->|Hin].
  - apply leb_refl.
  - rewrite Forall_forall in Hall. exact (Hall _ Hin).
Qed.

(** X11.  [initialize_session_for_user] leaves a current session in every
    case.  A current session that is already set is kept.  Otherwise, when
    the user has an active session, the database is not written, the
    session chosen is a stored active session of the user that no other one
    of them was updated after, its stored transcript is loaded, and nothing
    is pending to save; when the user has none, a session is created. *)
Theorem X11_initialize_picks_the_latest_session
    (now now' : datetime) (uuid_a uuid_b : string) (d : db) (ss : session_state)
    (login : string) :
  let r := initialize_session_for_user now uuid_a uuid_b d ss login in
  is_Some (current_session_id r.2) ∧
  (is_Some (current_session_id ss) → r = (d, ss)) ∧
  (current_session_id ss = None →
   ∀ ks rest, get_user_sessions d login 1 = ks :: rest →
     r = (d, mkState (Some ks.1) (to_ui <$> load_session_messages d ks.1) false) ∧
     chat_sessions d !! ks.1 = Some ks.2 ∧ user_login ks.2 = login ∧ is_active ks.2 = true ∧
     (∀ other, other ∈ active_sessions_of d login → updated_not_before ks other) ∧
     save_current_session_if_needed now' r.1 r.2 = r) ∧
  (current_session_id ss = None → get_user_sessions d login 1 = [] →
     active_sessions_of d login = [] ∧
     r = (fst (create_new_session now uuid_a uuid_b d login EmptyString),
          mkState (Some (snd (create_new_session now uuid_a uuid_b d login EmptyString)))
                  [] true)).
Proof.
  cbv zeta. unfold initialize_session_for_user.
  destruct (current_session_id ss) as [cur|] eqn:Hcur.
  - split_and!; [simpl; rewrite Hcur; by eexists|done|done|done].
  - destruct (get_user_sessions d login 1) as [|ks rest] eqn:Hlist.
    + split_and!.
      * destruct (create_new_session now uuid_a uuid_b d login EmptyString). by simpl.
      * intros [? ?]. done.
      * done.
      * intros _ _. split.
        -- unfold get_user_sessions, limit_rows in Hlist. simpl in Hlist.
           destruct (order_by_last_updated_desc (active_sessions_of d login)) as [|x l] eqn:E;
             [|done].
           pose proof (order_sessions_perm (active_sessions_of d login)) as Hp.
           rewrite E in Hp. by apply Permutation_nil_r in Hp.
        -- by destruct (create_new_session now uuid_a uuid_b d login EmptyString).
    + split_and!.
      * by simpl.
      * intros [? ?]. done.
      * intros _ ks' rest' [= <- <-].
        assert (Hin : ks ∈ get_user_sessions d login 1) by (rewrite Hlist; by left).
        apply get_user_sessions_spec in Hin as (Hl & Hu & Ha).
        split_and!; try done.
        -- intros other Ho.
           unfold get_user_sessions, limit_rows in Hlist. simpl in Hlist.
           destruct (order_by_last_updated_desc (active_sessions_of d login)) as [|x l] eqn:E;
             [done|].
           simpl in Hlist. injection Hlist as -> _.
           apply (sorted_head_first (ks :: l) ks l); [|done|].
           ++ rewrite <- E. apply order_sessions_sorted.
           ++ rewrite <- E, <- (order_sessions_perm _). exact Ho.
        -- apply save_if_needed_after_load.
      * done.
Qed.

End SessionExtras.

(** ** The chat handlers keep the stored transcript in step *)
Module AppExtras.
Import PyStr PyTime Sessions SessionClaims SessionFacts SessionQueries SessionMoreFacts
  AppHandlers.
Local Open Scope string_scope.
Local Open Scope list_scope.
Local Open Scope Z_scope.

Lemma numbered_app a : ∀ i b,
  numbered i (a ++ b) = numbered i a ++ numbered (i + Z.of_nat (length a)) b.
Proof.
  induction a as [|m a IH]; intros i b; simpl.
  - by rewrite Z.add_0_r.
  - rewrite IH. do 3 f_equal. lia.
Qed.

Lemma numbered_index msgs : ∀ i k r c,
  (k, r, c) ∈ numbered i msgs → i <= k < i + Z.of_nat (length msgs).
Proof.
  induction msgs as [|m msgs IH]; intros i k r c Hin; simpl in *.
  - by apply elem_of_nil in Hin.
  - apply elem_of_cons in Hin as [[= -> _ _]|Hin]; [lia|].
    apply IH in Hin. lia.
Qed.

(** In step, every stored index of the session is below the length of the
    transcript. *)
Lemma in_step_bound d sid msgs :
  (row_view <$> load_session_messages d sid) = numbered 0 msgs →
  ∀ x, x ∈ chat_messages d → msg_session_id x = sid →
       message_index x < Z.of_nat (length msgs).
Proof.
  intros Hstep x Hx Hs.
  assert (Hin : x ∈ load_session_messages d sid).
  { rewrite (load_perm d sid). apply list_elem_of_filter. by split. }
  apply (list_elem_of_fmap_2 row_view) in Hin. rewrite Hstep in Hin.
  destruct (numbered_index _ _ _ _ _ Hin). lia.
Qed.

Lemma save_message_in_step now d sid msgs rl ct :
  (row_view <$> load_session_messages d sid) = numbered 0 msgs →
  (row_view <$> load_session_messages
     (save_message now d sid rl ct (Z.of_nat (length (msgs ++ [mkUi rl ct])) - 1)) sid) =
  numbered 0 (msgs ++ [mkUi rl ct]).
Proof.
  intros Hstep. rewrite length_app. simpl length.
  replace (Z.of_nat (length msgs + 1) - 1) with (Z.of_nat (length msgs)) by lia.
  rewrite load_after_save.
  - rewrite fmap_app, Hstep, numbered_app. reflexivity.
  - intros x Hx Hs. pose proof (in_step_bound d sid msgs Hstep x Hx Hs). lia.
Qed.

Lemma current_session_some ss sid :
  current_session_id ss = Some sid → sid ≠ EmptyString → current_session ss = Some sid.
Proof. intros H Hne. unfold current_session. rewrite H. by destruct sid. Qed.

Lemma stored_count_is_length now d sid rl ct idx s :
  chat_sessions (save_message now d sid rl ct idx) !! sid = Some s →
  message_count s = Z.of_nat (length (load_session_messages (save_message now d sid rl ct idx) sid)).
Proof.
  intros Hs. rewrite load_length. rewrite save_message_lookup_same in Hs.
  destruct (chat_sessions d !! sid); simplify_eq/=. done.
Qed.

Lemma in_step_saved now d ss sid :
  in_step d ss sid → messages ss ≠ [] →
  save_current_session_if_needed now d ss = (d, ss).
Proof.
  intros (Hcur & Hsid & Hstep) Hne. unfold save_current_session_if_needed.
  destruct (messages ss) as [|m l] eqn:E; [done|]. rewrite Hcur.
  destruct sid as [|c sid]; [done|]. simpl negb. cbv iota.
  apply (f_equal length) in Hstep. rewrite length_fmap, length_numbered in Hstep.
  rewrite Hstep, Nat.eqb_refl. done.
Qed.

(** X12.  One turn of the chat ([app.py]) keeps the stored transcript in
    step with the UI: when the current session loads as the transcript of
    the UI numbered from 0, then after a prompt and its reply the UI holds
    the two new messages at its end and the session again loads as the
    transcript of the UI; the title is no longer pending; the counter of the
    session, when it is stored, is the length of the transcript; the other
    sessions load as before; and nothing is left for
    [save_current_session_if_needed] to save.  When the script stops before
    the reply, the prompt alone is appended and stored, in step as well. *)
Theorem X12_chat_turn_keeps_the_transcript_in_step
    (t_user t_reply t_title now' : datetime) (d : db) (ss : session_state)
    (sid prompt text : string)
    (Hstep : in_step d ss sid) (Hprompt : prompt ≠ EmptyString) :
  (let r := chat_turn t_user t_reply t_title d ss prompt (Some text) in
   messages r.2 = messages ss ++ [mkUi "user" prompt; mkUi "assistant" text] ∧
   in_step r.1 r.2 sid ∧
   session_needs_title r.2 = false ∧
   (∀ s, chat_sessions r.1 !! sid = Some s →
         message_count s = Z.of_nat (length (messages r.2))) ∧
   (∀ sid', sid' ≠ sid → load_session_messages r.1 sid' = load_session_messages d sid') ∧
   save_current_session_if_needed now' r.1 r.2 = r) ∧
  (let r := chat_turn t_user t_reply t_title d ss prompt None in
   messages r.2 = messages ss ++ [mkUi "user" prompt] ∧
   in_step r.1 r.2 sid ∧
   (∀ sid', sid' ≠ sid → load_session_messages r.1 sid' = load_session_messages d sid')).
Proof.
  destruct Hstep as (Hcur & Hsid & Hstep).
  pose proof (current_session_some ss sid Hcur Hsid) as Hc.
  pose proof (save_message_in_step t_user d sid (messages ss) "user" prompt Hstep) as H1.
  set (msgs1 := messages ss ++ [mkUi "user" prompt]) in *.
  set (d1 := save_message t_user d sid "user" prompt (Z.of_nat (length msgs1) - 1)) in *.
  pose proof (save_message_in_step t_reply d1 sid msgs1 "assistant" text H1) as H2.
  set (msgs2 := msgs1 ++ [mkUi "assistant" text]) in *.
  set (d2 := save_message t_reply d1 sid "assistant" text (Z.of_nat (length msgs2) - 1)) in *.
  assert (Hmsgs2 : msgs2 = messages ss ++ [mkUi "user" prompt; mkUi "assistant" text]).
  { unfold msgs2, msgs1. by rewrite <- app_assoc. }
  assert (Hother : ∀ sid', sid' ≠ sid →
            load_session_messages d2 sid' = load_session_messages d sid').
  { intros sid' Hne. unfold d2, d1. by rewrite !load_after_save_other. }
  assert (Hcount : ∀ s, chat_sessions d2 !! sid = Some s →
            message_count s = Z.of_nat (length msgs2)).
  { intros s Hs. rewrite (stored_count_is_length _ _ _ _ _ _ _ Hs).
    apply (f_equal length) in H2. rewrite length_fmap, length_numbered in H2.
    fold d2. by rewrite H2. }
  assert (Hne2 : msgs2 ≠ []).
  { unfold msgs2. intros E. by apply app_eq_nil in E as [_ ?]. }
  split.
  - cbv zeta. unfold chat_turn. destruct prompt as [|c prompt']; [done|].
    simpl negb. cbv iota. rewrite Hc. fold msgs1. fold d1. fold msgs2. fold d2.
    destruct (session_needs_title ss) eqn:Hneeds.
    + set (d3 := update_session_title t_title d2 sid _).
      assert (Hm3 : chat_messages d3 = chat_messages d2) by reflexivity.
      assert (Hstep3 : in_step d3 (mkState (current_session_id ss) msgs2 false) sid).
      { split_and!; [done|done|]. simpl messages.
        by rewrite (load_same_messages d2 d3 sid (eq_sym Hm3)). }
      cbn [fst snd messages session_needs_title].
      split_and!; [exact Hmsgs2|exact Hstep3|reflexivity| | |].
      * intros s Hs. unfold d3 in Hs. rewrite SessionExtras.update_session_title_lookup in Hs.
        rewrite decide_True in Hs by done.
        destruct (chat_sessions d2 !! sid) as [s2|] eqn:E2; [|done].
        simpl in Hs. injection Hs as <-. simpl. by apply Hcount.
      * intros sid' Hne. rewrite (load_same_messages d2 d3 sid' (eq_sym Hm3)).
        by apply Hother.
      * by apply (in_step_saved now' d3 _ sid).
    + assert (Hstep2 : in_step d2 (mkState (current_session_id ss) msgs2 false) sid).
      { split_and!; done. }
      cbn [fst snd messages session_needs_title].
      split_and!; [exact Hmsgs2|exact Hstep2|reflexivity|exact Hcount|exact Hother|].
      by apply (in_step_saved now' d2 _ sid).
  - cbv zeta. unfold chat_turn. destruct prompt as [|c prompt']; [done|].
    simpl negb. cbv iota. rewrite Hc. fold msgs1. fold d1.
    cbn [fst snd messages session_needs_title].
    split_and!; [reflexivity|by split_and!|].
    intros sid' Hne. unfold d1. by rewrite load_after_save_other.
Qed.

(** X12 (witness): Fady asks for a price after Hello. *)
Lemma X12_witness :
  in_step fady_db fady_ui "s1" ∧
  transcript (fst (chat_turn noon noon noon fady_db fady_ui "price of DMM6500"
                     (Some "It is listed at 1299."))) "s1" =
    [(0, "user", "Hello"); (1, "user", "price of DMM6500");
     (2, "assistant", "It is listed at 1299.")].
Proof.
  assert (Hstep : in_step fady_db fady_ui "s1") by (split_and!; done).
  split; [exact Hstep|].
  pose proof (proj1 (X12_chat_turn_keeps_the_transcript_in_step noon noon noon noon
                       fady_db fady_ui "s1" "price of DMM6500" "It is listed at 1299."
                       Hstep ltac:(discriminate))) as H.
  cbv zeta in H. destruct H as (_ & (_ & _ & H) & _). exact H.
Defined.

(** *** Clear Current Chat *)

Lemma save_message_absent now d sid rl ct idx k :
  chat_sessions (save_message now d sid rl ct idx) !! k = None ↔ chat_sessions d !! k = None.
Proof. unfold save_message; simpl. apply lookup_alter_None. Qed.

Lemma save_all_absent now msgs : ∀ d sid i k,
  chat_sessions (save_all now d sid i msgs) !! k = None ↔ chat_sessions d !! k = None.
Proof.
  induction msgs as [|m msgs IH]; intros d sid i k; simpl; [done|].
  by rewrite IH, save_message_absent.
Qed.

Lemma update_session_title_absent now d sid t k :
  chat_sessions (update_session_title now d sid t) !! k = None ↔ chat_sessions d !! k = None.
Proof. unfold update_session_title; simpl. apply lookup_alter_None. Qed.

(** The rewrite of a session stores no session that was not stored. *)
Lemma save_current_session_absent now d ss k :
  chat_sessions (fst (save_current_session now d ss)) !! k = None ↔
  chat_sessions d !! k = None.
Proof.
  unfold save_current_session. destruct (current_session_id ss) as [sid|]; [|done].
  destruct (negb (truthy sid) || _); [done|].
  set (d1 := mkDb _ _ _).
  assert (H2 : chat_sessions (save_all now d1 sid 0 (messages ss)) !! k = None ↔
               chat_sessions d !! k = None) by (by rewrite save_all_absent).
  destruct (session_needs_title ss); [|exact H2].
  destruct (first_user_message (messages ss)) as [fm|]; [|exact H2].
  destruct (truthy fm); [|exact H2].
  simpl fst. by rewrite update_session_title_absent.
Qed.

(** X13.  Clear Current Chat ([app.enhanced_reset_chat_history]) loses
    nothing: with a current session, a transcript that is not empty and a
    fresh identifier drawn, the old session afterwards loads as the whole
    transcript of the UI numbered from 0, the other sessions load as
    before, and the UI is on a new, empty session that awaits its title and
    is stored for the user, active, with no message counted. *)
Theorem X13_clear_chat_stores_the_transcript
    (t_save t_create : datetime) (uuid_a uuid_b : string) (d : db) (ss : session_state)
    (login sid : string)
    (Hcur : current_session_id ss = Some sid) (Hsid : sid ≠ EmptyString)
    (Hmsgs : messages ss ≠ []) (Hfresh : chat_sessions d !! uuid_a = None) :
  let r := enhanced_reset_chat_history t_save t_create uuid_a uuid_b d ss login in
  transcript r.1 sid = numbered 0 (messages ss) ∧
  (∀ sid', sid' ≠ sid → load_session_messages r.1 sid' = load_session_messages d sid') ∧
  r.2 = mkState (Some uuid_a) [] true ∧
  chat_sessions r.1 !! uuid_a =
    Some (mkSession login (String.append "Chat Session - " (strftime_minute t_create))
                    (isoformat t_create) (isoformat t_create) 0 true).
Proof.
  cbv zeta. unfold enhanced_reset_chat_history.
  destruct (SessionExtras.save_current_session_spec t_save d ss sid Hcur Hsid Hmsgs) as (Ht & _ & Ho).
  pose proof (proj2 (save_current_session_absent t_save d ss uuid_a) Hfresh) as Hnone.
  destruct (save_current_session t_save d ss) as [d1 ss1]. simpl fst in *.
  unfold ui_create_new_session.
  change (save_current_session_if_needed t_save d1
            (mkState (current_session_id ss1) [] (session_needs_title ss1)))
    with (d1, mkState (current_session_id ss1) [] (session_needs_title ss1)).
  cbv iota beta. unfold create_new_session. rewrite Hnone.
  cbn [fst snd]. split_and!.
  - exact Ht.
  - exact Ho.
  - reflexivity.
  - cbn [chat_sessions]. by rewrite lookup_insert_eq.
Qed.

(** X13 (witness): Fady clears the chat that holds Hello. *)
Lemma X13_witness :
  transcript (fst (enhanced_reset_chat_history noon noon "s2" "s3" fady_db fady_ui "Fady"))
             "s1" = [(0, "user", "Hello")] ∧
  snd (enhanced_reset_chat_history noon noon "s2" "s3" fady_db fady_ui "Fady") =
    mkState (Some "s2") [] true.
Proof.
  pose proof (X13_clear_chat_stores_the_transcript noon noon "s2" "s3" fady_db fady_ui
                "Fady" "s1" eq_refl ltac:(discriminate) ltac:(discriminate) eq_refl) as H.
  cbv zeta in H. exact (conj (proj1 H) (proj1 (proj2 (proj2 H)))).
Defined.

(** *** The session written last is the one resumed *)

Lemma ltb_not_leb a b : PyStr.ltb a b = true → PyStr.leb b a = false.
Proof.
  unfold PyStr.ltb, PyStr.leb. rewrite (String.compare_antisym a b).
  by destruct (String.compare b a).
Qed.

(** A stored, active session that was updated after every other active
    session of its owner heads the listing. *)
Lemma newest_heads_listing d login sid s :
  chat_sessions d !! sid = Some s → user_login s = login → is_active s = true →
  (∀ sid' s', sid' ≠ sid → chat_sessions d !! sid' = Some s' → user_login s' = login →
     is_active s' = true → PyStr.ltb (last_updated s') (last_updated s) = true) →
  get_user_sessions d login 1 = [(sid, s)].
Proof.
  intros Hs Hu Ha Hlater.
  assert (Hin : (sid, s) ∈ order_by_last_updated_desc (active_sessions_of d login)).
  { rewrite <- (order_sessions_perm _). by apply elem_of_active_sessions. }
  pose proof (order_sessions_sorted (active_sessions_of d login)) as Hsorted.
  unfold get_user_sessions, limit_rows. simpl.
  destruct (order_by_last_updated_desc (active_sessions_of d login)) as [|h t] eqn:E.
  { by apply elem_of_nil in Hin. }
  pose proof (SessionExtras.sorted_head_first _ h t Hsorted eq_refl _ Hin) as Hhead.
  unfold updated_not_before in Hhead. simpl in Hhead.
  assert (Hh : h ∈ active_sessions_of d login).
  { rewrite (order_sessions_perm _), E. by left. }
  apply elem_of_active_sessions in Hh as (Hhs & Hhu & Hha).
  destruct h as [hid hs]. simpl in *.
  destruct (decide (hid = sid)) as [->|Hne].
  - rewrite Hs in Hhs. by injection Hhs as ->.
  - pose proof (Hlater hid hs Hne Hhs Hhu Hha) as Hlt.
    apply ltb_not_leb in Hlt. congruence.
Qed.

(** X23.  The session written last is the one resumed.  When a message is
    saved to a stored, active session of a user at a clock reading whose
    text is after the [last_updated] of the user's other active sessions,
    that session alone heads the listing, with the reading as its
    [last_updated], and a start of the application without a current
    session resumes it with its stored transcript, the new message
    included, and writes nothing.  Renaming the session has the same effect
    on the listing. *)
Theorem X23_last_written_session_is_resumed
    (now now' : datetime) (uuid_a uuid_b : string) (d : db) (ss : session_state)
    (sid login rl ct new_title : string) (idx : Z) (s : session_row)
    (Hstored : chat_sessions d !! sid = Some s)
    (Howner : user_login s = login) (Hactive : is_active s = true)
    (Hlater : ∀ sid' s', sid' ≠ sid → chat_sessions d !! sid' = Some s' →
                user_login s' = login → is_active s' = true →
                PyStr.ltb (last_updated s') (isoformat now) = true)
    (Hnone : current_session_id ss = None) :
  (let d' := save_message now d sid rl ct idx in
   (∃ s', get_user_sessions d' login 1 = [(sid, s')] ∧ last_updated s' = isoformat now ∧
          session_title s' = session_title s) ∧
   initialize_session_for_user now' uuid_a uuid_b d' ss login =
     (d', mkState (Some sid) (to_ui <$> load_session_messages d' sid) false) ∧
   (mkUi rl ct) ∈ (to_ui <$> load_session_messages d' sid)) ∧
  (let d' := update_session_title now d sid new_title in
   ∃ s', get_user_sessions d' login 1 = [(sid, s')] ∧ last_updated s' = isoformat now ∧
         session_title s' = new_title).
Proof.
  split.
  - cbv zeta. set (d' := save_message now d sid rl ct idx).
    set (s1 := mkSession (user_login s) (session_title s) (created_at s) (isoformat now)
                 (count_messages (chat_messages d') sid) (is_active s)).
    assert (Hl : chat_sessions d' !! sid = Some s1).
    { unfold d'. rewrite save_message_lookup_same, Hstored. reflexivity. }
    assert (Hlist : get_user_sessions d' login 1 = [(sid, s1)]).
    { apply newest_heads_listing; [exact Hl|done|done|].
      intros sid' s' Hne Hs' Hu' Ha'. unfold d' in Hs'.
      rewrite save_message_lookup_other in Hs' by done. simpl. by apply (Hlater sid' s'). }
    split_and!.
    + exists s1. split; [exact Hlist|]. by split.
    + unfold initialize_session_for_user. rewrite Hnone, Hlist. reflexivity.
    + apply list_elem_of_fmap.
      exists (mkMessage (last_message_id d + 1) sid rl ct (isoformat now) idx).
      split; [reflexivity|]. rewrite (load_perm d' sid). apply list_elem_of_filter.
      split; [reflexivity|]. unfold d'. rewrite save_message_messages.
      apply elem_of_app. right. by left.
  - cbv zeta. set (d' := update_session_title now d sid new_title).
    set (s2 := mkSession (user_login s) new_title (created_at s) (isoformat now)
                 (message_count s) (is_active s)).
    assert (Hl : chat_sessions d' !! sid = Some s2).
    { unfold d'. rewrite SessionExtras.update_session_title_lookup.
      rewrite decide_True by done. by rewrite Hstored. }
    exists s2. split; [|by split].
    apply newest_heads_listing; [exact Hl|done|done|].
    intros sid' s' Hne Hs' Hu' Ha'. unfold d' in Hs'.
    rewrite SessionExtras.update_session_title_lookup in Hs'.
    rewrite decide_False in Hs' by done. simpl. by apply (Hlater sid' s').
Qed.

(** X23 (witness): Fady, whose only session is s1, adds a message at
    noon. *)
Lemma X23_witness :
  initialize_session_for_user noon "s2" "s3"
    (save_message noon fady_db "s1" "assistant" "Hi there" 1) (mkState None [] false) "Fady" =
  (save_message noon fady_db "s1" "assistant" "Hi there" 1,
   mkState (Some "s1") [mkUi "user" "Hello"; mkUi "assistant" "Hi there"] false).
Proof.
  assert (Hstored : chat_sessions fady_db !! "s1" =
            Some (mkSession "Fady" "Chat Session - 2024-03-15 12:00" (isoformat noon)
                    (isoformat noon) 1 true)) by reflexivity.
  refine (proj1 (proj2 (proj1 (X23_last_written_session_is_resumed noon noon "s2" "s3"
            fady_db (mkState None [] false) "s1" "Fady" "assistant" "Hi there"
            EmptyString 1 _ Hstored eq_refl eq_refl _ eq_refl)))).
  intros sid' s' Hne Hs' _ _. exfalso.
  assert (Hdom : ∀ k, k ≠ "s1" → chat_sessions fady_db !! k = None).
  { intros k Hk. unfold fady_db. rewrite save_message_lookup_other by done.
    unfold create_new_session, empty_db. cbn [chat_sessions]. rewrite lookup_empty.
    cbn [fst chat_sessions]. rewrite lookup_insert_ne by done. apply lookup_empty. }
  rewrite (Hdom sid' Hne) in Hs'. discriminate.
Defined.

End AppExtras.

(** ** More about the history log: identifiers, order, paging,
    statistics, retention and export *)
Module HistoryMoreFacts.
Import PyStr PyTime Json JsonOut History HistoryClaims HistoryFacts QueryFacts TimeFacts
  SelectFacts HistoryQueries.
Local Open Scope string_scope.
Local Open Scope list_scope.
Local Open Scope Z_scope.

(** *** Identifiers *)

Lemma sorted_lt_snoc (l : list Z) (x : Z) :
  Sorted Z.lt l → Forall (λ y, y < x) l → Sorted Z.lt (l ++ [x]).
Proof.
  induction 1 as [|y l Hs IH Hhd]; intros Hall; simpl.
  - by repeat constructor.
  - apply Forall_cons in Hall as [Hy Hall]. constructor; [by apply IH|].
    destruct l as [|z l]; simpl; constructor; [done|by inversion Hhd].
Qed.

Lemma sorted_lt_filter {A} (f : A → Z) (P : A → Prop) `{!∀ x, Decision (P x)} (l : list A) :
  Sorted Z.lt (f <$> l) → Sorted Z.lt (f <$> filter P l).
Proof.
  intros Hs.
  assert (Htrans : Relations_1.Transitive Z.lt) by (intros x y z; lia).
  apply (Sorted_StronglySorted Htrans) in Hs. apply StronglySorted_Sorted.
  induction l as [|a l IH]; [constructor|].
  simpl in Hs. apply StronglySorted_inv in Hs as [Hs Hall].
  rewrite filter_cons. case_decide; [|by apply IH].
  simpl. constructor; [by apply IH|].
  rewrite List.Forall_forall in Hall |- *. intros y Hy. apply Hall.
  apply list_elem_of_In in Hy. apply list_elem_of_In.
  apply list_elem_of_fmap in Hy as (b & -> & Hb).
  apply list_elem_of_fmap. exists b. split; [done|].
  by apply list_elem_of_filter in Hb as [_ ?].
Qed.

Lemma sorted_lt_NoDup (l : list Z) : Sorted Z.lt l → NoDup l.
Proof.
  intros Hs.
  assert (Htrans : Relations_1.Transitive Z.lt) by (intros x y z; lia).
  apply (Sorted_StronglySorted Htrans) in Hs.
  induction Hs as [|x l Hs IH Hall]; constructor; [|done].
  intros Hin. rewrite List.Forall_forall in Hall.
  apply list_elem_of_In in Hin. specialize (Hall _ Hin). lia.
Qed.

(** What a call of [log_search] does to the table. *)
Lemma log_search_store chain ok now_utc st q r sid src nts :
  let res := log_search chain ok now_utc st q r sid src nts in
  (res = (st, -1)) ∨
  (snd res = last_record_id st + 1 ∧ last_record_id (fst res) = last_record_id st + 1 ∧
   ∃ row, rows (fst res) = rows st ++ [row] ∧ record_id row = last_record_id st + 1 ∧
          timestamp row = strftime_sql now_utc ∧ user_query row = q ∧
          session_id row = Some sid).
Proof.
  cbv zeta.
  destruct (log_search_cases chain ok now_utc st q r sid src nts)
    as [Hfail|(pd & brand & model & notes' & _ & _ & _ & _ & _ & Hrow)].
  - by left.
  - right. rewrite Hrow. simpl. split_and!; try done. eexists. split_and!; done.
Qed.

Lemma log_search_well_numbered chain ok now_utc st q r sid src nts :
  well_numbered st →
  well_numbered (fst (log_search chain ok now_utc st q r sid src nts)) ∧
  last_record_id st <= last_record_id (fst (log_search chain ok now_utc st q r sid src nts)).
Proof.
  intros (H0 & Hall & Hs).
  destruct (log_search_store chain ok now_utc st q r sid src nts)
    as [->|(_ & Hlast & row & Hrows & Hid & _)].
  - simpl. split; [by split_and!|lia].
  - split; [|lia]. split_and!.
    + lia.
    + rewrite Hrows, Hlast. apply Forall_app. split.
      * eapply Forall_impl; [exact Hall|]. simpl. intros x Hx. lia.
      * constructor; [|constructor]. lia.
    + rewrite Hrows, fmap_app. simpl. apply sorted_lt_snoc; [done|].
      rewrite Forall_fmap. eapply Forall_impl; [exact Hall|]. simpl. intros x Hx. lia.
Qed.

Lemma clear_history_rows now st days :
  last_record_id (fst (clear_history now st days)) = last_record_id st ∧
  ∃ P (Hdec : ∀ x, Decision (P x)), rows (fst (clear_history now st days)) = filter P (rows st).
Proof.
  unfold clear_history. destruct days as [n|].
  - destruct ((1 <=? year (sub_days now n)) && (year (sub_days now n) <=? 9999)).
    + simpl. split; [done|]. by eexists _, _.
    + simpl. split; [done|]. exists (λ _, True), _. symmetry.
      induction (rows st) as [|x l IH]; [done|]. rewrite filter_cons.
      case_decide; [by rewrite IH|done].
  - simpl. split; [done|]. exists (λ _, False), _. symmetry.
    induction (rows st) as [|x l IH]; [done|]. rewrite filter_cons.
    case_decide; [done|by rewrite IH].
Qed.

Lemma forall_filter {A} (Q : A → Prop) (P : A → Prop) `{!∀ x, Decision (P x)} (l : list A) :
  Forall Q l → Forall Q (filter P l).
Proof.
  rewrite !Forall_forall. intros HQ x Hx. apply HQ.
  by apply list_elem_of_filter in Hx as [_ ?].
Qed.

Lemma clear_history_well_numbered now st days :
  well_numbered st →
  well_numbered (fst (clear_history now st days)) ∧
  last_record_id (fst (clear_history now st days)) = last_record_id st.
Proof.
  intros (H0 & Hall & Hs).
  destruct (clear_history_rows now st days) as (Hlast & P & Hdec & Hrows).
  split; [|done]. split_and!.
  - lia.
  - rewrite Hrows, Hlast. by apply forall_filter.
  - rewrite Hrows. by apply sorted_lt_filter.
Qed.

Lemma run_history_calls_well_numbered cs : ∀ st,
  well_numbered st →
  well_numbered (run_history_calls st cs) ∧
  last_record_id st <= last_record_id (run_history_calls st cs).
Proof.
  unfold run_history_calls.
  induction cs as [|c cs IH]; intros st Hwn; simpl; [split; [done|lia]|].
  assert (Hstep : well_numbered (run_history_call st c) ∧
                  last_record_id st <= last_record_id (run_history_call st c)).
  { destruct c as [chain ok now_utc q r sid src nts|now days]; simpl.
    - by apply log_search_well_numbered.
    - destruct (clear_history_well_numbered now st days Hwn) as [? ->]. split; [done|lia]. }
  destruct Hstep as [Hwn' Hle]. destruct (IH _ Hwn') as [? ?]. split; [done|lia].
Qed.

(** *** The newest record comes first *)

Lemma insert_desc_after r x l :
  PyStr.ltb (timestamp r) (timestamp x) = true → insert_desc r (x :: l) = x :: insert_desc r l.
Proof. intros H. simpl. by rewrite H. Qed.

Lemma order_by_snoc_newest l r :
  (∀ x, x ∈ l → PyStr.ltb (timestamp x) (timestamp r) = true) →
  order_by_timestamp_desc (l ++ [r]) = r :: order_by_timestamp_desc l.
Proof.
  unfold order_by_timestamp_desc. rewrite foldr_app. simpl.
  induction l as [|x l IH]; intros H; [done|].
  simpl. rewrite IH by (intros y Hy; apply H; by right).
  apply insert_desc_after. apply H. by left.
Qed.

(** *** Pages *)

Lemma get_search_history_cut st limit offset f :
  0 <= limit →
  get_search_history st limit offset f =
  firstn (Z.to_nat limit) (skipn (Z.to_nat offset) (get_search_history st (-1) 0 f)).
Proof.
  intros Hl. unfold get_search_history, select_history, limit_offset.
  assert (E : (limit <? 0) = false) by (apply Z.ltb_ge; lia). rewrite E.
  simpl. by rewrite fmap_take, fmap_drop.
Qed.

Lemma get_search_history_full st f :
  get_search_history st (-1) 0 f =
  to_record <$> order_by_timestamp_desc (filter (λ r, where_clause f r = true) (rows st)).
Proof. reflexivity. Qed.

(** *** Filters *)

Lemma where_clause_no_filters r : where_clause no_filters r = true.
Proof. reflexivity. Qed.

Lemma filter_all_true {A} (P : A → Prop) `{!∀ x, Decision (P x)} (l : list A) :
  (∀ x, x ∈ l → P x) → filter P l = l.
Proof.
  induction l as [|x l IH]; intros HP; [done|].
  rewrite filter_cons, decide_True by (apply HP; by left).
  rewrite IH; [done|]. intros y Hy. apply HP. by right.
Qed.

Lemma leb_ltb_negb a b : PyStr.leb a b = negb (PyStr.ltb b a).
Proof.
  unfold PyStr.leb, PyStr.ltb. rewrite (String.compare_antisym a b).
  by destruct (String.compare b a).
Qed.

Lemma where_clause_since t f r :
  date_from f = None →
  where_clause (since t f) r = where_clause f r && PyStr.leb (strftime_sql t) (timestamp r).
Proof.
  intros Hnone. unfold where_clause, since. simpl. rewrite Hnone.
  destruct (text_filter (brand_filter f) _), (text_filter (model_filter f) _),
    (PyStr.leb (strftime_sql t) (timestamp r)),
    (match date_to f with Some _ => _ | None => _ end),
    (text_filter (session_filter f) _); reflexivity.
Qed.

(** *** Export *)

Lemma to_csv_rows_spec rs :
  match to_csv_rows rs with
  | Some table => Forall2 line_of table rs
  | None => ∃ r, r ∈ rs ∧ to_csv_row r = None
  end.
Proof.
  induction rs as [|r rs IH]; simpl; [constructor|].
  destruct (to_csv_row r) as [c|] eqn:Ec.
  - destruct (to_csv_rows rs) as [cs|].
    + constructor; [|done]. unfold line_of. split_and!; [| | |exact Ec];
        unfold to_csv_row in Ec;
        destruct (py_len (r_price_details r)), (_format_price_range (r_price_details r)),
          (join_comma (r_vendors r)), (py_len (r_verified_urls r)); try done;
        by injection Ec as <-.
    + destruct IH as (r' & Hin & Hnone). exists r'. split; [by right|done].
  - exists r. split; [by left|done].
Qed.

Lemma price_values_none items item :
  item ∈ items → price_value item = None → price_values items = None.
Proof.
  induction items as [|p items IH]; intros Hin Hnone; [by apply elem_of_nil in Hin|].
  apply elem_of_cons in Hin as [->|Hin]; simpl.
  - by rewrite Hnone.
  - rewrite (IH Hin Hnone). by destruct (price_value p).
Qed.

End HistoryMoreFacts.


Module HistoryExtras.
Import PyStr PyTime Json JsonOut History HistoryClaims HistoryFacts QueryFacts TimeFacts
  SelectFacts HistoryQueries HistoryMoreFacts.
Local Open Scope string_scope.
Local Open Scope list_scope.
Local Open Scope Z_scope.

(** X14.  Record identifiers are never reused.  From a table whose
    identifiers are positive, ascending and at or below the AUTOINCREMENT
    counter, any sequence of [log_search] and [clear_history] calls leaves
    such a table, with distinct identifiers and a counter that did not go
    down; and a search logged after the sequence either stores nothing and
    returns -1, or appends one row under the counter plus one, which is
    positive and above every identifier in the table and every identifier
    the table held before the sequence, cleared or not. *)
Theorem X14_record_ids_are_never_reused
    (st : store) (cs : list history_call) (Hwn : well_numbered st) :
  let st1 := run_history_calls st cs in
  well_numbered st1 ∧
  last_record_id st <= last_record_id st1 ∧
  NoDup (record_id <$> rows st1) ∧
  ∀ chain ok now_utc q r sid src nts,
    let res := log_search chain ok now_utc st1 q r sid src nts in
    res = (st1, -1) ∨
    (snd res = last_record_id st1 + 1 ∧ 0 < snd res ∧
     (∃ row, rows (fst res) = rows st1 ++ [row] ∧ record_id row = snd res) ∧
     (∀ x, x ∈ rows st1 → record_id x < snd res) ∧
     (∀ x, x ∈ rows st → record_id x < snd res)).
Proof.
  cbv zeta. destruct (run_history_calls_well_numbered cs st Hwn) as [Hwn1 Hle].
  split_and!; [done|done| |].
  - apply sorted_lt_NoDup. by destruct Hwn1 as (_ & _ & ?).
  - intros chain ok now_utc q r sid src nts.
    destruct (log_search_store chain ok now_utc (run_history_calls st cs) q r sid src nts)
      as [Hfail|(Hid & _ & row & Hrows & Hrid & _)]; [by left|right].
    destruct Hwn1 as (H0 & Hall1 & _). destruct Hwn as (_ & Hall & _).
    rewrite Forall_forall in Hall1. rewrite Forall_forall in Hall.
    rewrite Hid. split_and!; [done|lia| | |].
    + by exists row.
    + intros x Hx. specialize (Hall1 x Hx). lia.
    + intros x Hx. specialize (Hall x Hx). lia.
Qed.

(** X14 (witness): a search is logged, the history is cleared, and the
    next search gets the identifier 2. *)
Lemma X14_witness :
  well_numbered empty_store ∧
  snd (log_search (chain_says "not json") true utc_noon
         (run_history_calls empty_store
            [LogSearch (chain_says "not json") true utc_noon "q" "r" "s1" "both" EmptyString;
             ClearHistory utc_noon None])
         "q" "r" "s1" "both" EmptyString) = 2 ∧
  NoDup (record_id <$> rows (run_history_calls empty_store
            [LogSearch (chain_says "not json") true utc_noon "q" "r" "s1" "both" EmptyString;
             ClearHistory utc_noon None])).
Proof.
  assert (Hwn : well_numbered empty_store).
  { split_and!; simpl; [lia|constructor|constructor]. }
  split; [exact Hwn|]. split; [reflexivity|].
  exact (proj1 (proj2 (proj2 (X14_record_ids_are_never_reused empty_store
    [LogSearch (chain_says "not json") true utc_noon "q" "r" "s1" "both" EmptyString;
     ClearHistory utc_noon None] Hwn)))).
Defined.



(** X16.  The pages of the history view ([render_search_history_main])
    partition the listing: page [k] is the slice of the full listing that
    starts at [k * n]; the records of the pages before it followed by its
    own are the first [(k + 1) * n] records; a page holds at most [n]
    records; and when the button Next is disabled (the page is short), the
    pages so far hold the whole listing and every later page is empty. *)
Theorem X16_pages_partition_the_listing
    (st : store) (n k : Z) (f : filters) (Hn : 0 < n) (Hk : 0 <= k) :
  history_page st n k f =
    firstn (Z.to_nat n) (skipn (Z.to_nat (k * n)) (get_search_history st (-1) 0 f)) ∧
  get_search_history st (k * n) 0 f ++ history_page st n k f =
    get_search_history st ((k + 1) * n) 0 f ∧
  Z.of_nat (length (history_page st n k f)) <= n ∧
  (next_disabled st n k f = true →
     get_search_history st ((k + 1) * n) 0 f = get_search_history st (-1) 0 f ∧
     ∀ j, k < j → history_page st n j f = []).
Proof.
  assert (Hpage : ∀ j, 0 <= j → history_page st n j f =
            firstn (Z.to_nat n) (skipn (Z.to_nat (j * n)) (get_search_history st (-1) 0 f))).
  { intros j Hj. unfold history_page. apply get_search_history_cut. lia. }
  assert (Hfirst : ∀ m, 0 <= m → get_search_history st m 0 f =
            firstn (Z.to_nat m) (get_search_history st (-1) 0 f)).
  { intros m Hm. by rewrite get_search_history_cut. }
  set (L := get_search_history st (-1) 0 f) in *.
  split_and!.
  - by apply Hpage.
  - rewrite Hpage, !Hfirst by nia. rewrite take_take_drop. f_equal. nia.
  - rewrite Hpage by done. pose proof (firstn_le_length (Z.to_nat n)
      (skipn (Z.to_nat (k * n)) L)). lia.
  - unfold next_disabled. intros Hshort. apply Z.ltb_lt in Hshort.
    rewrite Hpage in Hshort by done.
    rewrite length_firstn, length_skipn in Hshort.
    assert (Hlen : (length L < Z.to_nat ((k + 1) * n))%nat) by nia.
    split.
    + rewrite Hfirst by nia. apply firstn_all2. lia.
    + intros j Hj. rewrite Hpage by lia. rewrite skipn_all2; [by destruct (Z.to_nat n)|].
      nia.
Qed.

(** X16 (witness): pages of ten records, the first page of a table of
    one. *)
Lemma X16_witness :
  next_disabled agilent_store 10 0 no_filters = true ∧
  get_search_history agilent_store 10 0 no_filters =
    get_search_history agilent_store (-1) 0 no_filters ∧
  history_page agilent_store 10 1 no_filters = [].
Proof.
  assert (Hd : next_disabled agilent_store 10 0 no_filters = true) by reflexivity.
  split; [exact Hd|].
  destruct (proj2 (proj2 (proj2 (X16_pages_partition_the_listing agilent_store 10 0
              no_filters ltac:(lia) ltac:(lia)))) Hd) as [Hall Hlater].
  split; [exact Hall|]. exact (Hlater 1 ltac:(lia)).
Defined.

Lemma length_remove_dups_le {A} `{EqDecision A} (l : list A) :
  (length (remove_dups l) <= length l)%nat.
Proof.
  induction l as [|x l IH]; simpl; [lia|]. case_decide; simpl; lia.
Qed.

Lemma length_omap_le {A B} (g : A → option B) (l : list A) :
  (length (omap g l) <= length l)%nat.
Proof. induction l as [|x l IH]; csimpl; [lia|]. destruct (g x); csimpl; lia. Qed.

Lemma get_statistics_some now st s :
  get_statistics now st = Some s →
  1 <= year (sub_days now 7) <= 9999 ∧
  total_searches s = Z.of_nat (length (rows st)) ∧
  unique_brands s = Z.of_nat (length (remove_dups (brands (rows st)))) ∧
  searches_with_prices s =
    Z.of_nat (length (filter (λ r, has_prices r = true) (rows st))) ∧
  recent_searches s =
    Z.of_nat (length (filter (λ r, PyStr.leb (strftime_sql (sub_days now 7)) (timestamp r)
                                   = true) (rows st))).
Proof.
  unfold get_statistics.
  destruct ((1 <=? year (sub_days now 7)) && (year (sub_days now 7) <=? 9999)) eqn:E;
    [|done].
  apply andb_true_iff in E as [E1 E2]. apply Z.leb_le in E1, E2.
  intros [= <-]. split; [lia|]. split_and!; reflexivity.
Qed.

Lemma length_full_listing st f :
  length (get_search_history st (-1) 0 f) =
  length (filter (λ r, where_clause f r = true) (rows st)).
Proof.
  rewrite get_search_history_full, length_fmap.
  symmetry. apply Permutation_length, order_by_perm.
Qed.

(** X17.  The statistics of the sidebar agree with the listing: the total
    is the number of records listed without filters and without a limit;
    the recent searches are those listed from seven days before now; the
    other counts lie between zero and the total; no brand is counted
    exactly when every row has a NULL brand (an empty brand is a brand);
    and after [clear_history] with seven days at the same clock reading,
    what stays is what was counted as recent, and all of it is recent. *)
Theorem X17_statistics_agree_with_the_listing
    (now : datetime) (st : store) (s : history_statistics)
    (Hstats : get_statistics now st = Some s) :
  total_searches s = Z.of_nat (length (get_search_history st (-1) 0 no_filters)) ∧
  recent_searches s =
    Z.of_nat (length (get_search_history st (-1) 0 (since (sub_days now 7) no_filters))) ∧
  0 <= unique_brands s <= total_searches s ∧
  0 <= searches_with_prices s <= total_searches s ∧
  0 <= recent_searches s <= total_searches s ∧
  (unique_brands s = 0 ↔ ∀ r, r ∈ rows st → product_brand r = None) ∧
  ∃ s', get_statistics now (fst (clear_history now st (Some 7))) = Some s' ∧
        total_searches s' = recent_searches s ∧ recent_searches s' = total_searches s'.
Proof.
  destruct (get_statistics_some now st s Hstats) as (Hy & Ht & Hu & Hp & Hr).
  assert (Hrecent : filter (λ r, where_clause (since (sub_days now 7) no_filters) r = true)
                           (rows st) =
                    filter (λ r, PyStr.leb (strftime_sql (sub_days now 7)) (timestamp r) = true)
                           (rows st)).
  { apply list_filter_iff. intros r. by rewrite where_clause_since. }
  pose proof (length_remove_dups_le (brands (rows st))) as Hb1.
  pose proof (length_omap_le product_brand (rows st)) as Hb2. fold (brands (rows st)) in Hb2.
  pose proof (length_filter (λ r, has_prices r = true) (rows st)) as Hp1.
  pose proof (length_filter
    (λ r, PyStr.leb (strftime_sql (sub_days now 7)) (timestamp r) = true) (rows st)) as Hr1.
  split; [|split; [|split; [|split; [|split; [|split]]]]].
  - rewrite length_full_listing, filter_all_true; [done|]. intros r _. reflexivity.
  - by rewrite length_full_listing, Hrecent.
  - rewrite Hu, Ht. lia.
  - rewrite Hp, Ht. lia.
  - rewrite Hr, Ht. lia.
  - rewrite Hu. split.
    + intros H0 r Hr'. destruct (product_brand r) as [b|] eqn:Eb; [|done].
      assert (Hin : b ∈ remove_dups (brands (rows st))).
      { apply elem_of_remove_dups, list_elem_of_omap. by exists r. }
      destruct (remove_dups (brands (rows st))); [by apply elem_of_nil in Hin|].
      simpl in H0. lia.
    + intros Hnull. assert (E : brands (rows st) = []).
      { unfold brands. clear -Hnull. induction (rows st) as [|r l IH]; [done|]. csimpl.
        rewrite (Hnull r) by (by left). apply IH. intros r' Hr'. apply Hnull. by right. }
      by rewrite E.
  - rewrite (clear_history_window now st 7 Hy). unfold get_statistics.
    assert (E : (1 <=? year (sub_days now 7)) && (year (sub_days now 7) <=? 9999) = true).
    { apply andb_true_iff. split; apply Z.leb_le; lia. }
    rewrite E. eexists. split; [reflexivity|]. simpl.
    assert (Hsame : filter (λ r, PyStr.ltb (timestamp r) (strftime_sql (sub_days now 7)) = false)
                           (rows st) =
                    filter (λ r, PyStr.leb (strftime_sql (sub_days now 7)) (timestamp r) = true)
                           (rows st)).
    { apply list_filter_iff. intros r. rewrite leb_ltb_negb.
      by destruct (PyStr.ltb (timestamp r) (strftime_sql (sub_days now 7))). }
    rewrite Hr, Hsame. split; [done|].
    rewrite filter_all_true; [done|]. intros r Hr'.
    by apply list_elem_of_filter in Hr' as [? _].
Qed.

(** X17 (witness): the retention scenario, one record ten days old and one
    a day old. *)
Lemma X17_witness :
  get_statistics utc_noon aged_store = Some (mkHistoryStats 2 1 0 1) ∧
  recent_searches (mkHistoryStats 2 1 0 1) =
    Z.of_nat (length (get_search_history aged_store (-1) 0
                        (since (sub_days utc_noon 7) no_filters))).
Proof.
  assert (Hs : get_statistics utc_noon aged_store = Some (mkHistoryStats 2 1 0 1))
    by reflexivity.
  split; [exact Hs|].
  exact (proj1 (proj2 (X17_statistics_agree_with_the_listing utc_noon aged_store _ Hs))).
Defined.

(** X18.  What [clear_history] keeps is what a query from the cut-off
    lists: after [clear_history(days_to_keep=n)], [get_search_history] with
    filters that set no lower date gives, page by page, the records that
    the same query with [date_from] at now minus [n] days gave before; and
    clearing again at the same clock reading deletes nothing more. *)
Theorem X18_clear_history_keeps_what_the_range_lists
    (now : datetime) (st : store) (n : Z) (f : filters)
    (Hyear : 1 <= year (sub_days now n) <= 9999) (Hfrom : date_from f = None) :
  let st' := fst (clear_history now st (Some n)) in
  (∀ limit offset,
     get_search_history st' limit offset f =
     get_search_history st limit offset (since (sub_days now n) f)) ∧
  clear_history now st' (Some n) = (st', true).
Proof.
  cbv zeta. rewrite (clear_history_window now st n Hyear). simpl fst.
  split.
  - intros limit offset. unfold get_search_history, select_history. simpl rows.
    rewrite list_filter_filter. do 3 f_equal.
    apply list_filter_iff. intros r. rewrite where_clause_since by done.
    rewrite leb_ltb_negb.
    destruct (where_clause f r), (PyStr.ltb (timestamp r) (strftime_sql (sub_days now n)));
      simpl; intuition congruence.
  - rewrite (clear_history_window now _ n Hyear). simpl. do 2 f_equal.
    apply filter_all_true. intros r Hr. by apply list_elem_of_filter in Hr as [? _].
Qed.

(** X18 (witness): the retention scenario with seven days. *)
Lemma X18_witness :
  get_search_history (fst (clear_history utc_noon aged_store (Some 7))) 50 0 no_filters =
  get_search_history aged_store 50 0 (since (sub_days utc_noon 7) no_filters).
Proof.
  exact (proj1 (X18_clear_history_keeps_what_the_range_lists utc_noon aged_store 7 no_filters
                  ltac:(vm_compute; split; discriminate) eq_refl) 50 0).
Defined.

Lemma listing_nil st f :
  get_search_history st 10000 0 f = [] ↔ ∀ r, r ∈ rows st → where_clause f r = false.
Proof.
  unfold get_search_history, select_history, limit_offset. simpl skipn.
  change (10000 <? 0) with false. cbv iota.
  set (F := filter (λ r, where_clause f r = true) (rows st)).
  assert (HF : F = [] ↔ ∀ r, r ∈ rows st → where_clause f r = false).
  { split.
    - intros E r Hr. destruct (where_clause f r) eqn:Ew; [|done].
      assert (Hin : r ∈ F) by (apply list_elem_of_filter; by split).
      rewrite E in Hin. by apply elem_of_nil in Hin.
    - intros H. destruct F as [|x F'] eqn:E; [done|].
      assert (Hin : x ∈ F) by (rewrite E; by left).
      apply list_elem_of_filter in Hin as [Hx Hin]. rewrite (H x Hin) in Hx. done. }
  rewrite <- HF. pose proof (order_by_perm F) as Hp.
  destruct (order_by_timestamp_desc F) as [|x l] eqn:E.
  - apply Permutation_nil_r in Hp. by rewrite Hp.
  - split.
    { intros Hempty. destruct (Z.to_nat 10000) eqn:En; [lia|]. discriminate Hempty. }
    intros EF. rewrite EF in Hp. by apply Permutation_nil_l in Hp.
Qed.

(** X19.  [export_to_csv] is all or nothing.  It reports nothing to export
    exactly when no row passes the filters; when it writes a table, the
    table has one line for each of the first 10000 records of the listing,
    in the order of the listing, with the identifier, time stamp and query
    of its record; and it fails exactly when the line of one of these
    records cannot be built, which is the case for every record whose
    price list holds an entry that is not a dictionary with a [value]. *)
Theorem X19_export_is_all_or_nothing (st : store) (f : filters) :
  (export_to_csv st f = NothingToExport ↔ ∀ r, r ∈ rows st → where_clause f r = false) ∧
  (∀ table, export_to_csv st f = Exported table →
     Forall2 line_of table (get_search_history st 10000 0 f)) ∧
  (export_to_csv st f = ExportFailed ↔
     ∃ r, r ∈ get_search_history st 10000 0 f ∧ to_csv_row r = None) ∧
  (∀ r items item, r_price_details r = JArr items → item ∈ items →
     price_value item = None → to_csv_row r = None).
Proof.
  pose proof (to_csv_rows_spec (get_search_history st 10000 0 f)) as Hrows.
  pose proof (listing_nil st f) as Hnil.
  unfold export_to_csv.
  destruct (get_search_history st 10000 0 f) as [|r0 rs] eqn:E.
  - split_and!.
    + split; [intros _; by apply Hnil|done].
    + done.
    + split; [done|]. intros (r & Hin & _). by apply elem_of_nil in Hin.
    + intros r items item Hp Hin Hv. unfold to_csv_row. rewrite Hp.
      unfold _format_price_range. destruct items as [|i0 items']; [by apply elem_of_nil in Hin|].
      simpl truthy. simpl negb. cbv iota.
      by rewrite (price_values_none _ _ Hin Hv).
  - destruct (to_csv_rows (r0 :: rs)) as [table|] eqn:Et.
    + split_and!.
      * split; [done|]. intros H. apply Hnil in H. done.
      * by intros ? [= <-].
      * split; [done|]. intros (r & Hin & Hnone).
        assert (Hall : ∀ r, r ∈ r0 :: rs → is_Some (to_csv_row r)).
        { clear -Hrows. induction Hrows as [|c r' t l (_ & _ & _ & Hc) _ IH].
          - intros r Hr. by apply elem_of_nil in Hr.
          - intros r Hr. apply elem_of_cons in Hr as [->|Hr]; [by rewrite Hc|by apply IH]. }
        destruct (Hall r Hin) as [c Hc]. congruence.
      * intros r items item Hp Hin Hv. unfold to_csv_row. rewrite Hp.
        unfold _format_price_range.
        destruct items as [|i0 items']; [by apply elem_of_nil in Hin|].
        simpl truthy. simpl negb. cbv iota.
        by rewrite (price_values_none _ _ Hin Hv).
    + split_and!.
      * split; [done|]. intros H. apply Hnil in H. done.
      * done.
      * split; [intros _; exact Hrows|done].
      * intros r items item Hp Hin Hv. unfold to_csv_row. rewrite Hp.
        unfold _format_price_range.
        destruct items as [|i0 items']; [by apply elem_of_nil in Hin|].
        simpl truthy. simpl negb. cbv iota.
        by rewrite (price_values_none _ _ Hin Hv).
Qed.

Lemma price_values_ints items zs :
  Forall2 is_price items zs → price_values items = Some (JInt <$> zs).
Proof.
  induction 1 as [|item z items zs [Hv _] _ IH]; [done|].
  simpl. by rewrite Hv, IH.
Qed.

Lemma all_numbers_ints zs :
  all_numbers (JInt <$> zs) = Some ((λ z, Fin (mkDecimal z 0)) <$> zs).
Proof. induction zs as [|z zs IH]; [done|]. rewrite !fmap_cons. simpl. by rewrite IH. Qed.

Lemma py_min_ints zs : ∀ z,
  py_min (Fin (mkDecimal z 0)) ((λ z, Fin (mkDecimal z 0)) <$> zs) =
  Fin (mkDecimal (fold_left Z.min zs z) 0).
Proof.
  unfold py_min. induction zs as [|y zs IH]; intros z; [done|].
  rewrite fmap_cons. simpl fold_left. unfold dec_ltb. simpl.
  rewrite !Z.mul_1_r. destruct (y <? z) eqn:E.
  - apply Z.ltb_lt in E. rewrite IH. by rewrite Z.min_r by lia.
  - apply Z.ltb_ge in E. rewrite IH. by rewrite Z.min_l by lia.
Qed.

Lemma py_max_ints zs : ∀ z,
  py_max (Fin (mkDecimal z 0)) ((λ z, Fin (mkDecimal z 0)) <$> zs) =
  Fin (mkDecimal (fold_left Z.max zs z) 0).
Proof.
  unfold py_max. induction zs as [|y zs IH]; intros z; [done|].
  rewrite fmap_cons. simpl fold_left. unfold dec_ltb. simpl.
  rewrite !Z.mul_1_r. destruct (z <? y) eqn:E.
  - apply Z.ltb_lt in E. rewrite IH. by rewrite Z.max_r by lia.
  - apply Z.ltb_ge in E. rewrite IH. by rewrite Z.max_l by lia.
Qed.

Lemma money_unfold z :
  money z = String.append (if z <? 0 then "-" else EmptyString)
              (String.append (group_thousands (N_to_string (Z.to_N (Z.abs z)))) ".00").
Proof.
  unfold money, format_2f, cents. cbn [mant expo].
  change (0 <=? 0 + 2) with true. cbv iota. change (10 ^ (0 + 2)) with 100.
  rewrite Z.div_mul, Z.mod_mul by lia. reflexivity.
Qed.

Lemma fold_min_bounds zs : ∀ z x, x ∈ z :: zs → fold_left Z.min zs z <= x.
Proof.
  induction zs as [|y zs IH]; intros z x Hx; simpl.
  - apply list_elem_of_singleton in Hx. lia.
  - apply elem_of_cons in Hx as [->|Hx].
    + specialize (IH (Z.min z y) (Z.min z y) ltac:(by left)). lia.
    + apply elem_of_cons in Hx as [->|Hx].
      * specialize (IH (Z.min z y) (Z.min z y) ltac:(by left)). lia.
      * apply IH. by right.
Qed.

Lemma fold_max_bounds zs : ∀ z x, x ∈ z :: zs → x <= fold_left Z.max zs z.
Proof.
  induction zs as [|y zs IH]; intros z x Hx; simpl.
  - apply list_elem_of_singleton in Hx. lia.
  - apply elem_of_cons in Hx as [->|Hx].
    + specialize (IH (Z.max z y) (Z.max z y) ltac:(by left)). lia.
    + apply elem_of_cons in Hx as [->|Hx].
      * specialize (IH (Z.max z y) (Z.max z y) ltac:(by left)). lia.
      * apply IH. by right.
Qed.

Lemma fold_min_in zs : ∀ z, fold_left Z.min zs z ∈ z :: zs.
Proof.
  induction zs as [|y zs IH]; intros z; simpl; [by left|].
  specialize (IH (Z.min z y)). apply elem_of_cons in IH as [E|IH].
  - rewrite E. destruct (Z.min_spec z y) as [[_ ->]|[_ ->]]; [by left|right; by left].
  - right. by right.
Qed.

Lemma fold_max_in zs : ∀ z, fold_left Z.max zs z ∈ z :: zs.
Proof.
  induction zs as [|y zs IH]; intros z; simpl; [by left|].
  specialize (IH (Z.max z y)). apply elem_of_cons in IH as [E|IH].
  - rewrite E. destruct (Z.max_spec z y) as [[_ ->]|[_ ->]]; [right; by left|by left].
  - right. by right.
Qed.

(** X21.  [_format_price_range] on a list of dictionaries whose [value]
    is an integer: no entry gives No prices, one entry its price, and two
    or more entries the range from the least to the greatest price, also
    when all the prices are equal; the two ends are prices of the list and
    bound every price of it.  A price is written with its sign, commas
    between groups of three digits, and two zero decimals. *)
Theorem X21_price_range_of_integer_prices
    (items : list json) (zs : list Z) (Hprices : Forall2 is_price items zs) :
  _format_price_range (JArr items) =
    Some (match zs with
          | [] => "No prices"
          | [z] => String "$" (money z)
          | z :: rest =>
              String "$" (String.append (money (fold_left Z.min rest z))
                            (String.append " - $" (money (fold_left Z.max rest z))))
          end) ∧
  (∀ z rest, zs = z :: rest →
     fold_left Z.min rest z ∈ zs ∧ fold_left Z.max rest z ∈ zs ∧
     ∀ x, x ∈ zs → fold_left Z.min rest z <= x <= fold_left Z.max rest z) ∧
  (∀ z, money z = String.append (if z <? 0 then "-" else EmptyString)
                    (String.append (group_thousands (N_to_string (Z.to_N (Z.abs z)))) ".00")).
Proof.
  split; [|split].
  - pose proof (price_values_ints items zs Hprices) as Hv.
    destruct Hprices as [|item z items zs Hp Hrest]; [reflexivity|].
    unfold _format_price_range. simpl truthy. simpl negb. cbv iota.
    rewrite Hv, all_numbers_ints, fmap_cons.
    destruct zs as [|z' zs]; [reflexivity|].
    rewrite fmap_cons. cbv iota.
    rewrite <- (fmap_cons (λ z, Fin (mkDecimal z 0)) z' zs).
    rewrite py_min_ints, py_max_ints. reflexivity.
  - intros z rest ->. split_and!.
    + apply fold_min_in.
    + apply fold_max_in.
    + intros x Hx. split; [by apply fold_min_bounds|by apply fold_max_bounds].
  - apply money_unfold.
Qed.

(** X21 (witness): two offers at 1299 and one at 950. *)
Lemma X21_witness :
  _format_price_range
    (JArr [JObj [("value", JInt 1299)]; JObj [("vendor", JStr "Tektronix"); ("value", JInt 950)];
           JObj [("value", JInt 1299)]]) = Some "$950.00 - $1,299.00".
Proof.
  refine (proj1 (X21_price_range_of_integer_prices _ [1299; 950; 1299] _)).
  repeat constructor; vm_compute; discriminate.
Defined.

End HistoryExtras.

(** ** The JSON columns: what [log_search] writes, [get_search_history]
    reads back *)
Module JsonFacts.
Import PyStr PyTime Json JsonOut History HistoryClaims HistoryFacts QueryFacts TimeFacts
  HistoryQueries HistoryMoreFacts.
Local Open Scope string_scope.
Local Open Scope list_scope.
Local Open Scope Z_scope.

Lemma escape_body_cons c rest :
  (N_of_ascii c < 128)%N →
  escape_body (String c rest) =
  String.append (escape_body (String c EmptyString)) (escape_body rest).
Proof.
  destruct c as [[] [] [] [] [] [] [] []]; intros H; try (by vm_compute in H);
    reflexivity.
Qed.

Lemma scan_units_escape c t :
  (N_of_ascii c < 128)%N →
  scan_units (String.append (escape_body (String c EmptyString)) t) =
  match scan_units t with
  | Some (us, tl) => Some (unit_of c :: us, tl)
  | None => None
  end.
Proof.
  destruct c as [[] [] [] [] [] [] [] []]; intros H; try (by vm_compute in H);
    reflexivity.
Qed.

Lemma units_to_bytes_unit c us :
  (N_of_ascii c < 128)%N →
  units_to_bytes (unit_of c :: us) = c :: units_to_bytes us.
Proof.
  destruct c as [[] [] [] [] [] [] [] []]; intros H; try (by vm_compute in H);
    try reflexivity; destruct us as [|[|] us]; reflexivity.
Qed.

Lemma is_ascii_cons c s :
  is_ascii (String c s) = true ↔ (N_of_ascii c < 128)%N ∧ is_ascii s = true.
Proof. simpl. rewrite andb_true_iff, N.ltb_lt. tauto. Qed.

(** The body of a dumped string, read back up to the closing quote. *)
Lemma scan_units_body s : ∀ rest,
  is_ascii s = true →
  ∃ us, scan_units (String.append (escape_body s) (String "034" rest)) = Some (us, rest) ∧
        units_to_bytes us = list_ascii_of_string s.
Proof.
  induction s as [|c s IH]; intros rest Hs.
  - exists []. split; reflexivity.
  - apply is_ascii_cons in Hs as [Hc Hs]. destruct (IH rest Hs) as (us & Hscan & Hbytes).
    exists (unit_of c :: us). rewrite escape_body_cons by done.
    rewrite append_assoc, scan_units_escape by done. rewrite Hscan. split; [done|].
    rewrite units_to_bytes_unit by done. simpl. by rewrite Hbytes.
Qed.

Lemma scan_string_body s rest :
  is_ascii s = true →
  scan_string (String.append (escape_body s) (String "034" rest)) = Some (s, rest).
Proof.
  intros Hs. destruct (scan_units_body s rest Hs) as (us & Hscan & Hbytes).
  unfold scan_string. rewrite Hscan, Hbytes. by rewrite string_of_list_ascii_of_string.
Qed.

Lemma dump_string_unfold s rest :
  String.append (dump_string s) rest =
  String "034" (String.append (escape_body s) (String "034" rest)).
Proof.
  unfold dump_string, quote. rewrite !append_assoc. reflexivity.
Qed.

Lemma scan_once_quote f rest :
  scan_once (S f) (String "034" rest) =
  match scan_string rest with
  | Some (t, tl) => Some (JStr t, tl)
  | None => None
  end.
Proof. reflexivity. Qed.

Lemma scan_once_string f s rest :
  is_ascii s = true →
  scan_once (S f) (String.append (dump_string s) rest) = Some (JStr s, rest).
Proof.
  intros Hs. by rewrite dump_string_unfold, scan_once_quote, scan_string_body.
Qed.

Lemma scan_items_unfold f s :
  scan_items (S f) s =
  match scan_once f s with
  | None => None
  | Some (v, rest) =>
      match skip_ws rest with
      | String "]" tl => Some ([v], tl)
      | String "," tl =>
          match scan_items f (skip_ws tl) with
          | Some (vs, tl') => Some (v :: vs, tl')
          | None => None
          end
      | _ => None
      end
  end.
Proof. reflexivity. Qed.

Lemma scan_once_bracket f rest :
  scan_once (S f) (String "[" rest) =
  match skip_ws rest with
  | String "]" tl => Some (JArr [], tl)
  | rest' =>
      match scan_items f rest' with
      | Some (items, tl) => Some (JArr items, tl)
      | None => None
      end
  end.
Proof. reflexivity. Qed.

Lemma items_text_cons s s' ss :
  items_text (s :: s' :: ss) =
  String.append (dump_string s) (String "," (String " " (items_text (s' :: ss)))).
Proof. reflexivity. Qed.

Lemma items_text_head s ss : ∃ tail, items_text (s :: ss) = String "034" tail.
Proof.
  destruct ss as [|s' ss].
  - eexists. unfold items_text. simpl. rewrite <- (append_nil_r (dump_string s)).
    apply dump_string_unfold.
  - eexists. rewrite items_text_cons. apply dump_string_unfold.
Qed.

Lemma scan_items_strings ss : ∀ f rest,
  ss ≠ [] → Forall (λ s, is_ascii s = true) ss → (length ss < f)%nat →
  scan_items f (String.append (items_text ss) (String "]" rest)) = Some (JStr <$> ss, rest).
Proof.
  induction ss as [|s ss IH]; intros f rest Hne Hall Hf; [done|].
  apply Forall_cons in Hall as [Hs Hall].
  destruct f as [|[|f]]; simpl in Hf; [lia|lia|].
  rewrite scan_items_unfold. destruct ss as [|s' ss].
  - unfold items_text. simpl join. rewrite scan_once_string by done. reflexivity.
  - rewrite items_text_cons, append_assoc, scan_once_string by done.
    change (String.append (String "," (String " " (items_text (s' :: ss)))) (String "]" rest))
      with (String "," (String " " (String.append (items_text (s' :: ss)) (String "]" rest)))).
    change (skip_ws (String "," ?x)) with (String "," x). cbv iota.
    destruct (items_text_head s' ss) as (tail & Htail).
    assert (Hskip : skip_ws (String " " (String.append (items_text (s' :: ss)) (String "]" rest)))
                    = String.append (items_text (s' :: ss)) (String "]" rest)).
    { rewrite Htail. reflexivity. }
    rewrite Hskip, (IH (S f) rest); [done|done|done|simpl in *; lia].
Qed.

Lemma length_items_text ss : (length ss <= String.length (items_text ss))%nat.
Proof.
  induction ss as [|s ss IH]; [simpl; lia|].
  destruct (items_text_head s ss) as (tail & Htail).
  destruct ss as [|s' ss].
  - rewrite Htail. simpl. lia.
  - rewrite items_text_cons, SessionFacts.length_append.
    change (String.length (String "," (String " " ?x))) with (S (S (String.length x))).
    simpl length in *. lia.
Qed.

Lemma json_dumps_string_list ss :
  json_dumps (string_list ss) = String "[" (String.append (items_text ss) "]").
Proof.
  unfold string_list, items_text. simpl. do 3 f_equal.
  rewrite map_map. reflexivity.
Qed.

(** A list of ASCII strings written by [json.dumps] is read back by
    [json.loads]. *)
Lemma json_loads_dumps_string_list ss :
  Forall (λ s, is_ascii s = true) ss →
  json_loads (json_dumps (string_list ss)) = Some (string_list ss).
Proof.
  intros Hall. rewrite json_dumps_string_list. unfold json_loads.
  change (skip_ws (String "[" ?x)) with (String "[" x).
  change (String.length (String "[" ?x)) with (S (String.length x)).
  replace (2 * S (String.length (String.append (items_text ss) "]")) + 2)%nat
    with (S (2 * String.length (String.append (items_text ss) "]") + 3))%nat by lia.
  rewrite scan_once_bracket.
  destruct ss as [|s ss]; [reflexivity|].
  destruct (items_text_head s ss) as (tail & Htail).
  assert (Hscan : scan_items (2 * String.length (String.append (items_text (s :: ss)) "]") + 3)
                    (String.append (items_text (s :: ss)) "]") =
                  Some (JStr <$> (s :: ss), EmptyString)).
  { apply scan_items_strings; [done|done|].
    rewrite SessionFacts.length_append. pose proof (length_items_text (s :: ss)). lia. }
  assert (HX : String.append (items_text (s :: ss)) "]" =
               String "034" (String.append tail "]")) by (by rewrite Htail).
  revert Hscan. rewrite HX. intros Hscan.
  change (skip_ws (String "034" ?x)) with (String "034" x). cbv iota.
  rewrite Hscan. reflexivity.
Qed.

End JsonFacts.

Module JsonExtras.
Import PyStr PyTime Json JsonOut History HistoryClaims HistoryFacts QueryFacts TimeFacts
  SelectFacts HistoryQueries HistoryMoreFacts JsonFacts.
Local Open Scope string_scope.
Local Open Scope list_scope.
Local Open Scope Z_scope.

Lemma parse_dumps_string_list ss :
  Forall (λ s, is_ascii s = true) ss →
  parse_json_field (Some (json_dumps (string_list ss))) = string_list ss.
Proof.
  intros Hall. apply parse_json_field_valid.
  - by rewrite json_dumps_string_list.
  - by apply json_loads_dumps_string_list.
Qed.

Lemma all_strings_string_list ss : all_strings (JStr <$> ss) = Some ss.
Proof. induction ss as [|s ss IH]; [done|]. rewrite fmap_cons. cbn [all_strings]. by rewrite IH. Qed.

Lemma length_string_list ss : py_len (string_list ss) = Some (length ss).
Proof. unfold string_list. simpl. by rewrite length_fmap. Qed.



End JsonExtras.

(** ** The driver of the connection string *)
Module DbConnectionExtras.
Import PyStr DbConnection.
Local Open Scope string_scope.
Local Open Scope list_scope.

Lemma first_preferred_some preferred available d :
  first_preferred preferred available = Some d →
  d ∈ available ∧
  ∃ before after, preferred = before ++ d :: after ∧ ∀ p, p ∈ before → p ∉ available.
Proof.
  induction preferred as [|p rest IH]; simpl; [done|].
  case_bool_decide as Hp.
  - intros [= <-]. split; [done|]. exists [], rest. split; [done|].
    intros q Hq. by apply elem_of_nil in Hq.
  - intros Hd. destruct (IH Hd) as (Hin & before & after & -> & Hbefore).
    split; [done|]. exists (p :: before), after. split; [done|].
    intros q Hq. apply elem_of_cons in Hq as [->|Hq]; [done|by apply Hbefore].
Qed.

Lemma first_preferred_none preferred available :
  first_preferred preferred available = None → ∀ p, p ∈ preferred → p ∉ available.
Proof.
  induction preferred as [|p rest IH]; simpl.
  - intros _ q Hq. by apply elem_of_nil in Hq.
  - case_bool_decide as Hp; [done|]. intros Hn q Hq.
    apply elem_of_cons in Hq as [->|Hq]; [done|by apply IH].
Qed.

Lemma first_preferred_truthy available d :
  first_preferred preferred_drivers available = Some d → truthy d = true.
Proof.
  intros H. apply first_preferred_some in H as (_ & before & after & Hp & _).
  assert (Hin : d ∈ preferred_drivers) by (rewrite Hp; apply elem_of_app; right; by left).
  unfold preferred_drivers in Hin.
  repeat (apply elem_of_cons in Hin as [->|Hin]; [done|]). by apply elem_of_nil in Hin.
Qed.

(** X22.  [create_connection_string] raises for want of a driver exactly
    when no installed driver has SQL Server in its name (or the drivers
    cannot be listed), and for want of credentials exactly when a driver is
    there and the user or the password is unset or empty.  Otherwise the
    string names one driver: an installed one with SQL Server in its name,
    the first of the preference list that is installed, or, when none of
    the list is installed, the first installed SQL Server driver. *)
Theorem X22_connection_string_names_an_installed_driver
    (installed : option (list string)) (env : gmap string string) :
  (create_connection_string installed env = NoDriverFound ↔
     get_available_drivers installed = []) ∧
  (create_connection_string installed env = NoCredentials ↔
     get_available_drivers installed ≠ [] ∧ ¬ has_credentials env) ∧
  (∀ odbc_str, create_connection_string installed env = ConnectionString odbc_str →
     ∃ d rest drivers,
       odbc_str = "DRIVER={" +:+ d +:+ "};" +:+ rest ∧
       installed = Some drivers ∧ d ∈ drivers ∧ py_in "SQL Server" d = true ∧
       preferred_choice (get_available_drivers installed) d).
Proof.
  unfold create_connection_string.
  destruct (get_available_drivers installed) as [|first avail] eqn:Ea.
  { split_and!; [done| |done]. split; [done|]. by intros [? _]. }
  set (d := match first_preferred preferred_drivers (first :: avail) with
            | Some d => if truthy d then d else first
            | None => first
            end).
  assert (Hd : d ∈ first :: avail ∧ preferred_choice (first :: avail) d).
  { unfold d. destruct (first_preferred preferred_drivers (first :: avail)) as [p|] eqn:Ep.
    - rewrite (first_preferred_truthy _ _ Ep).
      apply first_preferred_some in Ep as (Hin & before & after & Hp & Hb).
      split; [done|]. left. by exists before, after.
    - split; [by left|]. right. split; [|done]. by apply first_preferred_none. }
  destruct Hd as [Hin Hchoice].
  assert (Hinst : ∃ drivers, installed = Some drivers ∧ d ∈ drivers ∧ py_in "SQL Server" d = true).
  { destruct installed as [drivers|]; [|done]. exists drivers. split; [done|].
    simpl in Ea. rewrite <- Ea in Hin. apply list_elem_of_filter in Hin as [? ?]. done. }
  destruct (env !! "DB_USER") as [uid|] eqn:Eu; destruct (env !! "DB_PASSWORD") as [pwd|] eqn:Epw.
  - destruct uid as [|c uid]; [|destruct pwd as [|c' pwd]]; simpl.
    + split_and!; [done| |done]. split; [|done]. intros _. split; [done|].
      intros (u & p & Hu & _ & Hne & _). rewrite Eu in Hu. by injection Hu as <-.
    + split_and!; [done| |done]. split; [|done]. intros _. split; [done|].
      intros (u & p & _ & Hp & _ & Hne). rewrite Epw in Hp. by injection Hp as <-.
    + split_and!; [done| |].
      * split; [done|]. intros [_ Hno]. destruct Hno.
        exists (String c uid), (String c' pwd). by rewrite Eu, Epw.
      * intros odbc_str [= <-]. destruct Hinst as (drivers & Hi & Hdin & Hsql).
        exists d. eexists. exists drivers. split; [reflexivity|]. done.
  - split_and!; [done| |done]. split; [|done]. intros _. split; [done|].
    intros (u & p & _ & Hp & _). by rewrite Epw in Hp.
  - split_and!; [done| |done]. split; [|done]. intros _. split; [done|].
    intros (u & p & Hu & _). by rewrite Eu in Hu.
  - split_and!; [done| |done]. split; [|done]. intros _. split; [done|].
    intros (u & p & Hu & _). by rewrite Eu in Hu.
Qed.

End DbConnectionExtras.

(** ** The rewriting of price queries *)
Module SqlToolExtras.
Import PyStr SqlTool.
Local Open Scope string_scope.
Local Open Scope list_scope.

(** *** Text without white space at its ends *)

Lemma ends_clean_tail c r : ends_clean (String c r) → ends_clean r.
Proof.
  unfold ends_clean. cbn [rstrip]. destruct (rstrip r) as [|a t] eqn:E.
  - destruct (is_space c); [discriminate|]. by intros [= <-].
  - by intros [= <-].
Qed.

Lemma ends_clean_cons c t : ends_clean t → t ≠ EmptyString → ends_clean (String c t).
Proof.
  unfold ends_clean. intros H Hne. cbn [rstrip]. rewrite H. by destruct t.
Qed.

Lemma ends_clean_app a t : ends_clean a → ends_clean t → ends_clean (a +:+ t).
Proof.
  induction a as [|c a IH]; intros Ha Ht; [done|].
  assert (Hrec : ends_clean (a +:+ t)) by (apply IH; [by apply ends_clean_tail in Ha|done]).
  change (String c a +:+ t) with (String c (a +:+ t)).
  destruct a as [|a0 a'].
  - change (ends_clean (String c t)). destruct t as [|t0 t']; [exact Ha|].
    by apply ends_clean_cons.
  - apply ends_clean_cons; [exact Hrec|discriminate].
Qed.

Lemma ends_clean_app_nonempty a t :
  ends_clean t → t ≠ EmptyString → ends_clean (a +:+ t).
Proof.
  intros Ht Hne. induction a as [|c a IH]; [done|].
  change (String c a +:+ t) with (String c (a +:+ t)).
  apply ends_clean_cons; [done|]. destruct a; [done|discriminate].
Qed.

Lemma ends_clean_rstrip s : ends_clean (rstrip s).
Proof.
  unfold ends_clean. induction s as [|c s IH]; [done|].
  cbn [rstrip]. destruct (rstrip s) as [|a t] eqn:E.
  - destruct (is_space c) eqn:Ec; [done|]. cbn [rstrip]. by rewrite Ec.
  - cbn [rstrip]. cbn [rstrip] in IH. by rewrite IH.
Qed.

Lemma ends_clean_lstrip s : ends_clean s → ends_clean (lstrip s).
Proof.
  induction s as [|c s IH]; intros H; [done|].
  cbn [lstrip]. destruct (is_space c); [|done]. apply IH. by apply ends_clean_tail in H.
Qed.

Lemma lstrip_lstrip s : lstrip (lstrip s) = lstrip s.
Proof.
  induction s as [|c s IH]; [done|]. cbn [lstrip].
  destruct (is_space c) eqn:E; [done|]. cbn [lstrip]. by rewrite E.
Qed.

Lemma lstrip_rstrip s : lstrip s = s → lstrip (rstrip s) = rstrip s.
Proof.
  destruct s as [|c s]; [done|]. cbn [lstrip rstrip].
  destruct (is_space c) eqn:E.
  - intros H. exfalso. pose proof (f_equal String.length H) as Hl. cbn [String.length] in Hl.
    assert (Hle : ∀ t, (String.length (lstrip t) <= String.length t)%nat).
    { induction t as [|x t IHt]; [done|]. cbn [lstrip]. destruct (is_space x); simpl; lia. }
    specialize (Hle s). lia.
  - intros _. destruct (rstrip s); cbn [lstrip]; by rewrite E.
Qed.

Lemma strip_strip s : strip (strip s) = strip s.
Proof.
  unfold strip. rewrite (lstrip_rstrip (lstrip s)) by apply lstrip_lstrip.
  apply ends_clean_rstrip.
Qed.

(** *** Suffixes *)

Lemma starts_ci_clean word : ∀ s rest,
  starts_ci word s = Some rest → ends_clean s → ends_clean rest.
Proof.
  induction word as [|a word IH]; intros s rest; cbn [starts_ci].
  - by intros [= <-].
  - destruct s as [|b s]; [done|].
    destruct (Ascii.eqb (lower_char a) (lower_char b)); [|done].
    intros Hs Hc. apply (IH s rest Hs). by apply ends_clean_tail in Hc.
Qed.

Lemma spaces1_clean s rest : spaces1 s = Some rest → ends_clean s → ends_clean rest.
Proof.
  unfold spaces1. destruct s as [|c s]; [done|]. destruct (is_space c); [|done].
  intros [= <-] Hc. apply ends_clean_lstrip. by apply ends_clean_tail in Hc.
Qed.

(** What a price query looks like. *)
Lemma select_then_inv word s :
  select_then word s = true →
  ∃ rest0 rest, starts_ci "SELECT" s = Some rest0 ∧ spaces1 rest0 = Some rest ∧
                is_Some (starts_ci word rest).
Proof.
  unfold select_then. destruct (starts_ci "SELECT" s) as [rest0|] eqn:E0; [|done].
  destruct (spaces1 rest0) as [rest|] eqn:E1; [|done].
  destruct (starts_ci word rest) as [tail|] eqn:E; [|done]. intros _.
  exists rest0, rest. split_and!; [done|done|]. rewrite E. by eexists.
Qed.

Lemma price_is_not_distinct rest :
  is_Some (starts_ci "Price" rest) → starts_ci "DISTINCT" rest = None.
Proof.
  destruct rest as [|c rest]; [by intros [? ?]|]. cbn [starts_ci].
  change (lower_char "P") with "p"%char. change (lower_char "D") with "d"%char.
  destruct (Ascii.eqb_spec "p" (lower_char c)) as [<-|]; [done|]. by intros [? ?].
Qed.

(** *** The two replacements keep what cannot start a match *)

Lemma where_at_first c s :
  Ascii.eqb "w" (lower_char c) = false → where_at (String c s) = false.
Proof.
  intros H. unfold where_at. cbn [starts_ci]. change (lower_char "W") with "w"%char.
  by rewrite H.
Qed.

Lemma sub_where_keep c s b :
  Ascii.eqb "w" (lower_char c) = false →
  sub_where 0 b (String c s) = String c (sub_where 0 (is_word c) s).
Proof.
  intros H. cbn [sub_where]. rewrite (where_at_first c s H). by rewrite andb_false_r.
Qed.

Lemma replace_keep old new c s a old' :
  old = String a old' → Ascii.eqb a c = false →
  replace 0 old new (String c s) = String c (replace 0 old new s).
Proof. intros -> H. cbn [replace startswith]. by rewrite H. Qed.

(** A text that starts with Price, in any case, keeps these five
    characters under both replacements. *)
Lemma starts_price_chars rest :
  is_Some (starts_ci "Price" rest) →
  ∃ c1 c2 c3 c4 c5 tail,
    rest = String c1 (String c2 (String c3 (String c4 (String c5 tail)))) ∧
    lower_char c1 = "p"%char ∧ lower_char c2 = "r"%char ∧ lower_char c3 = "i"%char ∧
    lower_char c4 = "c"%char ∧ lower_char c5 = "e"%char.
Proof.
  intros [r H].
  destruct rest as [|c1 [|c2 [|c3 [|c4 [|c5 tail]]]]]; cbn [starts_ci] in H;
    change (lower_char "P") with "p"%char in H;
    change (lower_char "r") with "r"%char in H;
    change (lower_char "i") with "i"%char in H;
    change (lower_char "c") with "c"%char in H;
    change (lower_char "e") with "e"%char in H;
    repeat match type of H with
           | (if Ascii.eqb ?a ?b then _ else _) = _ =>
               destruct (Ascii.eqb_spec a b); [|discriminate]
           end; try discriminate.
  exists c1, c2, c3, c4, c5, tail. by split_and!.
Qed.

Lemma not_F c x :
  lower_char c = x → Ascii.eqb "f" x = false → Ascii.eqb "F" c = false.
Proof.
  intros <- Hl. destruct (Ascii.eqb_spec "F" c) as [<-|]; [|done]. by vm_compute in Hl.
Qed.

Lemma sub_where_price rest :
  is_Some (starts_ci "Price" rest) → is_Some (starts_ci "Price" (sub_where 0 false rest)).
Proof.
  intros H. destruct (starts_price_chars rest H)
    as (c1 & c2 & c3 & c4 & c5 & tail & -> & H1 & H2 & H3 & H4 & H5).
  rewrite !sub_where_keep by (by rewrite ?H1, ?H2, ?H3, ?H4, ?H5).
  cbn [starts_ci]. rewrite H1, H2, H3, H4, H5. by eexists.
Qed.

Lemma replace_price old' new rest :
  is_Some (starts_ci "Price" rest) →
  is_Some (starts_ci "Price" (replace 0 (String "F" old') new rest)).
Proof.
  intros H. destruct (starts_price_chars rest H)
    as (c1 & c2 & c3 & c4 & c5 & tail & -> & H1 & H2 & H3 & H4 & H5).
  rewrite !(replace_keep _ new _ _ "F" old' eq_refl)
    by (eapply not_F; [eassumption|reflexivity]).
  cbn [starts_ci]. rewrite H1, H2, H3, H4, H5. by eexists.
Qed.

(** *** The two replacements leave no white space at the end *)

Lemma sub_where_nonempty b s : s ≠ EmptyString → sub_where 0 b s ≠ EmptyString.
Proof.
  destruct s as [|c s]; [done|]. intros _. cbn [sub_where].
  by destruct (negb b && where_at (String c s)).
Qed.

Lemma sub_where_clean s : ∀ skip b, ends_clean s → ends_clean (sub_where skip b s).
Proof.
  induction s as [|c s IH]; intros skip b Hc; [done|].
  pose proof (ends_clean_tail c s Hc) as Hs.
  cbn [sub_where]. destruct skip as [|skip]; [|by apply IH].
  destruct (negb b && where_at (String c s)).
  - apply ends_clean_app; [reflexivity|by apply IH].
  - destruct s as [|x s']; [exact Hc|].
    apply ends_clean_cons; [by apply IH|by apply sub_where_nonempty].
Qed.

Lemma replace_nonempty old new s :
  new ≠ EmptyString → s ≠ EmptyString → replace 0 old new s ≠ EmptyString.
Proof.
  intros Hn. destruct s as [|c s]; [done|]. intros _. cbn [replace].
  destruct (startswith (String c s) old); [|done]. by destruct new.
Qed.

Lemma replace_clean old new s : ∀ skip,
  ends_clean new → new ≠ EmptyString → ends_clean s → ends_clean (replace skip old new s).
Proof.
  induction s as [|c s IH]; intros skip Hn Hne Hc; [done|].
  pose proof (ends_clean_tail c s Hc) as Hs.
  cbn [replace]. destruct skip as [|skip]; [|by apply IH].
  destruct (startswith (String c s) old).
  - apply ends_clean_app; [done|by apply IH].
  - destruct s as [|x s']; [exact Hc|].
    apply ends_clean_cons; [by apply IH|by apply replace_nonempty].
Qed.

(** *** The query that is sent *)

Lemma strip_clean_query rest :
  ends_clean rest → rest ≠ EmptyString →
  strip ("SELECT DISTINCT " +:+ rest) = "SELECT DISTINCT " +:+ rest.
Proof.
  intros Hc Hne. unfold strip.
  change (lstrip ("SELECT DISTINCT " +:+ rest)) with ("SELECT DISTINCT " +:+ rest).
  by apply ends_clean_app_nonempty.
Qed.

Lemma not_price_after_distinct rest :
  select_then "Price" ("SELECT DISTINCT " +:+ rest) = false.
Proof. reflexivity. Qed.

Lemma modified_price_query raw :
  ends_clean raw → select_then "Price" raw = true →
  ∃ rest, ends_clean rest ∧ is_Some (starts_ci "Price" rest) ∧
    (if negb (select_then "DISTINCT" raw) then sub_select raw else raw) =
    "SELECT DISTINCT " +:+ rest.
Proof.
  intros Hc Hp. destruct (select_then_inv "Price" raw Hp) as (rest0 & rest & H0 & H1 & H2).
  exists rest. split_and!.
  - apply (spaces1_clean rest0 rest H1). by apply (starts_ci_clean "SELECT" raw rest0 H0).
  - done.
  - unfold select_then, sub_select. rewrite H0, H1.
    by rewrite (price_is_not_distinct rest H2).
Qed.

Lemma sub_where_after_distinct rest :
  sub_where 0 false ("SELECT DISTINCT " +:+ rest) =
  "SELECT DISTINCT " +:+ sub_where 0 false rest.
Proof. reflexivity. Qed.

Lemma replace_after_distinct old' new rest :
  replace 0 (String "F" old') new ("SELECT DISTINCT " +:+ rest) =
  "SELECT DISTINCT " +:+ replace 0 (String "F" old') new rest.
Proof. reflexivity. Qed.

Lemma modified_sql_query_cases sql_query :
  (select_then "Price" (strip sql_query) = false ∧
   modified_sql_query sql_query = strip sql_query) ∨
  (select_then "Price" (strip sql_query) = true ∧
   ∃ rest, modified_sql_query sql_query = "SELECT DISTINCT " +:+ rest ∧
           ends_clean rest ∧ is_Some (starts_ci "Price" rest)).
Proof.
  unfold modified_sql_query. set (raw := strip sql_query).
  assert (Hclean : ends_clean raw) by apply ends_clean_rstrip.
  destruct (select_then "Price" raw) eqn:Hp; [right|by left]. split; [done|].
  destruct (modified_price_query raw Hclean Hp) as (rest & Hc & Hprice & ->).
  destruct (search_where false ("SELECT DISTINCT " +:+ rest)).
  - exists (sub_where 0 false rest). split_and!.
    + apply sub_where_after_distinct.
    + by apply sub_where_clean.
    + by apply sub_where_price.
  - eexists. split_and!.
    + apply replace_after_distinct.
    + by apply replace_clean.
    + by apply replace_price.
Qed.

Lemma modified_sql_query_fixed s :
  strip s = s → select_then "Price" s = false → modified_sql_query s = s.
Proof. intros Hs Hp. unfold modified_sql_query. by rewrite Hs, Hp. Qed.

(** X24.  The SQL tool rewrites price queries, and only those, and does it
    once.  A query that, stripped of white space at its ends, does not
    start with SELECT, white space and Price (in any case) is sent as it
    is, stripped.  A query that does is sent starting with SELECT DISTINCT
    and a single space, followed by a text that still starts with Price.
    What is sent is never a price query in this sense, so sending it
    through the tool again changes nothing. *)
Theorem X24_price_queries_are_rewritten_once (sql_query : string) :
  let sent := modified_sql_query sql_query in
  (select_then "Price" (strip sql_query) = false → sent = strip sql_query) ∧
  (select_then "Price" (strip sql_query) = true →
     ∃ rest, sent = "SELECT DISTINCT " +:+ rest ∧ is_Some (starts_ci "Price" rest)) ∧
  select_then "Price" sent = false ∧
  modified_sql_query sent = sent.
Proof.
  cbv zeta.
  destruct (modified_sql_query_cases sql_query)
    as [[Hp ->]|[Hp (rest & -> & Hclean & Hprice)]].
  - split_and!; [done|by rewrite Hp|done|].
    apply modified_sql_query_fixed; [apply strip_strip|done].
  - assert (Hne : rest ≠ EmptyString) by (destruct rest; [by destruct Hprice|done]).
    split_and!.
    + by rewrite Hp.
    + intros _. by exists rest.
    + apply not_price_after_distinct.
    + apply modified_sql_query_fixed; [by apply strip_clean_query|].
      apply not_price_after_distinct.
Qed.

End SqlToolExtras.
